(** * HLDNbot: the venue connector (rate limiters, quantizer, request
    correlator, transport manager, order constructor)

    A shallow embedding of [utils/rate-limiter.js] and of the
    [HyperliquidConnector] class, with the properties the specification
    states about them.

    Conventions.
    - [Date.now()] is an integer number of milliseconds: a [Z].
    - A JS [Number] that carries a price or a size is an IEEE-754 binary64
      value, modelled with the integer-based [spec_float] of the standard
      library (no primitive floats, everything computes).
    - A JS [Map] is a [gmap]; a JS [Set] iterated in insertion order is a
      duplicate-free [list].
    - Methods that mutate [this] are state-passing functions. *)

From Stdlib Require Import ZArith List Bool Lia Ascii String DecimalString.
From Stdlib Require Import Floats.SpecFloat.
From stdpp Require Import base option list gmap strings.

Local Open Scope Z_scope.

(* ===================================================================== *)
(** * utils/rate-limiter.js *)
(* ===================================================================== *)

Module RateLimiter.

(** [class SlidingWindowRateLimiter]: the three fields set by the
    constructor. [requests] is the array of recorded timestamps, oldest
    first ([push] appends). *)
Record SlidingWindowRateLimiter := mkLimiter {
  maxRequests : Z;
  windowMs : Z;
  requests : list Z
}.

(** [x || d] on an optional numeric option: [undefined] and [0] are falsy. *)
Definition or_default (x : option Z) (d : Z) : Z :=
  match x with
  | Some v => if v =? 0 then d else v
  | None => d
  end.

(** [constructor(options = {})] *)
Definition constructor (optMaxRequests optWindowMs : option Z)
  : SlidingWindowRateLimiter :=
  {| maxRequests := or_default optMaxRequests 100;
     windowMs := or_default optWindowMs 1000;
     requests := [] |}.

(** [cleanup()]: [now] is the value read from [Date.now()]. *)
Definition cleanup (now : Z) (l : SlidingWindowRateLimiter)
  : SlidingWindowRateLimiter :=
  {| maxRequests := maxRequests l;
     windowMs := windowMs l;
     requests :=
       List.filter (fun timestamp => now - timestamp <? windowMs l)
                   (requests l) |}.

(** [canRequest()]: returns the answer and the limiter as the call
    leaves it. *)
Definition canRequest (now : Z) (l : SlidingWindowRateLimiter)
  : bool * SlidingWindowRateLimiter :=
  let l' := cleanup now l in
  (Z.of_nat (List.length (requests l')) <? maxRequests l', l').

(** [tryRequest()]: [now] is the clock read inside [cleanup], [now'] the
    one read by [this.requests.push(Date.now())]. *)
Definition tryRequest (now now' : Z) (l : SlidingWindowRateLimiter)
  : bool * SlidingWindowRateLimiter :=
  let l' := cleanup now l in
  if Z.of_nat (List.length (requests l')) >=? maxRequests l' then (false, l')
  else (true, {| maxRequests := maxRequests l';
                 windowMs := windowMs l';
                 requests := requests l' ++ [now'] |}).

(** [waitForSlot()]: the loop polls [canRequest] every 10 ms; [clock]
    lists the successive readings of [Date.now()] (one per [canRequest],
    then the two of the final [tryRequest]). [None]: the readings ran out
    before a slot was free. Nothing else uses the limiter during the
    waits. *)
Fixpoint waitForSlot (clock : list Z) (l : SlidingWindowRateLimiter)
  : option SlidingWindowRateLimiter :=
  match clock with
  | now :: rest =>
      let '(ok, l') := canRequest now l in
      if ok then
        match rest with
        | n1 :: n2 :: _ => Some (snd (tryRequest n1 n2 l'))
        | _ => None
        end
      else waitForSlot rest l'
  | [] => None
  end.

(** ** Runs of calls on one limiter *)

Inductive call :=
| CanRequest (now : Z)
| TryRequest (now now' : Z).

(** The clock readings of a call, in the order they are taken. *)
Definition readings (c : call) : list Z :=
  match c with
  | CanRequest now => [now]
  | TryRequest now now' => [now; now']
  end.

Definition step (c : call) (l : SlidingWindowRateLimiter)
  : bool * SlidingWindowRateLimiter :=
  match c with
  | CanRequest now => canRequest now l
  | TryRequest now now' => tryRequest now now' l
  end.

(** Runs the calls in order; returns the final limiter and the timestamps
    of the [tryRequest] calls that returned [true], oldest first. *)
Fixpoint run (cs : list call) (l : SlidingWindowRateLimiter)
  : SlidingWindowRateLimiter * list Z :=
  match cs with
  | [] => (l, [])
  | c :: cs' =>
      let '(ok, l') := step c l in
      let '(lf, acc) := run cs' l' in
      (lf, match c with
           | TryRequest _ now' => if ok then now' :: acc else acc
           | CanRequest _ => acc
           end)
  end.

(** The clock never goes back: the readings of a run are non-decreasing. *)
Fixpoint nondecreasing (ts : list Z) : Prop :=
  match ts with
  | [] => True
  | t :: rest =>
      match rest with
      | [] => True
      | u :: _ => t <= u /\ nondecreasing rest
      end
  end.

Definition clock_of (cs : list call) : list Z := List.concat (List.map readings cs).

(** How many of the timestamps [ts] fall in the span [[a, a + w)]. *)
Definition in_span (a w : Z) (ts : list Z) : nat :=
  List.length (List.filter (fun t => (a <=? t) && (t <? a + w)) ts).

(** The timestamps that the window test of [cleanup] keeps at clock
    reading [n]. *)
Definition live (w n : Z) (ts : list Z) : list Z :=
  List.filter (fun timestamp => n - timestamp <? w) ts.

(** The array holds no more than [maxRequests] timestamps. *)
Definition bounded (l : SlidingWindowRateLimiter) : Prop :=
  Z.of_nat (List.length (requests l)) <= Z.max 0 (maxRequests l).

(** Every granted timestamp had, when it was granted, fewer than [mx]
    granted timestamps less than [w] ms before it. *)
Definition admissible (mx w : Z) (acc : list Z) : Prop :=
  forall l1 t l2, acc = l1 ++ t :: l2 ->
    Z.of_nat (List.length (live w t l1)) < mx.

(** The state a run has reached at clock reading [c], having granted
    [acc]: a purge at any later reading leaves the same timestamps as
    purging everything granted so far; the array is sorted and holds
    nothing from the future. *)
Definition tracks (mx w c : Z) (l : SlidingWindowRateLimiter) (acc : list Z)
  : Prop :=
  maxRequests l = mx /\ windowMs l = w /\
  (forall n, c <= n -> live w n (requests l) = live w n acc) /\
  nondecreasing (requests l) /\ Forall (fun t => t <= c) (requests l).

End RateLimiter.

(* ===================================================================== *)
(** * JS numbers: binary64 values and their decimal conversions *)
(* ===================================================================== *)

(** The connector computes prices and sizes with JS numbers and goes
    through their decimal text ([toPrecision], [toFixed], [toString],
    [parseFloat]). The built-ins are modelled after ECMA-262 on the exact
    value of the binary64 operand; nothing is approximated:
    - a number is a [spec_float] with [prec = 53] and [emax = 1024];
    - [*], [/], [+], [-] are the correctly rounded operations of
      [SpecFloat];
    - text to number rounds the exact decimal value to nearest, ties to
      even; number to text works on the exact binary value. *)

Module Num.

Definition prec : Z := 53.
Definition emax : Z := 1024.

Abbreviation number := spec_float.

Definition NaN : number := S754_nan.
Definition mul : number -> number -> number := SFmul prec emax.
Definition div : number -> number -> number := SFdiv prec emax.
Definition add : number -> number -> number := SFadd prec emax.
Definition sub : number -> number -> number := SFsub prec emax.
Definition ltb : number -> number -> bool := SFltb.
Definition gtb (x y : number) : bool := SFltb y x.

(** The number nearest to [p / q] ([0 <= p], [0 < q]), with sign [s]. *)
Definition of_ratio (s : bool) (p q : Z) : number :=
  if p =? 0 then S754_zero s
  else
    let '(m, e, l) := SFdiv_core_binary prec emax p 0 q 0 in
    binary_round_aux prec emax s m e l.

(** The number nearest to [n * 10 ^ k]. *)
Definition of_decimal (s : bool) (n k : Z) : number :=
  if 0 <=? k then of_ratio s (n * 10 ^ k) 1 else of_ratio s n (10 ^ (- k)).

(** An integer literal. *)
Definition of_Z (z : Z) : number := of_decimal (z <? 0) (Z.abs z) 0.

(** The exact magnitude of a finite number, as a fraction. *)
Definition magnitude (m : positive) (e : Z) : Z * Z :=
  if 0 <=? e then (Z.pos m * 2 ^ e, 1) else (Z.pos m, 2 ^ (- e)).

(** [Number.isFinite] *)
Definition isFinite (x : number) : bool :=
  match x with
  | S754_zero _ | S754_finite _ _ _ => true
  | _ => false
  end.

(** [ToBoolean] on a number: [0], [-0] and [NaN] are falsy. *)
Definition truthy (x : number) : bool :=
  match x with
  | S754_zero _ | S754_nan => false
  | _ => true
  end.

(** ** Decimal text of integers *)

Definition digits (z : Z) : string :=
  NilZero.string_of_uint (N.to_uint (Z.to_N z)).

Fixpoint zeros (n : nat) : string :=
  match n with
  | O => EmptyString
  | S n' => String "0" (zeros n')
  end.

Definition is_digit (c : ascii) : bool :=
  let n := nat_of_ascii c in (48 <=? n)%nat && (n <=? 57)%nat.

Definition digit_value (c : ascii) : Z := Z.of_nat (nat_of_ascii c) - 48.

Fixpoint digits_value_from (acc : Z) (s : string) : Z :=
  match s with
  | EmptyString => acc
  | String c r => digits_value_from (10 * acc + digit_value c) r
  end.

Definition digits_value (s : string) : Z := digits_value_from 0 s.

(** The longest prefix of decimal digits, and what follows it. *)
Fixpoint span_digits (s : string) : string * string :=
  match s with
  | String c r =>
      if is_digit c then let '(d, rest) := span_digits r in (String c d, rest)
      else (EmptyString, s)
  | EmptyString => (EmptyString, EmptyString)
  end.

(** The number of decimal digits of [n >= 1]. *)
Definition ndigits (n : Z) : Z := Z.of_nat (String.length (digits n)).

(** [floor (log10 (p / q))] for [0 < p], [0 < q]. *)
Definition floor_log10 (p q : Z) : Z :=
  if q <=? p then ndigits (p / q) - 1
  else - ndigits ((q + p - 1) / p - 1).

(** The integer nearest to [p / q]; of two, the larger. *)
Definition round_half_up (p q : Z) : Z := (2 * p + q) / (2 * q).

(** [p / q * 10 ^ k] as a fraction. *)
Definition scale10 (p q k : Z) : Z * Z :=
  if 0 <=? k then (p * 10 ^ k, q) else (p, q * 10 ^ (- k)).

(** ** [Number::toString] *)

(** Exponent suffix: ["e+21"], ["e-7"]. *)
Definition exponent_text (e : Z) : string :=
  String.append "e" (String.append (if e <? 0 then "-" else "+") (digits (Z.abs e))).

(** The digit string [s] (of [k] digits) placed so that its value is
    [0.s * 10 ^ n], in the layout ECMA-262 prescribes. *)
Definition layout (s : string) (n : Z) : string :=
  let k := Z.of_nat (String.length s) in
  if (k <=? n) && (n <=? 21) then
    String.append s (zeros (Z.to_nat (n - k)))
  else if (0 <? n) && (n <=? 21) then
    String.append (substring 0 (Z.to_nat n) s)
      (String.append "." (substring (Z.to_nat n) (Z.to_nat (k - n)) s))
  else if (-6 <? n) && (n <=? 0) then
    String.append "0." (String.append (zeros (Z.to_nat (- n))) s)
  else if k =? 1 then
    String.append s (exponent_text (n - 1))
  else
    String.append (substring 0 1 s)
      (String.append "." (String.append (substring 1 (Z.to_nat (k - 1)) s)
                                        (exponent_text (n - 1)))).

(** Removes the trailing zeros of [s > 0]: [1500] becomes [15]. *)
Fixpoint drop_zeros (fuel : nat) (s : Z) : Z :=
  match fuel with
  | O => s
  | S f => if (s mod 10 =? 0) && negb (s =? 0) then drop_zeros f (s / 10) else s
  end.

(** Among the two decimals with [k] significant digits around [p / q]
    (the magnitude of [x], in decade [e0]), one that reads back as [x]:
    the closer one first, the even one when they are equally close.
    [Some (s, n)]: the digits [s], without trailing zeros, and the
    exponent [n] such that the decimal is [0.s * 10 ^ n]. *)
Definition shortest_at (x : number) (p q e0 k : Z) : option (Z * Z) :=
  let '(sp, sq) := scale10 p q (k - 1 - e0) in
  let lo := sp / sq in
  let hi := lo + 1 in
  let reads_back s := SFeqb (of_decimal false s (e0 - k + 1)) x in
  let pick s := (drop_zeros 20 s, e0 - k + 1 + ndigits s) in
  let twice_rem := 2 * (sp - lo * sq) in
  let lo_first :=
    (twice_rem <? sq) || ((twice_rem =? sq) && Z.even lo) in
  let first := if lo_first then lo else hi in
  let second := if lo_first then hi else lo in
  if (0 <? first) && reads_back first then Some (pick first)
  else if (0 <? second) && reads_back second then Some (pick second)
  else None.

Fixpoint shortest_from (fuel : nat) (x : number) (p q e0 k : Z) : Z * Z :=
  match fuel with
  | O => (0, 0)
  | S f =>
      match shortest_at x p q e0 k with
      | Some r => r
      | None => shortest_from f x p q e0 (k + 1)
      end
  end.

Definition toString (x : number) : string :=
  match x with
  | S754_nan => "NaN"
  | S754_zero _ => "0"
  | S754_infinity s => if s then "-Infinity" else "Infinity"
  | S754_finite s m e =>
      let '(p, q) := magnitude m e in
      let '(d, n) := shortest_from 18 (S754_finite false m e) p q (floor_log10 p q) 1 in
      String.append (if s then "-" else "") (layout (digits d) n)
  end.

(** ** [Number.prototype.toFixed] *)

(** [n] written with [f] digits after the point ([f = 0]: no point). *)
Definition fixed_text (n f : Z) : string :=
  let m := digits n in
  if f =? 0 then m
  else
    let k := Z.of_nat (String.length m) in
    let m' := if k <=? f then String.append (zeros (Z.to_nat (f + 1 - k))) m else m in
    let k' := if k <=? f then f + 1 else k in
    String.append (substring 0 (Z.to_nat (k' - f)) m')
      (String.append "." (substring (Z.to_nat (k' - f)) (Z.to_nat f) m')).

(** [x.toFixed(f)]; [None] is the [RangeError] thrown for [f] outside
    [0..100]. *)
Definition toFixed (x : number) (f : Z) : option string :=
  if (f <? 0) || (100 <? f) then None
  else
    match x with
    | S754_finite s m e =>
        let '(p, q) := magnitude m e in
        if 10 ^ 21 * q <=? p then
          Some (String.append (if s then "-" else "")
                  (toString (S754_finite false m e)))
        else
          let '(sp, sq) := scale10 p q f in
          Some (String.append (if s then "-" else "")
                  (fixed_text (round_half_up sp sq) f))
    | S754_zero _ => Some (fixed_text 0 f)
    | _ => Some (toString x)
    end.

(** ** [Number.prototype.toPrecision] *)

(** The [p] significant digits [n] and the decimal exponent [e] of
    [sp / sq > 0]: [n * 10 ^ (e - p + 1)] is the nearest value to it with
    [10 ^ (p - 1) <= n < 10 ^ p], the larger of two. *)
Definition precision_digits (sp sq p : Z) : Z * Z :=
  let e0 := floor_log10 sp sq in
  let '(np, nq) := scale10 sp sq (p - 1 - e0) in
  let n := round_half_up np nq in
  if n =? 10 ^ p then (10 ^ (p - 1), e0 + 1) else (n, e0).

(** [x.toPrecision(p)] for a given [p]; [None] is the [RangeError] thrown
    for [p] outside [1..100]. *)
Definition toPrecision (x : number) (p : Z) : option string :=
  match x with
  | S754_nan | S754_infinity _ => Some (toString x)
  | _ =>
      if (p <? 1) || (100 <? p) then None
      else
        let sign :=
          match x with S754_finite true _ _ => "-" | _ => "" end in
        let '(m, e) :=
          match x with
          | S754_finite _ mx ex =>
              let '(sp, sq) := magnitude mx ex in
              let '(n, e) := precision_digits sp sq p in
              (digits n, e)
          | _ => (zeros (Z.to_nat p), 0)
          end in
        if (e <? -6) || (p <=? e) then
          let m' :=
            if p =? 1 then m
            else String.append (substring 0 1 m)
                   (String.append "." (substring 1 (Z.to_nat (p - 1)) m)) in
          Some (String.append sign (String.append m' (exponent_text e)))
        else if e =? p - 1 then Some (String.append sign m)
        else if 0 <=? e then
          Some (String.append sign
                  (String.append (substring 0 (Z.to_nat (e + 1)) m)
                     (String.append "."
                        (substring (Z.to_nat (e + 1)) (Z.to_nat (p - (e + 1))) m))))
        else
          Some (String.append sign
                  (String.append "0."
                     (String.append (zeros (Z.to_nat (- (e + 1)))) m)))
  end.

(** ** [parseFloat] *)

Definition is_space (c : ascii) : bool :=
  let n := nat_of_ascii c in
  (n =? 32)%nat || ((9 <=? n)%nat && (n <=? 13)%nat).

Fixpoint trim_start (s : string) : string :=
  match s with
  | String c r => if is_space c then trim_start r else s
  | EmptyString => s
  end.

(** The exponent part at the head of [s], when there is a well-formed
    one: [e] or [E], an optional sign, at least one digit. *)
Definition exponent_part (s : string) : Z :=
  match s with
  | String c r =>
      if Ascii.eqb c "e" || Ascii.eqb c "E" then
        let '(neg, r') :=
          match r with
          | String "-" r' => (true, r')
          | String "+" r' => (false, r')
          | _ => (false, r)
          end in
        let '(ds, _) := span_digits r' in
        match ds with
        | EmptyString => 0
        | _ => if neg then - digits_value ds else digits_value ds
        end
      else 0
  | EmptyString => 0
  end.

(** [parseFloat(s)]: the longest prefix of the trimmed text that is a
    decimal literal, or [NaN]. *)
Definition parseFloat (s : string) : number :=
  let t := trim_start s in
  let '(neg, u) :=
    match t with
    | String "-" r => (true, r)
    | String "+" r => (false, r)
    | _ => (false, t)
    end in
  if String.prefix "Infinity" u then S754_infinity neg
  else
    let '(ip, r1) := span_digits u in
    let '(fp, r2) :=
      match r1 with
      | String "." r => span_digits r
      | _ => (EmptyString, r1)
      end in
    match String.append ip fp with
    | EmptyString => NaN
    | ds => of_decimal neg (digits_value ds)
              (exponent_part r2 - Z.of_nat (String.length fp))
    end.

(** ** [Math.round] and [Math.pow] *)

(** [Math.round(x)]: the integer nearest to [x], the larger of two. *)
Definition round (x : number) : number :=
  match x with
  | S754_finite s m e =>
      if 0 <=? e then x
      else
        let '(p, q) := magnitude m e in
        let n := (2 * (if s then - p else p) + q) / (2 * q) in
        if n =? 0 then S754_zero s else of_Z n
  | _ => x
  end.

(** [Math.pow(10, -d)] for an integer [d]: the number nearest to
    [10 ^ (- d)], and exactly [1] for [d = 0]. ECMA-262 leaves the accuracy
    of [Math.pow] to the engine; this is the correctly rounded result. *)
Definition pow10_neg (d : Z) : number := of_decimal false 1 (- d).

End Num.
(* ===================================================================== *)
(** * Quantizer: [roundPrice] and [roundSize] of [HyperliquidConnector] *)
(* ===================================================================== *)

Module Quantizer.
Import Num.

(** [str.includes('.')] *)
Fixpoint includes_dot (s : string) : bool :=
  match s with
  | String c r => Ascii.eqb c "." || includes_dot r
  | EmptyString => false
  end.

(** [s] is one or more ['0'] and nothing else: [0+$] at the head of [s]. *)
Fixpoint zeros_to_end (s : string) : bool :=
  match s with
  | String c EmptyString => Ascii.eqb c "0"
  | String c r => Ascii.eqb c "0" && zeros_to_end r
  | EmptyString => false
  end.

(** The pattern [\.?0+$] matches at the head of [s]. With the point
    taken, zeros must follow to the end; without it [s] itself must be
    zeros to the end. *)
Definition matches_here (s : string) : bool :=
  match s with
  | String "." r => zeros_to_end r || zeros_to_end s
  | _ => zeros_to_end s
  end.

(** [str.replace(/\.?0+$/, '')]: the leftmost match is removed; it runs to
    the end of the text. *)
Fixpoint strip_trailing_zeros (s : string) : string :=
  if matches_here s then EmptyString
  else
    match s with
    | String c r => String c (strip_trailing_zeros r)
    | EmptyString => EmptyString
    end.

(** The tail of both functions:
    [if (str.includes('.')) str = str.replace(/\.?0+$/, '')]. *)
Definition remove_trailing_zeros (s : string) : string :=
  if includes_dot s then strip_trailing_zeros s else s.

(** [roundPrice(price, szDecimals, isSpot = false)]. [None]: a
    [RangeError] of [toFixed] ([decimalsAllowed] outside [0..100]). *)
Definition roundPrice (price : number) (szDecimals : Z) (isSpot : bool)
  : option string :=
  let MAX_DECIMALS := if isSpot then 8 else 6 in
  let decimalsAllowed := MAX_DECIMALS - szDecimals in
  (* Step 1: Round to 5 significant figures *)
  match toPrecision price 5 with
  | None => None
  | Some s1 =>
      let rounded := parseFloat s1 in
      (* Step 2: Limit to decimalsAllowed decimal places *)
      match toFixed rounded decimalsAllowed with
      | None => None
      | Some s2 =>
          let rounded := parseFloat s2 in
          (* Step 3: Convert to string and remove trailing zeros *)
          let priceStr := toString rounded in
          Some (remove_trailing_zeros priceStr)
      end
  end.

(** [roundSize(size, szDecimals)]. [None]: a [RangeError] of [toFixed]. *)
Definition roundSize (size : number) (szDecimals : Z) : option string :=
  (* Size tick = 10^-szDecimals *)
  let sizeTick := pow10_neg szDecimals in
  (* Round to nearest multiple of sizeTick *)
  let rounded := mul (round (div size sizeTick)) sizeTick in
  (* Format with at most szDecimals decimal places *)
  match toFixed rounded szDecimals with
  | None => None
  | Some sizeStr => Some (remove_trailing_zeros sizeStr)
  end.

(** ** What the specification says of the results *)

(** The number of characters after the first ['.'] of [s] ([0] without
    one). *)
Fixpoint after_dot (s : string) : nat :=
  match s with
  | String c r => if Ascii.eqb c "." then String.length r else after_dot r
  | EmptyString => O
  end.

(** [s] is a plain decimal numeral: an optional [-], digits, and
    optionally a point followed by digits. *)
Definition plain_decimal (s : string) : bool :=
  let u := match s with String "-" r => r | _ => s end in
  let '(ip, r1) := span_digits u in
  match ip, r1 with
  | EmptyString, _ => false
  | _, EmptyString => true
  | _, String "." r =>
      let '(fp, r2) := span_digits r in
      match fp, r2 with
      | String _ _, EmptyString => true
      | _, _ => false
      end
  | _, _ => false
  end.

End Quantizer.
(* ===================================================================== *)
(** * The connector: data *)
(* ===================================================================== *)

(** [class HyperliquidConnector]. The object is driven by callbacks: socket
    events, timers, and calls from strategy code. Each callback runs to
    completion, so the model is a reactive system: a [World] (the fields of
    [this] plus what the runtime holds for it: sockets, armed timers,
    unsettled promises), a function per method or callback, and [step],
    which runs the callback of one input. An [async] method is cut at its
    [await]s into the stretches that run without interruption. *)

Module Connector.
Import Num RateLimiter Quantizer.

(** ** Errors, by the message they are thrown with *)
Inductive error :=
| NotConnected            (* 'Not connected' *)
| NotConnectedWs          (* 'Not connected to WebSocket' *)
| TooManyInflight         (* 'Too many inflight requests' *)
| RateLimited             (* 'Rate limit exceeded' *)
| RequestTimeout          (* 'Request timeout' *)
| ConnectionTimeout       (* 'Connection timeout' *)
| CredentialsRequired     (* 'Wallet and private key required for trading' *)
| SignerUnavailable       (* 'Signer not initialized. Private key required.' *)
| MetaNotLoaded           (* 'Meta cache not loaded. Call getAssetId first.' *)
| SpotMetaNotLoaded       (* 'Spot meta cache not loaded.' *)
| AssetNotFound (coin : string)
    (* 'Asset ... not found in ... meta', 'Spot asset ... not found at
       index ...', 'Base token not found for ...' *)
| NoMarketData (coin : string)
    (* 'No cached orderbook data available for ... to create market order.' *)
| BelowMinimumNotional (notional : number)
    (* 'Order notional ($...) is below minimum ($10). Increase order size.' *)
| HttpError (status : Z)  (* 'HTTP <status>: ...', or a failed fetch *)
| SendFailed              (* the exception thrown by ws.send *)
| VenueError (text : string)  (* a post response of type 'error' *)
| UserRequired            (* 'User address required for clearinghouse state' *)
| RangeError              (* thrown by toFixed / toPrecision *)
| TypeError.              (* a property read on null or undefined *)

(** ** Orderbook data *)

(** A level of a wire frame: [{px, sz, n}]. *)
Record WireLevel := { px : string; sz : string; n : Z }.

(** The argument of [updateOrderbook]: [{coin, levels, time}]. A missing
    [coin] is [""], a missing [levels] is [None], a missing [time] is
    [None]. *)
Record BookData := {
  bd_coin : string;
  bd_levels : option (list (list WireLevel));
  bd_time : option Z
}.

Record Level := { price : number; size : number; numOrders : Z }.

(** An entry of [this.orderbooks]. *)
Record Orderbook := {
  coin : string;
  bestBid : option Level;
  bestAsk : option Level;
  bids : list WireLevel;
  asks : list WireLevel;
  timestamp : Z
}.

(** The result of [getBidAsk]. *)
Record BidAsk := {
  ba_coin : string;
  bid : option number;
  ask : option number;
  bidSize : option number;
  askSize : option number;
  ba_timestamp : Z
}.

(** ** Instrument metadata *)

Record Asset := { name : string; szDecimals : Z }.
Record Token := { tk_index : Z; tk_name : string; tk_szDecimals : Z }.
Record Pair := { tokens : list Z; index : Z; pair_name : string }.
Record Meta := { universe : list Asset }.
Record SpotMeta := { spot_universe : list Pair; spot_tokens : list Token }.

(** The result of [getAssetInfo]: the perp asset itself, or for a spot
    pair [{name, szDecimals, spotCoin}]. *)
Record AssetInfo := {
  ai_name : string;
  ai_szDecimals : Z;
  spotCoin : option string
}.

(** ** Orders *)

(** The [order] object and the action that wraps it
    ([{type: 'order', orders: [order], grouping: 'na'}]). *)
Record Order := {
  a : Z;               (* asset *)
  b : bool;            (* is buy *)
  p : string;          (* limit price *)
  s : string;          (* size *)
  r : bool;            (* reduce only *)
  tif : string;        (* t.limit.tif *)
  c : option string    (* cloid *)
}.

Record Action := { orders : list Order; grouping : string }.

(** What [signAction] returns stands for the [(r, s, v)] computed by the
    signer over the action, the nonce and the vault indicator. *)
Record Signature := {
  sig_action : Action;
  sig_nonce : Z;
  sig_vault : bool
}.

(** [{action, nonce, signature, vaultAddress?}] *)
Record SignedAction := {
  sa_action : Action;
  sa_nonce : Z;
  sa_signature : Signature;
  sa_vaultAddress : option string
}.

(** [options] of [createMarketOrder]. *)
Record OrderOptions := {
  isSpot : bool;
  reduceOnly : bool;
  slippage : option number;
  overrideMidPrice : option number;
  cloid : option string;
  vaultAddress : option string;
  useRest : bool
}.

(** ** Push-channel frames *)

(** The [request] field of an outgoing [{method: 'post', id, request}]. *)
Inductive WsRequest :=
| InfoL2Book (coin : string) (nSigFigs : Z)
| InfoClearinghouseState (user : string)
| ActionRequest (payload : SignedAction).

(** [response.payload] of an incoming post frame. *)
Inductive Payload :=
| PayloadL2Book (data : BookData)    (* {type: 'l2Book', data} *)
| PayloadText (text : string)        (* the payload of an error response *)
| PayloadOther.

(** [response] of an incoming post frame: [{type, payload}]. *)
Record Response := { rtype : string; payload : Payload }.

(** An incoming frame, after [JSON.parse]. *)
Inductive Message :=
| SubscriptionResponse
| Post (id : Z) (response : option Response)
    (* channel 'post', data {id, response}; [None]: no response field *)
| L2BookUpdate (data : BookData)     (* channel 'l2Book' *)
| Unhandled.                         (* any other channel, or text that
                                        does not parse *)

(** ** Promises *)

(** Who awaits the promise of a push-channel request: the rest of
    [subscribeOrderbook], or code outside the connector. *)
Inductive Waiter :=
| SubscribeOrderbook (coin : string)
| Caller.

(** An entry of [this.pendingRequests]: [{resolve, reject, timeout}]. The
    two callbacks settle the promise of the request the entry is keyed by
    and resume its [waiter]; [timeout] is the handle of its timer. *)
Record PendingRequest := { waiter : Waiter; timeout : Z }.

(** Who awaits the promise of a [connect()] call. *)
Inductive ConnectOrigin :=
| ByReconnect            (* the timer callback of [handleReconnect] *)
| ByCaller.

(** ** Sockets *)
Inductive ReadyState := CONNECTING | OPEN | CLOSING | CLOSED.

(** ** The fields of [this] *)

(** Fields the constructor sets and nothing changes afterwards. *)
Record Config := {
  wallet : option string;
  signer : bool;                 (* a private key was configured *)
  maxReconnectAttempts : Z;
  reconnectDelay : Z;
  maxReconnectDelay : Z;
  pingInterval : Z;
  pongTimeout : Z;
  stalenessThreshold : Z;
  maxInflightRequests : Z
}.

Record Connector := {
  config : Config;
  ws : option nat;               (* the socket [this.ws] refers to *)
  connected : bool;
  reconnecting : bool;
  intentionalDisconnect : bool;
  reconnectAttempts : Z;
  pingTimer : bool;              (* the interval is set *)
  pongTimer : bool;              (* holds the handle of a pong timeout *)
  connectionTimeout : option nat;
  lastPongReceived : Z;
  useRestFallback : bool;
  restPollTimer : option bool;   (* set, with the [temporary] it closes over *)
  stalenessTimer : bool;
  restRefreshTimer : bool;
  orderbooks : gmap string Orderbook;
  requestId : Z;
  pendingRequests : gmap Z PendingRequest;
  subscriptions : list string;
  wsRateLimiter : SlidingWindowRateLimiter;
  restRateLimiter : SlidingWindowRateLimiter;
  metaCache : option Meta;
  spotMetaCache : option SpotMeta
}.

(** The connector and what the runtime holds for it. *)
Record World := {
  this : Connector;
  sockets : list ReadyState;         (* every socket created, by number *)
  connectPromises : gmap nat ConnectOrigin;
                                     (* unsettled promises of [connect()],
                                        by the socket the call created *)
  connectionTimers : gset nat;       (* armed connection timeouts *)
  reconnectTimers : nat;             (* armed timers of [handleReconnect] *)
  pongTimers : nat;                  (* armed pong timeouts *)
  requestTimeouts : gmap Z Z         (* armed request timeouts, each with
                                        the clock reading it is due at *)
}.

(** The handles of the armed request timeouts. *)
Definition requestTimers (w : World) : gset Z := dom (requestTimeouts w).

(** ** What the connector does to the outside *)
Inductive Output :=
| Emitted (event : string)                   (* this.emit(event, ...) *)
| SocketCreated (k : nat)                    (* new WebSocket(this.wsUrl) *)
| SocketClosing (k : nat)                    (* ws.close(), ws.terminate() *)
| WsSent (k : nat) (id : Z) (request : WsRequest)  (* ws.send(...) *)
| PingSent (k : nat)                         (* ws.ping() *)
| InfoPosted (req : string) (coin : string)  (* fetch(this.restUrl, ...) *)
| ExchangePosted (payload : SignedAction)    (* fetch(this.exchangeUrl, ...) *)
| Signed (action : Action) (nonce : Z)       (* signer.signTypedData(...) *)
| Settled (id : Z) (result : Payload + error)
    (* resolve / reject of the promise of request [id] *)
| ConnectSettled (k : nat) (failure : option error)
    (* resolve / reject of the promise of the [connect()] that made [k] *)
| ReconnectScheduled (delay : Z).            (* setTimeout(..., delay) *)

(** ** Field updates *)

Definition set_config (v : Config) (o : Connector) : Connector :=
  {| config := v; ws := ws o; connected := connected o; reconnecting :=
     reconnecting o; intentionalDisconnect := intentionalDisconnect o;
     reconnectAttempts := reconnectAttempts o; pingTimer := pingTimer o;
     pongTimer := pongTimer o; connectionTimeout := connectionTimeout o;
     lastPongReceived := lastPongReceived o; useRestFallback :=
     useRestFallback o; restPollTimer := restPollTimer o; stalenessTimer
     := stalenessTimer o; restRefreshTimer := restRefreshTimer o;
     orderbooks := orderbooks o; requestId := requestId o; pendingRequests
     := pendingRequests o; subscriptions := subscriptions o; wsRateLimiter
     := wsRateLimiter o; restRateLimiter := restRateLimiter o; metaCache
     := metaCache o; spotMetaCache := spotMetaCache o |}.

Definition set_ws (v : option nat) (o : Connector) : Connector :=
  {| config := config o; ws := v; connected := connected o; reconnecting
     := reconnecting o; intentionalDisconnect := intentionalDisconnect o;
     reconnectAttempts := reconnectAttempts o; pingTimer := pingTimer o;
     pongTimer := pongTimer o; connectionTimeout := connectionTimeout o;
     lastPongReceived := lastPongReceived o; useRestFallback :=
     useRestFallback o; restPollTimer := restPollTimer o; stalenessTimer
     := stalenessTimer o; restRefreshTimer := restRefreshTimer o;
     orderbooks := orderbooks o; requestId := requestId o; pendingRequests
     := pendingRequests o; subscriptions := subscriptions o; wsRateLimiter
     := wsRateLimiter o; restRateLimiter := restRateLimiter o; metaCache
     := metaCache o; spotMetaCache := spotMetaCache o |}.

Definition set_connected (v : bool) (o : Connector) : Connector :=
  {| config := config o; ws := ws o; connected := v; reconnecting :=
     reconnecting o; intentionalDisconnect := intentionalDisconnect o;
     reconnectAttempts := reconnectAttempts o; pingTimer := pingTimer o;
     pongTimer := pongTimer o; connectionTimeout := connectionTimeout o;
     lastPongReceived := lastPongReceived o; useRestFallback :=
     useRestFallback o; restPollTimer := restPollTimer o; stalenessTimer
     := stalenessTimer o; restRefreshTimer := restRefreshTimer o;
     orderbooks := orderbooks o; requestId := requestId o; pendingRequests
     := pendingRequests o; subscriptions := subscriptions o; wsRateLimiter
     := wsRateLimiter o; restRateLimiter := restRateLimiter o; metaCache
     := metaCache o; spotMetaCache := spotMetaCache o |}.

Definition set_reconnecting (v : bool) (o : Connector) : Connector :=
  {| config := config o; ws := ws o; connected := connected o;
     reconnecting := v; intentionalDisconnect := intentionalDisconnect o;
     reconnectAttempts := reconnectAttempts o; pingTimer := pingTimer o;
     pongTimer := pongTimer o; connectionTimeout := connectionTimeout o;
     lastPongReceived := lastPongReceived o; useRestFallback :=
     useRestFallback o; restPollTimer := restPollTimer o; stalenessTimer
     := stalenessTimer o; restRefreshTimer := restRefreshTimer o;
     orderbooks := orderbooks o; requestId := requestId o; pendingRequests
     := pendingRequests o; subscriptions := subscriptions o; wsRateLimiter
     := wsRateLimiter o; restRateLimiter := restRateLimiter o; metaCache
     := metaCache o; spotMetaCache := spotMetaCache o |}.

Definition set_intentionalDisconnect (v : bool) (o : Connector) : Connector :=
  {| config := config o; ws := ws o; connected := connected o;
     reconnecting := reconnecting o; intentionalDisconnect := v;
     reconnectAttempts := reconnectAttempts o; pingTimer := pingTimer o;
     pongTimer := pongTimer o; connectionTimeout := connectionTimeout o;
     lastPongReceived := lastPongReceived o; useRestFallback :=
     useRestFallback o; restPollTimer := restPollTimer o; stalenessTimer
     := stalenessTimer o; restRefreshTimer := restRefreshTimer o;
     orderbooks := orderbooks o; requestId := requestId o; pendingRequests
     := pendingRequests o; subscriptions := subscriptions o; wsRateLimiter
     := wsRateLimiter o; restRateLimiter := restRateLimiter o; metaCache
     := metaCache o; spotMetaCache := spotMetaCache o |}.

Definition set_reconnectAttempts (v : Z) (o : Connector) : Connector :=
  {| config := config o; ws := ws o; connected := connected o;
     reconnecting := reconnecting o; intentionalDisconnect :=
     intentionalDisconnect o; reconnectAttempts := v; pingTimer :=
     pingTimer o; pongTimer := pongTimer o; connectionTimeout :=
     connectionTimeout o; lastPongReceived := lastPongReceived o;
     useRestFallback := useRestFallback o; restPollTimer := restPollTimer
     o; stalenessTimer := stalenessTimer o; restRefreshTimer :=
     restRefreshTimer o; orderbooks := orderbooks o; requestId :=
     requestId o; pendingRequests := pendingRequests o; subscriptions :=
     subscriptions o; wsRateLimiter := wsRateLimiter o; restRateLimiter :=
     restRateLimiter o; metaCache := metaCache o; spotMetaCache :=
     spotMetaCache o |}.

Definition set_pingTimer (v : bool) (o : Connector) : Connector :=
  {| config := config o; ws := ws o; connected := connected o;
     reconnecting := reconnecting o; intentionalDisconnect :=
     intentionalDisconnect o; reconnectAttempts := reconnectAttempts o;
     pingTimer := v; pongTimer := pongTimer o; connectionTimeout :=
     connectionTimeout o; lastPongReceived := lastPongReceived o;
     useRestFallback := useRestFallback o; restPollTimer := restPollTimer
     o; stalenessTimer := stalenessTimer o; restRefreshTimer :=
     restRefreshTimer o; orderbooks := orderbooks o; requestId :=
     requestId o; pendingRequests := pendingRequests o; subscriptions :=
     subscriptions o; wsRateLimiter := wsRateLimiter o; restRateLimiter :=
     restRateLimiter o; metaCache := metaCache o; spotMetaCache :=
     spotMetaCache o |}.

Definition set_pongTimer (v : bool) (o : Connector) : Connector :=
  {| config := config o; ws := ws o; connected := connected o;
     reconnecting := reconnecting o; intentionalDisconnect :=
     intentionalDisconnect o; reconnectAttempts := reconnectAttempts o;
     pingTimer := pingTimer o; pongTimer := v; connectionTimeout :=
     connectionTimeout o; lastPongReceived := lastPongReceived o;
     useRestFallback := useRestFallback o; restPollTimer := restPollTimer
     o; stalenessTimer := stalenessTimer o; restRefreshTimer :=
     restRefreshTimer o; orderbooks := orderbooks o; requestId :=
     requestId o; pendingRequests := pendingRequests o; subscriptions :=
     subscriptions o; wsRateLimiter := wsRateLimiter o; restRateLimiter :=
     restRateLimiter o; metaCache := metaCache o; spotMetaCache :=
     spotMetaCache o |}.

Definition set_connectionTimeout (v : option nat) (o : Connector) : Connector :=
  {| config := config o; ws := ws o; connected := connected o;
     reconnecting := reconnecting o; intentionalDisconnect :=
     intentionalDisconnect o; reconnectAttempts := reconnectAttempts o;
     pingTimer := pingTimer o; pongTimer := pongTimer o; connectionTimeout
     := v; lastPongReceived := lastPongReceived o; useRestFallback :=
     useRestFallback o; restPollTimer := restPollTimer o; stalenessTimer
     := stalenessTimer o; restRefreshTimer := restRefreshTimer o;
     orderbooks := orderbooks o; requestId := requestId o; pendingRequests
     := pendingRequests o; subscriptions := subscriptions o; wsRateLimiter
     := wsRateLimiter o; restRateLimiter := restRateLimiter o; metaCache
     := metaCache o; spotMetaCache := spotMetaCache o |}.

Definition set_lastPongReceived (v : Z) (o : Connector) : Connector :=
  {| config := config o; ws := ws o; connected := connected o;
     reconnecting := reconnecting o; intentionalDisconnect :=
     intentionalDisconnect o; reconnectAttempts := reconnectAttempts o;
     pingTimer := pingTimer o; pongTimer := pongTimer o; connectionTimeout
     := connectionTimeout o; lastPongReceived := v; useRestFallback :=
     useRestFallback o; restPollTimer := restPollTimer o; stalenessTimer
     := stalenessTimer o; restRefreshTimer := restRefreshTimer o;
     orderbooks := orderbooks o; requestId := requestId o; pendingRequests
     := pendingRequests o; subscriptions := subscriptions o; wsRateLimiter
     := wsRateLimiter o; restRateLimiter := restRateLimiter o; metaCache
     := metaCache o; spotMetaCache := spotMetaCache o |}.

Definition set_useRestFallback (v : bool) (o : Connector) : Connector :=
  {| config := config o; ws := ws o; connected := connected o;
     reconnecting := reconnecting o; intentionalDisconnect :=
     intentionalDisconnect o; reconnectAttempts := reconnectAttempts o;
     pingTimer := pingTimer o; pongTimer := pongTimer o; connectionTimeout
     := connectionTimeout o; lastPongReceived := lastPongReceived o;
     useRestFallback := v; restPollTimer := restPollTimer o;
     stalenessTimer := stalenessTimer o; restRefreshTimer :=
     restRefreshTimer o; orderbooks := orderbooks o; requestId :=
     requestId o; pendingRequests := pendingRequests o; subscriptions :=
     subscriptions o; wsRateLimiter := wsRateLimiter o; restRateLimiter :=
     restRateLimiter o; metaCache := metaCache o; spotMetaCache :=
     spotMetaCache o |}.

Definition set_restPollTimer (v : option bool) (o : Connector) : Connector :=
  {| config := config o; ws := ws o; connected := connected o;
     reconnecting := reconnecting o; intentionalDisconnect :=
     intentionalDisconnect o; reconnectAttempts := reconnectAttempts o;
     pingTimer := pingTimer o; pongTimer := pongTimer o; connectionTimeout
     := connectionTimeout o; lastPongReceived := lastPongReceived o;
     useRestFallback := useRestFallback o; restPollTimer := v;
     stalenessTimer := stalenessTimer o; restRefreshTimer :=
     restRefreshTimer o; orderbooks := orderbooks o; requestId :=
     requestId o; pendingRequests := pendingRequests o; subscriptions :=
     subscriptions o; wsRateLimiter := wsRateLimiter o; restRateLimiter :=
     restRateLimiter o; metaCache := metaCache o; spotMetaCache :=
     spotMetaCache o |}.

Definition set_stalenessTimer (v : bool) (o : Connector) : Connector :=
  {| config := config o; ws := ws o; connected := connected o;
     reconnecting := reconnecting o; intentionalDisconnect :=
     intentionalDisconnect o; reconnectAttempts := reconnectAttempts o;
     pingTimer := pingTimer o; pongTimer := pongTimer o; connectionTimeout
     := connectionTimeout o; lastPongReceived := lastPongReceived o;
     useRestFallback := useRestFallback o; restPollTimer := restPollTimer
     o; stalenessTimer := v; restRefreshTimer := restRefreshTimer o;
     orderbooks := orderbooks o; requestId := requestId o; pendingRequests
     := pendingRequests o; subscriptions := subscriptions o; wsRateLimiter
     := wsRateLimiter o; restRateLimiter := restRateLimiter o; metaCache
     := metaCache o; spotMetaCache := spotMetaCache o |}.

Definition set_restRefreshTimer (v : bool) (o : Connector) : Connector :=
  {| config := config o; ws := ws o; connected := connected o;
     reconnecting := reconnecting o; intentionalDisconnect :=
     intentionalDisconnect o; reconnectAttempts := reconnectAttempts o;
     pingTimer := pingTimer o; pongTimer := pongTimer o; connectionTimeout
     := connectionTimeout o; lastPongReceived := lastPongReceived o;
     useRestFallback := useRestFallback o; restPollTimer := restPollTimer
     o; stalenessTimer := stalenessTimer o; restRefreshTimer := v;
     orderbooks := orderbooks o; requestId := requestId o; pendingRequests
     := pendingRequests o; subscriptions := subscriptions o; wsRateLimiter
     := wsRateLimiter o; restRateLimiter := restRateLimiter o; metaCache
     := metaCache o; spotMetaCache := spotMetaCache o |}.

Definition set_orderbooks (v : gmap string Orderbook) (o : Connector) : Connector :=
  {| config := config o; ws := ws o; connected := connected o;
     reconnecting := reconnecting o; intentionalDisconnect :=
     intentionalDisconnect o; reconnectAttempts := reconnectAttempts o;
     pingTimer := pingTimer o; pongTimer := pongTimer o; connectionTimeout
     := connectionTimeout o; lastPongReceived := lastPongReceived o;
     useRestFallback := useRestFallback o; restPollTimer := restPollTimer
     o; stalenessTimer := stalenessTimer o; restRefreshTimer :=
     restRefreshTimer o; orderbooks := v; requestId := requestId o;
     pendingRequests := pendingRequests o; subscriptions := subscriptions
     o; wsRateLimiter := wsRateLimiter o; restRateLimiter :=
     restRateLimiter o; metaCache := metaCache o; spotMetaCache :=
     spotMetaCache o |}.

Definition set_requestId (v : Z) (o : Connector) : Connector :=
  {| config := config o; ws := ws o; connected := connected o;
     reconnecting := reconnecting o; intentionalDisconnect :=
     intentionalDisconnect o; reconnectAttempts := reconnectAttempts o;
     pingTimer := pingTimer o; pongTimer := pongTimer o; connectionTimeout
     := connectionTimeout o; lastPongReceived := lastPongReceived o;
     useRestFallback := useRestFallback o; restPollTimer := restPollTimer
     o; stalenessTimer := stalenessTimer o; restRefreshTimer :=
     restRefreshTimer o; orderbooks := orderbooks o; requestId := v;
     pendingRequests := pendingRequests o; subscriptions := subscriptions
     o; wsRateLimiter := wsRateLimiter o; restRateLimiter :=
     restRateLimiter o; metaCache := metaCache o; spotMetaCache :=
     spotMetaCache o |}.

Definition set_pendingRequests (v : gmap Z PendingRequest) (o : Connector) : Connector :=
  {| config := config o; ws := ws o; connected := connected o;
     reconnecting := reconnecting o; intentionalDisconnect :=
     intentionalDisconnect o; reconnectAttempts := reconnectAttempts o;
     pingTimer := pingTimer o; pongTimer := pongTimer o; connectionTimeout
     := connectionTimeout o; lastPongReceived := lastPongReceived o;
     useRestFallback := useRestFallback o; restPollTimer := restPollTimer
     o; stalenessTimer := stalenessTimer o; restRefreshTimer :=
     restRefreshTimer o; orderbooks := orderbooks o; requestId :=
     requestId o; pendingRequests := v; subscriptions := subscriptions o;
     wsRateLimiter := wsRateLimiter o; restRateLimiter := restRateLimiter
     o; metaCache := metaCache o; spotMetaCache := spotMetaCache o |}.

Definition set_subscriptions (v : list string) (o : Connector) : Connector :=
  {| config := config o; ws := ws o; connected := connected o;
     reconnecting := reconnecting o; intentionalDisconnect :=
     intentionalDisconnect o; reconnectAttempts := reconnectAttempts o;
     pingTimer := pingTimer o; pongTimer := pongTimer o; connectionTimeout
     := connectionTimeout o; lastPongReceived := lastPongReceived o;
     useRestFallback := useRestFallback o; restPollTimer := restPollTimer
     o; stalenessTimer := stalenessTimer o; restRefreshTimer :=
     restRefreshTimer o; orderbooks := orderbooks o; requestId :=
     requestId o; pendingRequests := pendingRequests o; subscriptions :=
     v; wsRateLimiter := wsRateLimiter o; restRateLimiter :=
     restRateLimiter o; metaCache := metaCache o; spotMetaCache :=
     spotMetaCache o |}.

Definition set_wsRateLimiter (v : SlidingWindowRateLimiter) (o : Connector) : Connector :=
  {| config := config o; ws := ws o; connected := connected o;
     reconnecting := reconnecting o; intentionalDisconnect :=
     intentionalDisconnect o; reconnectAttempts := reconnectAttempts o;
     pingTimer := pingTimer o; pongTimer := pongTimer o; connectionTimeout
     := connectionTimeout o; lastPongReceived := lastPongReceived o;
     useRestFallback := useRestFallback o; restPollTimer := restPollTimer
     o; stalenessTimer := stalenessTimer o; restRefreshTimer :=
     restRefreshTimer o; orderbooks := orderbooks o; requestId :=
     requestId o; pendingRequests := pendingRequests o; subscriptions :=
     subscriptions o; wsRateLimiter := v; restRateLimiter :=
     restRateLimiter o; metaCache := metaCache o; spotMetaCache :=
     spotMetaCache o |}.

Definition set_restRateLimiter (v : SlidingWindowRateLimiter) (o : Connector) : Connector :=
  {| config := config o; ws := ws o; connected := connected o;
     reconnecting := reconnecting o; intentionalDisconnect :=
     intentionalDisconnect o; reconnectAttempts := reconnectAttempts o;
     pingTimer := pingTimer o; pongTimer := pongTimer o; connectionTimeout
     := connectionTimeout o; lastPongReceived := lastPongReceived o;
     useRestFallback := useRestFallback o; restPollTimer := restPollTimer
     o; stalenessTimer := stalenessTimer o; restRefreshTimer :=
     restRefreshTimer o; orderbooks := orderbooks o; requestId :=
     requestId o; pendingRequests := pendingRequests o; subscriptions :=
     subscriptions o; wsRateLimiter := wsRateLimiter o; restRateLimiter :=
     v; metaCache := metaCache o; spotMetaCache := spotMetaCache o |}.

Definition set_metaCache (v : option Meta) (o : Connector) : Connector :=
  {| config := config o; ws := ws o; connected := connected o;
     reconnecting := reconnecting o; intentionalDisconnect :=
     intentionalDisconnect o; reconnectAttempts := reconnectAttempts o;
     pingTimer := pingTimer o; pongTimer := pongTimer o; connectionTimeout
     := connectionTimeout o; lastPongReceived := lastPongReceived o;
     useRestFallback := useRestFallback o; restPollTimer := restPollTimer
     o; stalenessTimer := stalenessTimer o; restRefreshTimer :=
     restRefreshTimer o; orderbooks := orderbooks o; requestId :=
     requestId o; pendingRequests := pendingRequests o; subscriptions :=
     subscriptions o; wsRateLimiter := wsRateLimiter o; restRateLimiter :=
     restRateLimiter o; metaCache := v; spotMetaCache := spotMetaCache o
     |}.

Definition set_spotMetaCache (v : option SpotMeta) (o : Connector) : Connector :=
  {| config := config o; ws := ws o; connected := connected o;
     reconnecting := reconnecting o; intentionalDisconnect :=
     intentionalDisconnect o; reconnectAttempts := reconnectAttempts o;
     pingTimer := pingTimer o; pongTimer := pongTimer o; connectionTimeout
     := connectionTimeout o; lastPongReceived := lastPongReceived o;
     useRestFallback := useRestFallback o; restPollTimer := restPollTimer
     o; stalenessTimer := stalenessTimer o; restRefreshTimer :=
     restRefreshTimer o; orderbooks := orderbooks o; requestId :=
     requestId o; pendingRequests := pendingRequests o; subscriptions :=
     subscriptions o; wsRateLimiter := wsRateLimiter o; restRateLimiter :=
     restRateLimiter o; metaCache := metaCache o; spotMetaCache := v |}.

Definition set_this (v : Connector) (w : World) : World :=
  {| this := v; sockets := sockets w; connectPromises := connectPromises
     w; connectionTimers := connectionTimers w; reconnectTimers :=
     reconnectTimers w; pongTimers := pongTimers w; requestTimeouts :=
     requestTimeouts w |}.

Definition set_sockets (v : list ReadyState) (w : World) : World :=
  {| this := this w; sockets := v; connectPromises := connectPromises w;
     connectionTimers := connectionTimers w; reconnectTimers :=
     reconnectTimers w; pongTimers := pongTimers w; requestTimeouts :=
     requestTimeouts w |}.

Definition set_connectPromises (v : gmap nat ConnectOrigin) (w : World) : World :=
  {| this := this w; sockets := sockets w; connectPromises := v;
     connectionTimers := connectionTimers w; reconnectTimers :=
     reconnectTimers w; pongTimers := pongTimers w; requestTimeouts :=
     requestTimeouts w |}.

Definition set_connectionTimers (v : gset nat) (w : World) : World :=
  {| this := this w; sockets := sockets w; connectPromises :=
     connectPromises w; connectionTimers := v; reconnectTimers :=
     reconnectTimers w; pongTimers := pongTimers w; requestTimeouts :=
     requestTimeouts w |}.

Definition set_reconnectTimers (v : nat) (w : World) : World :=
  {| this := this w; sockets := sockets w; connectPromises :=
     connectPromises w; connectionTimers := connectionTimers w;
     reconnectTimers := v; pongTimers := pongTimers w; requestTimeouts :=
     requestTimeouts w |}.

Definition set_pongTimers (v : nat) (w : World) : World :=
  {| this := this w; sockets := sockets w; connectPromises :=
     connectPromises w; connectionTimers := connectionTimers w;
     reconnectTimers := reconnectTimers w; pongTimers := v;
     requestTimeouts := requestTimeouts w |}.

Definition set_requestTimeouts (v : gmap Z Z) (w : World) : World :=
  {| this := this w; sockets := sockets w; connectPromises :=
     connectPromises w; connectionTimers := connectionTimers w;
     reconnectTimers := reconnectTimers w; pongTimers := pongTimers w;
     requestTimeouts := v |}.

(** An assignment to a field of [this]. *)
Definition upd (f : Connector -> Connector) (w : World) : World :=
  set_this (f (this w)) w.

(** ** Callbacks as state transformers *)

(** A stretch of code that runs without interruption: it returns or
    throws, changes the world, and does things to the outside. *)
Inductive result (A : Type) :=
| Ok (v : A)
| Throw (e : error).
Arguments Ok {A} v.
Arguments Throw {A} e.

Definition M (A : Type) : Type := World -> result A * World * list Output.

Definition ret {A} (v : A) : M A := fun w => (Ok v, w, []).
Definition throw {A} (e : error) : M A := fun w => (Throw e, w, []).
Definition bind {A B} (m : M A) (k : A -> M B) : M B :=
  fun w =>
    match m w with
    | (Ok v, w1, out1) =>
        let '(res, w2, out2) := k v w1 in (res, w2, out1 ++ out2)
    | (Throw e, w1, out1) => (Throw e, w1, out1)
    end.

(** [try { m } catch (error) { handler(error) }] *)
Definition try_catch {A} (m : M A) (handler : error -> M A) : M A :=
  fun w =>
    match m w with
    | (Ok v, w1, out1) => (Ok v, w1, out1)
    | (Throw e, w1, out1) =>
        let '(res, w2, out2) := handler e w1 in (res, w2, out1 ++ out2)
    end.

Definition get : M World := fun w => (Ok w, w, []).
Definition modify (f : World -> World) : M unit := fun w => (Ok tt, f w, []).
Definition assign (f : Connector -> Connector) : M unit := modify (upd f).
Definition tell (o : Output) : M unit := fun w => (Ok tt, w, [o]).
Definition when (cond : bool) (m : M unit) : M unit := if cond then m else ret tt.

Notation "x <- m ;; k" := (bind m (fun x => k))
  (at level 63, m at next level, right associativity, only parsing).
Notation "m ;;; k" := (bind m (fun _ => k))
  (at level 63, right associativity, only parsing).

(** A timer handle or an object reference is set (truthy). *)
Definition isSet {A} (x : option A) : bool :=
  match x with Some _ => true | None => false end.

(** Runs a callback; an exception that escapes it is lost. *)
Definition exec {A} (m : M A) (w : World) : World * list Output :=
  let '(_, w', out) := m w in (w', out).

Fixpoint for_each {A} (xs : list A) (body : A -> M unit) : M unit :=
  match xs with
  | [] => ret tt
  | x :: rest => body x ;;; for_each rest body
  end.

(** ** The constructor *)

(** [options] of the constructor, for the fields the model keeps. *)
Record Options := {
  opt_wallet : option string;
  opt_privateKey : option string;
  opt_maxReconnectAttempts : option Z;
  opt_reconnectDelay : option Z;
  opt_maxReconnectDelay : option Z;
  opt_pingInterval : option Z;
  opt_pongTimeout : option Z;
  opt_stalenessThreshold : option Z;
  opt_maxInflightRequests : option Z
}.

(** [now] is the [Date.now()] that initialises [lastPongReceived]. An
    empty string is falsy, like a missing option. *)
Definition constructor (options : Options) (now : Z) : Connector :=
  {| config :=
       {| wallet := match opt_wallet options with
                    | Some EmptyString => None
                    | x => x
                    end;
          signer := match opt_privateKey options with
                    | Some (String _ _) => true
                    | _ => false
                    end;
          maxReconnectAttempts := or_default (opt_maxReconnectAttempts options) 10;
          reconnectDelay := or_default (opt_reconnectDelay options) 1000;
          maxReconnectDelay := or_default (opt_maxReconnectDelay options) 30000;
          pingInterval := or_default (opt_pingInterval options) 30000;
          pongTimeout := or_default (opt_pongTimeout options) 10000;
          stalenessThreshold := or_default (opt_stalenessThreshold options) 60000;
          maxInflightRequests := or_default (opt_maxInflightRequests options) 90 |};
     ws := None;
     connected := false;
     reconnecting := false;
     intentionalDisconnect := false;
     reconnectAttempts := 0;
     pingTimer := false;
     pongTimer := false;
     connectionTimeout := None;
     lastPongReceived := now;
     useRestFallback := false;
     restPollTimer := None;
     stalenessTimer := false;
     restRefreshTimer := false;
     orderbooks := ∅;
     requestId := 0;
     pendingRequests := ∅;
     subscriptions := [];
     wsRateLimiter := RateLimiter.constructor (Some 1800) (Some 60000);
     restRateLimiter := RateLimiter.constructor (Some 600) (Some 60000);
     metaCache := None;
     spotMetaCache := None |}.

(** The world right after [new HyperliquidConnector(options)]. *)
Definition boot (options : Options) (now : Z) : World :=
  {| this := constructor options now;
     sockets := [];
     connectPromises := ∅;
     connectionTimers := ∅;
     reconnectTimers := 0;
     pongTimers := 0;
     requestTimeouts := ∅ |}.

(** ** Sockets *)

(** [ws.close()] and [ws.terminate()] on socket [k]: a socket that is
    not closed yet starts closing and will report ['close']. *)
Definition socket_shutdown (k : nat) : M unit :=
  w <- get ;;
  match sockets w !! k with
  | Some CONNECTING | Some OPEN =>
      modify (set_sockets (<[k := CLOSING]> (sockets w))) ;;;
      tell (SocketClosing k)
  | _ => ret tt
  end.

(** [if (this.ws) this.ws.terminate()] *)
Definition terminate_ws : M unit :=
  w <- get ;;
  match ws (this w) with
  | Some k => socket_shutdown k
  | None => ret tt
  end.

(** [this.ws.send(JSON.stringify(request))]: on an open socket the frame
    goes out; a socket still connecting throws; a socket that is closing
    or closed drops the frame; [this.ws] may be [null]. *)
Definition ws_send (id : Z) (request : WsRequest) : M unit :=
  w <- get ;;
  match ws (this w) with
  | None => throw TypeError
  | Some k =>
      match sockets w !! k with
      | Some OPEN => tell (WsSent k id request)
      | Some CONNECTING => throw SendFailed
      | _ => ret tt
      end
  end.

(** ** Orderbook cache *)

Definition level_of (l : WireLevel) : Level :=
  {| price := parseFloat (px l); size := parseFloat (sz l); numOrders := n l |}.

(** [updateOrderbook(data)]; [now] is [Date.now()]. *)
Definition updateOrderbook (now : Z) (data : BookData) : M unit :=
  match bd_coin data, bd_levels data with
  | String _ _ as coin, Some (bids :: asks :: _) =>
      let orderbook :=
        {| coin := coin;
           bestBid := option_map level_of (List.head bids);
           bestAsk := option_map level_of (List.head asks);
           bids := bids;
           asks := asks;
           timestamp := match bd_time data with
                        | Some time => if time =? 0 then now else time
                        | None => now
                        end |} in
      assign (fun o => set_orderbooks (<[coin := orderbook]> (orderbooks o)) o) ;;;
      tell (Emitted "orderbook")
  | _, _ => ret tt
  end.

(** [x || null] on a number. *)
Definition or_null (x : option number) : option number :=
  match x with
  | Some v => if truthy v then Some v else None
  | None => None
  end.

(** [getBidAsk(coin)] *)
Definition getBidAsk (coin : string) (o : Connector) : option BidAsk :=
  match orderbooks o !! coin with
  | None => None
  | Some orderbook =>
      Some {| ba_coin := coin;
              bid := or_null (option_map price (bestBid orderbook));
              ask := or_null (option_map price (bestAsk orderbook));
              bidSize := or_null (option_map size (bestBid orderbook));
              askSize := or_null (option_map size (bestAsk orderbook));
              ba_timestamp := timestamp orderbook |}
  end.

(** ** Polling timers *)

(** [startRestPolling(temporary = false)] *)
Definition startRestPolling (temporary : bool) : M unit :=
  w <- get ;;
  match restPollTimer (this w) with
  | Some _ => ret tt
  | None => assign (set_restPollTimer (Some temporary))
  end.

(** [stopRestPolling()] *)
Definition stopRestPolling : M unit := assign (set_restPollTimer None).

(** [startPeriodicRestRefresh()], [stopPeriodicRestRefresh()] *)
Definition startPeriodicRestRefresh : M unit := assign (set_restRefreshTimer true).
Definition stopPeriodicRestRefresh : M unit := assign (set_restRefreshTimer false).

(** [startStalenessMonitoring()], [stopStalenessMonitoring()] *)
Definition startStalenessMonitoring : M unit := assign (set_stalenessTimer true).
Definition stopStalenessMonitoring : M unit := assign (set_stalenessTimer false).

(** The test of the staleness callback on one subscribed coin: a coin
    without a cached orderbook is skipped ([continue]). *)
Definition stale (now : Z) (o : Connector) (coin : string) : bool :=
  match orderbooks o !! coin with
  | None => false
  | Some orderbook => now - timestamp orderbook >? stalenessThreshold (config o)
  end.

(** [anyStale] at the end of the loop over [this.subscriptions]. *)
Definition anyStale (now : Z) (o : Connector) : bool :=
  existsb (stale now o) (subscriptions o).

(** The interval callback of [startStalenessMonitoring] (every 10 s). *)
Definition stalenessCheck (now : Z) : M unit :=
  w <- get ;;
  let o := this w in
  if negb (connected o) || useRestFallback o then ret tt
  else
    let anyStale := anyStale now o in
    when (anyStale && negb (isSet (restPollTimer o)))
         (startRestPolling true) ;;;
    w' <- get ;;
    let o' := this w' in
    when (negb anyStale && isSet (restPollTimer o')
          && negb (useRestFallback o'))
         stopRestPolling.

(** ** Request correlator *)

(** The rest of [subscribeOrderbook] after its [await]. *)
Definition subscribeOrderbook_rest : M unit :=
  w <- get ;;
  (* Start staleness monitoring if not already running *)
  when (negb (stalenessTimer (this w))) startStalenessMonitoring ;;;
  (* Start periodic REST refresh if this is the first subscription *)
  w' <- get ;;
  when ((List.length (subscriptions (this w')) =? 1)%nat
        && negb (restRefreshTimer (this w')))
       startPeriodicRestRefresh.

(** The code that a settled request promise resumes. *)
Definition resume (wt : Waiter) : M unit :=
  match wt with
  | SubscribeOrderbook _ => subscribeOrderbook_rest
  | Caller => ret tt
  end.

(** [clearTimeout(handle)] for a request timer. *)
Definition clearRequestTimeout (handle : Z) : M unit :=
  modify (fun w => set_requestTimeouts (delete handle (requestTimeouts w)) w).

(** Registers a request and puts it on the socket: what the [Promise]
    executors of [requestL2Book], [requestClearinghouseStateWs] and
    [createOrderWebSocket] do from [const id = ++this.requestId] on.
    Returns the id when the promise is left pending; throws when the
    promise ends rejected. [now] is the clock when the timeout is set:
    [setTimeout(..., 10000)]. *)
Definition post (now : Z) (wt : Waiter) (request : WsRequest) : M Z :=
  w <- get ;;
  let id := requestId (this w) + 1 in
  assign (set_requestId id) ;;;
  (* Store pending request with timeout *)
  modify (fun w => set_requestTimeouts
                     (<[id := now + 10000]> (requestTimeouts w)) w) ;;;
  assign (fun o => set_pendingRequests
                     (<[id := {| waiter := wt; timeout := id |}]> (pendingRequests o)) o) ;;;
  (* Send request *)
  try_catch (ws_send id request ;;; ret id)
    (fun error =>
       w' <- get ;;
       match pendingRequests (this w') !! id with
       | Some pending =>
           clearRequestTimeout (timeout pending) ;;;
           assign (fun o => set_pendingRequests (delete id (pendingRequests o)) o)
       | None => ret tt
       end ;;;
       tell (Settled id (inr error)) ;;;
       throw error).

(** The callback of the request timer of [id] (10 s after the send). *)
Definition requestTimeout (id : Z) : M unit :=
  w <- get ;;
  match pendingRequests (this w) !! id with
  | Some pending =>
      assign (fun o => set_pendingRequests (delete id (pendingRequests o)) o) ;;;
      tell (Settled id (inr RequestTimeout)) ;;;
      resume (waiter pending)
  | None => ret tt
  end.

(** [requestL2Book(coin, nSigFigs = 5)], awaited by [wt]; [now] is the
    clock during the call. *)
Definition requestL2Book (now : Z) (wt : Waiter) (coin : string) (nSigFigs : Z)
  : M Z :=
  w <- get ;;
  (* Check inflight request limit *)
  if Z.of_nat (base.size (pendingRequests (this w))) >=? maxInflightRequests (config (this w))
  then throw TooManyInflight
  else
    (* Check rate limit *)
    let '(ok, limiter) := canRequest now (wsRateLimiter (this w)) in
    assign (set_wsRateLimiter limiter) ;;;
    if negb ok then throw RateLimited
    else
      w1 <- get ;;
      if negb (connected (this w1)) then throw NotConnected
      else
        (* Consume rate limit token *)
        let '(ok, limiter) := tryRequest now now (wsRateLimiter (this w1)) in
        assign (set_wsRateLimiter limiter) ;;;
        if negb ok then throw RateLimited
        else post now wt (InfoL2Book coin nSigFigs).

(** [requestClearinghouseStateWs(user)] *)
Definition requestClearinghouseStateWs (now : Z) (user : option string) : M Z :=
  w <- get ;;
  match user, wallet (config (this w)) with
  | None, None => throw UserRequired
  | _, _ =>
      if Z.of_nat (base.size (pendingRequests (this w)))
         >=? maxInflightRequests (config (this w))
      then throw TooManyInflight
      else
        let '(ok, limiter) := canRequest now (wsRateLimiter (this w)) in
        assign (set_wsRateLimiter limiter) ;;;
        if negb ok then throw RateLimited
        else
          w1 <- get ;;
          if negb (connected (this w1)) then throw NotConnected
          else
            let '(ok, limiter) := tryRequest now now (wsRateLimiter (this w1)) in
            assign (set_wsRateLimiter limiter) ;;;
            if negb ok then throw RateLimited
            else
              post now Caller
                (InfoClearinghouseState
                   (match user with
                    | Some u => u
                    | None => default EmptyString (wallet (config (this w1)))
                    end))
  end.

(** [handleMessage(data)]. Everything runs inside [try { } catch], so an
    exception ends the handler and nothing else. *)
Definition handleMessage (now : Z) (message : Message) : M unit :=
  try_catch
    match message with
    (* Handle subscription responses *)
    | SubscriptionResponse => ret tt
    (* Handle post responses *)
    | Post id response =>
        w <- get ;;
        resumed <-
          match pendingRequests (this w) !! id with
          | Some pending =>
              (* Clear the timeout *)
              clearRequestTimeout (timeout pending) ;;;
              assign (fun o => set_pendingRequests (delete id (pendingRequests o)) o) ;;;
              match response with
              | None => throw TypeError
              | Some response =>
                  (if String.eqb (rtype response) "error"
                   then tell (Settled id (inr (VenueError
                                match payload response with
                                | PayloadText text => text
                                | _ => EmptyString
                                end)))
                   else tell (Settled id (inl (payload response)))) ;;;
                  ret (Some (waiter pending))
              end
          | None => ret None
          end ;;
        (* Handle l2Book responses *)
        match response with
        | None => throw TypeError
        | Some response =>
            match payload response with
            | PayloadL2Book bookData =>
                when (String.eqb (rtype response) "info")
                     (updateOrderbook now bookData)
            | _ => ret tt
            end
        end ;;;
        (* the settled promise resumes its waiter once the handler is done *)
        match resumed with
        | Some wt => resume wt
        | None => ret tt
        end
    (* Handle subscription data updates *)
    | L2BookUpdate data => updateOrderbook now data
    | Unhandled => ret tt
    end
    (fun _ => ret tt).

(** [this.subscriptions.add(coin)] *)
Definition set_add (coin : string) (subs : list string) : list string :=
  if existsb (String.eqb coin) subs then subs else subs ++ [coin].

(** [subscribeOrderbook(coin)] up to the point where it waits for the
    snapshot; when the request is refused on the spot it goes on to the
    end. *)
Definition subscribeOrderbook (now : Z) (coin : string) : M unit :=
  w <- get ;;
  if negb (connected (this w)) && negb (useRestFallback (this w))
  then throw NotConnected
  else
    (* Add to subscriptions *)
    assign (fun o => set_subscriptions (set_add coin (subscriptions o)) o) ;;;
    if useRestFallback (this w) then
      (* Start REST polling if not already started *)
      w' <- get ;;
      when (negb (isSet (restPollTimer (this w')))) (startRestPolling false)
    else
      (* Request initial snapshot via WebSocket *)
      try_catch
        (_ <- requestL2Book now (SubscribeOrderbook coin) coin 5 ;; ret tt)
        (fun _ => subscribeOrderbook_rest).

(** [resubscribe()]: the promise of each call is given a [catch]. *)
Definition resubscribe (now : Z) : M unit :=
  w <- get ;;
  for_each (subscriptions (this w))
    (fun coin => try_catch (subscribeOrderbook now coin) (fun _ => ret tt)).

(** [unsubscribe(coin)] *)
Definition unsubscribe (coin : string) : M unit :=
  assign (fun o => set_subscriptions
                     (List.filter (fun x => negb (String.eqb x coin)) (subscriptions o)) o) ;;;
  assign (fun o => set_orderbooks (delete coin (orderbooks o)) o).

(** ** Transport manager *)

(** [if (this.pongTimer) { clearTimeout(this.pongTimer);
    this.pongTimer = null; }]. The field holds the handle of the pong
    timeout set last; the ones set before it stay armed when a ping tick
    overwrites the field. All pong timeouts have the same delay
    ([this.pongTimeout], fixed by the constructor), so they fire in the
    order they were set, and the callback does not reset the field:
    while the field holds a handle, the timeout set last is armed
    exactly when some pong timeout is armed. [clearTimeout] takes that
    one away, or does nothing when it has fired. *)
Definition clearPongTimeout : M unit :=
  w <- get ;;
  when (pongTimer (this w))
       (modify (fun w => set_pongTimers (Nat.pred (pongTimers w)) w) ;;;
        assign (set_pongTimer false)).

(** [stopHealthMonitoring()] *)
Definition stopHealthMonitoring : M unit :=
  assign (set_pingTimer false) ;;;
  clearPongTimeout ;;;
  w <- get ;;
  match connectionTimeout (this w) with
  | Some k =>
      modify (fun w => set_connectionTimers (connectionTimers w ∖ {[k]}) w) ;;;
      assign (set_connectionTimeout None)
  | None => ret tt
  end.

(** [startHealthMonitoring()] *)
Definition startHealthMonitoring : M unit :=
  stopHealthMonitoring ;;;
  assign (set_pingTimer true).

(** [connect()], up to the [return] of the promise: the socket is
    created, its handlers are registered and the connection timeout is
    armed. The promise belongs to [origin]. *)
Definition connect (origin : ConnectOrigin) : M unit :=
  assign (set_intentionalDisconnect false) ;;;
  w <- get ;;
  let k := List.length (sockets w) in
  modify (set_sockets (sockets w ++ [CONNECTING])) ;;;
  assign (set_ws (Some k)) ;;;
  tell (SocketCreated k) ;;;
  modify (fun w => set_connectPromises (<[k := origin]> (connectPromises w)) w) ;;;
  (* Connection timeout *)
  modify (fun w => set_connectionTimers (connectionTimers w ∪ {[k]}) w) ;;;
  assign (set_connectionTimeout (Some k)).

(** [handleReconnect()]. *)
Definition handleReconnect : M unit :=
  w <- get ;;
  if reconnecting (this w) then ret tt
  else
    assign (set_reconnecting true) ;;;
    assign (fun o => set_reconnectAttempts (reconnectAttempts o + 1) o) ;;;
    w1 <- get ;;
    let o := this w1 in
    if reconnectAttempts o >? maxReconnectAttempts (config o) then
      assign (set_useRestFallback true) ;;;
      startRestPolling false ;;;
      tell (Emitted "fallback")
    else
      (* Calculate backoff delay *)
      let delay :=
        Z.min (reconnectDelay (config o) * 2 ^ (reconnectAttempts o - 1))
              (maxReconnectDelay (config o)) in
      modify (fun w => set_reconnectTimers (S (reconnectTimers w)) w) ;;;
      tell (ReconnectScheduled delay).

(** The timer callback of [handleReconnect], up to its [await]. *)
Definition reconnectTimer : M unit := connect ByReconnect.

(** What settling the promise of the [connect()] that made socket [k]
    resumes: the [try]/[catch] of the reconnect callback, or the caller. *)
Definition settleConnect (k : nat) (failure : option error) : M unit :=
  w <- get ;;
  match connectPromises w !! k with
  | None => ret tt      (* settled before: resolve and reject do nothing *)
  | Some origin =>
      modify (fun w => set_connectPromises (delete k (connectPromises w)) w) ;;;
      tell (ConnectSettled k failure) ;;;
      match origin, failure with
      | ByReconnect, Some _ =>
          assign (set_reconnecting false) ;;;
          handleReconnect
      | _, _ => ret tt
      end
  end.

(** The ['open'] handler of socket [k]. *)
Definition onOpen (now : Z) (k : nat) : M unit :=
  assign (set_connected true) ;;;
  assign (set_reconnecting false) ;;;
  assign (set_reconnectAttempts 0) ;;;
  assign (set_useRestFallback false) ;;;
  (* Clear connection timeout *)
  w <- get ;;
  match connectionTimeout (this w) with
  | Some t =>
      modify (fun w => set_connectionTimers (connectionTimers w ∖ {[t]}) w) ;;;
      assign (set_connectionTimeout None)
  | None => ret tt
  end ;;;
  (* Start health monitoring *)
  startHealthMonitoring ;;;
  (* Resubscribe to previous subscriptions *)
  resubscribe now ;;;
  tell (Emitted "connected") ;;;
  settleConnect k None.

(** The ['pong'] handler. *)
Definition onPong (now : Z) : M unit :=
  assign (set_lastPongReceived now) ;;;
  clearPongTimeout.

(** The ['error'] handler. *)
Definition onError : M unit := tell (Emitted "error").

(** The ['close'] handler. *)
Definition onClose : M unit :=
  assign (set_connected false) ;;;
  stopHealthMonitoring ;;;
  tell (Emitted "disconnected") ;;;
  (* Attempt to reconnect only if not intentionally disconnected *)
  w <- get ;;
  when (negb (reconnecting (this w)) && negb (intentionalDisconnect (this w)))
       handleReconnect.

(** The callback of the connection timeout armed by the [connect()] that
    made socket [k] (10 s). The rejection resumes the awaiting code after
    the callback is done. *)
Definition connectionTimedOut (k : nat) : M unit :=
  w <- get ;;
  if negb (connected (this w)) then
    terminate_ws ;;;
    settleConnect k (Some ConnectionTimeout)
  else ret tt.

(** [this.pongTimer = setTimeout(..., this.pongTimeout)]: one more pong
    timeout is armed and the field holds its handle; a timeout that the
    field held before stays armed. *)
Definition setPongTimeout : M unit :=
  modify (fun w => set_pongTimers (S (pongTimers w)) w) ;;;
  assign (set_pongTimer true).

(** The interval callback of [startHealthMonitoring]. *)
Definition pingTick (now : Z) : M unit :=
  w <- get ;;
  let o := this w in
  match ws o with
  | Some k =>
      if negb (connected o) then ret tt
      else if now - lastPongReceived o >? pongTimeout (config o) + pingInterval (config o)
      then terminate_ws
      else
        (* Send ping: ws.ping() throws on a socket still connecting, and
           the catch logs; a closing or closed socket drops the ping *)
        match sockets w !! k with
        | Some OPEN =>
            tell (PingSent k) ;;;
            (* Set pong timeout *)
            setPongTimeout
        | Some CONNECTING | None => ret tt
        | Some _ => setPongTimeout
        end
  | None => ret tt
  end.

(** The callback of the pong timeout. *)
Definition pongTimedOut : M unit := terminate_ws.

(** The interval callback of [startRestPolling(temporary)], up to its
    loop over the subscriptions. *)
Definition restPollTick (temporary : bool) : M unit :=
  w <- get ;;
  when (negb temporary && negb (useRestFallback (this w))) stopRestPolling.

(** [requestL2BookRest(coin)] up to the [fetch]: [clock] lists the
    readings of [Date.now()] that [waitForSlot] goes through. Returns
    whether the request went out ([false]: still waiting for a slot when
    the readings end). *)
Definition requestL2BookRest (clock : list Z) (coin : string) : M bool :=
  w <- get ;;
  match waitForSlot clock (restRateLimiter (this w)) with
  | Some limiter =>
      assign (set_restRateLimiter limiter) ;;;
      tell (InfoPosted "l2Book" coin) ;;;
      ret true
  | None => ret false
  end.

(** One turn of the loop of a polling pass (REST poll or periodic
    refresh): the request for [coin], then, with the reply [data] of a
    successful fetch, the cache update. *)
Definition pollOne (now : Z) (clock : list Z) (coin : string)
    (reply : option BookData) : M unit :=
  sent <- requestL2BookRest clock coin ;;
  match sent, reply with
  | true, Some data =>
      updateOrderbook now {| bd_coin := coin;
                             bd_levels := bd_levels data;
                             bd_time := bd_time data |}
  | _, _ => ret tt
  end.

(** [disconnect()] *)
Definition disconnect : M unit :=
  assign (set_intentionalDisconnect true) ;;;
  assign (set_reconnecting false) ;;;
  stopHealthMonitoring ;;;
  stopRestPolling ;;;
  stopPeriodicRestRefresh ;;;
  stopStalenessMonitoring ;;;
  w <- get ;;
  match ws (this w) with
  | Some k => socket_shutdown k ;;; assign (set_ws None)
  | None => ret tt
  end ;;;
  assign (set_connected false) ;;;
  assign (set_subscriptions []) ;;;
  assign (set_orderbooks ∅) ;;;
  assign (set_pendingRequests ∅).

(** ** The reactive system *)

(** What the environment does: socket events, timers that fire, and the
    turns of the polling passes. *)
Inductive Event :=
| WsOpen (k : nat)
| WsMessage (k : nat) (message : Message)
| WsPong (k : nat)
| WsError (k : nat)
| WsClose (k : nat)
| ConnectionTimeoutFires (k : nat)
| ReconnectTimerFires
| RequestTimeoutFires (id : Z)
| PingTick
| PongTimeoutFires
| StalenessTick
| RestPollTick
| PollTurn (clock : list Z) (coin : string) (reply : option BookData).

(** What strategy code calls. *)
Inductive Call :=
| CallConnect
| CallDisconnect
| CallSubscribeOrderbook (coin : string)
| CallUnsubscribe (coin : string)
| CallRequestL2Book (coin : string) (nSigFigs : Z)
| CallRequestClearinghouseStateWs (user : option string)
| OrderExecutor (payload : SignedAction).
    (* the Promise executor of createOrderWebSocket *)

Inductive Input :=
| Env (e : Event)
| App (c : Call).

Definition socket_is (st : ReadyState) (k : nat) (w : World) : bool :=
  match sockets w !! k, st with
  | Some CONNECTING, CONNECTING | Some OPEN, OPEN
  | Some CLOSING, CLOSING | Some CLOSED, CLOSED => true
  | _, _ => false
  end.

Definition set_socket (k : nat) (st : ReadyState) : M unit :=
  modify (fun w => set_sockets (<[k := st]> (sockets w)) w).

(** A timer that fires is no longer armed when its callback runs. *)
Definition fireConnectionTimeout (k : nat) : M unit :=
  modify (fun w => set_connectionTimers (connectionTimers w ∖ {[k]}) w) ;;;
  connectionTimedOut k.

Definition fireRequestTimeout (id : Z) : M unit :=
  modify (fun w => set_requestTimeouts (delete id (requestTimeouts w)) w) ;;;
  requestTimeout id.

Definition fireReconnectTimer (armed : nat) : M unit :=
  modify (set_reconnectTimers armed) ;;;
  reconnectTimer.

Definition firePongTimeout (armed : nat) : M unit :=
  modify (set_pongTimers armed) ;;;
  pongTimedOut.

(** The timeout of request [id] is armed and due at [now]: a timer does
    not fire before its delay has passed. *)
Definition is_due (now : Z) (id : Z) (w : World) : bool :=
  match requestTimeouts w !! id with
  | Some due => due <=? now
  | None => false
  end.

(** The ['open'] and ['close'] events change the state of the socket
    before the handler runs. *)
Definition opened (now : Z) (k : nat) : M unit :=
  set_socket k OPEN ;;; onOpen now k.

Definition closed (k : nat) : M unit :=
  set_socket k CLOSED ;;; onClose.

(** The callback that an event runs. An event that cannot happen in the
    current world (a timer that is not armed, a socket in another state)
    does nothing. *)
Definition react (now : Z) (e : Event) : M unit :=
  w <- get ;;
  match e with
  | WsOpen k =>
      when (socket_is CONNECTING k w) (opened now k)
  | WsMessage k message =>
      when (socket_is OPEN k w) (handleMessage now message)
  | WsPong k =>
      when (socket_is OPEN k w) (onPong now)
  | WsError k =>
      when (isSet (sockets w !! k) && negb (socket_is CLOSED k w)) onError
  | WsClose k =>
      when (isSet (sockets w !! k) && negb (socket_is CLOSED k w)) (closed k)
  | ConnectionTimeoutFires k =>
      when (bool_decide (k ∈ connectionTimers w)) (fireConnectionTimeout k)
  | ReconnectTimerFires =>
      match reconnectTimers w with
      | S armed => fireReconnectTimer armed
      | O => ret tt
      end
  | RequestTimeoutFires id =>
      when (is_due now id w) (fireRequestTimeout id)
  | PingTick => when (pingTimer (this w)) (pingTick now)
  | PongTimeoutFires =>
      match pongTimers w with
      | S armed => firePongTimeout armed
      | O => ret tt
      end
  | StalenessTick => when (stalenessTimer (this w)) (stalenessCheck now)
  | RestPollTick =>
      match restPollTimer (this w) with
      | Some temporary => restPollTick temporary
      | None => ret tt
      end
  | PollTurn clock coin reply => pollOne now clock coin reply
  end.

(** The stretch of code that a call runs. *)
Definition serve (now : Z) (c : Call) : M unit :=
  match c with
  | CallConnect => connect ByCaller
  | CallDisconnect => disconnect
  | CallSubscribeOrderbook coin => subscribeOrderbook now coin
  | CallUnsubscribe coin => unsubscribe coin
  | CallRequestL2Book coin nSigFigs =>
      _ <- requestL2Book now Caller coin nSigFigs ;; ret tt
  | CallRequestClearinghouseStateWs user =>
      _ <- requestClearinghouseStateWs now user ;; ret tt
  | OrderExecutor payload =>
      _ <- post now Caller (ActionRequest payload) ;; ret tt
  end.

Definition handle (now : Z) (i : Input) : M unit :=
  match i with
  | Env e => react now e
  | App c => serve now c
  end.

(** One input, taken at clock reading [now]. *)
Definition step (ti : Z * Input) (w : World) : World * list Output :=
  exec (handle (fst ti) (snd ti)) w.

(** A run: the inputs in order, each with its clock reading. *)
Fixpoint run (tr : list (Z * Input)) (w : World) : World * list Output :=
  match tr with
  | [] => (w, [])
  | ti :: rest =>
      let '(w1, out1) := step ti w in
      let '(w2, out2) := run rest w1 in
      (w2, out1 ++ out2)
  end.

(** What happens while a method waits at an [await]. *)
Definition meanwhile (tr : list (Z * Input)) : M unit :=
  fun w => let '(w', out) := run tr w in (Ok tt, w', out).

(** ** Instrument metadata *)

(** What the world outside answers to one [createMarketOrder] call, and
    what goes on while the call waits. *)
Record Environment := {
  metaReply : option Meta;            (* body of the 'meta' reply, if OK *)
  spotMetaReply : option SpotMeta;    (* body of the 'spotMeta' reply *)
  whileLoading : list (Z * Input);    (* during the metadata fetches *)
  whileRetrying : list (Z * Input);   (* during the 500 ms retry delay *)
  whileSigning : list (Z * Input);    (* during signAction *)
  nonceClock : Z;                     (* Date.now() read for the nonce *)
  sendClock : Z;                      (* the clock when the signed order
                                         goes out on the socket *)
  exchangeReply : option Z            (* HTTP status of the order POST;
                                         None: the fetch itself failed *)
}.

(** [getMeta()] *)
Definition getMeta (env : Environment) : M Meta :=
  tell (InfoPosted "meta" EmptyString) ;;;
  match metaReply env with
  | Some data => ret data
  | None => throw (HttpError 0)
  end.

(** [getSpotMeta()] *)
Definition getSpotMeta (env : Environment) : M SpotMeta :=
  tell (InfoPosted "spotMeta" EmptyString) ;;;
  match spotMetaReply env with
  | Some data => ret data
  | None => throw (HttpError 0)
  end.

(** [universe.findIndex(asset => asset.name === coin)]; [None] is [-1]. *)
Fixpoint findIndex_from (i : Z) (coin : string) (us : list Asset) : option Z :=
  match us with
  | [] => None
  | asset :: rest =>
      if String.eqb (name asset) coin then Some i
      else findIndex_from (i + 1) coin rest
  end.

(** The predicate of the search for the spot pair of [coin]. *)
Definition is_pair_of (sm : SpotMeta) (coin : string) (pair : Pair) : bool :=
  (* We want pairs with USDC (token 0) as quote *)
  match List.nth_error (tokens pair) 1 with
  | Some 0 =>
      (* Find the base token *)
      match List.nth_error (tokens pair) 0 with
      | Some baseTokenIndex =>
          match List.find (fun t => tk_index t =? baseTokenIndex) (spot_tokens sm) with
          | Some token => String.eqb (tk_name token) coin
          | None => false
          end
      | None => false
      end
  | _ => false
  end.

(** [getAssetId(coin, isSpot = false)] *)
Definition getAssetId (env : Environment) (coin : string) (isSpot : bool) : M Z :=
  (* Load both meta caches if not loaded *)
  w <- get ;;
  match metaCache (this w) with
  | Some _ => ret tt
  | None =>
      data <- getMeta env ;;
      meanwhile (whileLoading env) ;;;
      assign (set_metaCache (Some data))
  end ;;;
  w <- get ;;
  match spotMetaCache (this w) with
  | Some _ => ret tt
  | None =>
      data <- getSpotMeta env ;;
      assign (set_spotMetaCache (Some data))
  end ;;;
  w <- get ;;
  match metaCache (this w), spotMetaCache (this w) with
  | Some meta, Some spotMeta =>
      (* Try perp first if not explicitly spot *)
      match (if isSpot then None else findIndex_from 0 coin (universe meta)) with
      | Some perpIndex => ret perpIndex
      | None =>
          (* Try spot *)
          match List.find (is_pair_of spotMeta coin) (spot_universe spotMeta) with
          | Some spotPair => ret (10000 + index spotPair)
          | None => throw (AssetNotFound coin)
          end
      end
  | _, _ => throw TypeError
  end.

(** [getAssetInfo(coin, assetId = null)] *)
Definition getAssetInfo (coin : string) (assetId : option Z) : M AssetInfo :=
  w <- get ;;
  match metaCache (this w) with
  | None => throw MetaNotLoaded
  | Some meta =>
      match assetId with
      | Some id =>
          if id >=? 10000 then
            match spotMetaCache (this w) with
            | None => throw SpotMetaNotLoaded
            | Some spotMeta =>
                let spotIndex := id - 10000 in
                (* Find pair by its index field, not array position *)
                match List.find (fun p => index p =? spotIndex) (spot_universe spotMeta) with
                | None => throw (AssetNotFound coin)
                | Some spotPair =>
                    (* Get szDecimals from the base token *)
                    match List.nth_error (tokens spotPair) 0 with
                    | None => throw (AssetNotFound coin)
                    | Some baseTokenIndex =>
                        match List.find (fun t => tk_index t =? baseTokenIndex)
                                        (spot_tokens spotMeta) with
                        | None => throw (AssetNotFound coin)
                        | Some token =>
                            ret {| ai_name := coin;
                                   ai_szDecimals := tk_szDecimals token;
                                   spotCoin := Some (pair_name spotPair) |}
                        end
                    end
                end
            end
          else
            match List.find (fun a => String.eqb (name a) coin) (universe meta) with
            | None => throw (AssetNotFound coin)
            | Some asset =>
                ret {| ai_name := name asset;
                       ai_szDecimals := szDecimals asset;
                       spotCoin := None |}
            end
      | None =>
          match List.find (fun a => String.eqb (name a) coin) (universe meta) with
          | None => throw (AssetNotFound coin)
          | Some asset =>
              ret {| ai_name := name asset;
                     ai_szDecimals := szDecimals asset;
                     spotCoin := None |}
          end
      end
  end.

(** [getCoinForOrderbook(coin, assetId = null)] *)
Definition getCoinForOrderbook (coin : string) (assetId : option Z) : M string :=
  match assetId with
  | Some id =>
      if id >=? 10000 then
        assetInfo <- getAssetInfo coin assetId ;;
        match spotCoin assetInfo with
        | Some sc => ret sc
        | None => ret EmptyString
        end
      else ret coin
  | None => ret coin
  end.

(** ** Order constructor *)

(** [signAction(action, nonce, vaultAddress = null)] *)
Definition signAction (env : Environment) (action : Action) (nonce : Z)
    (vaultAddress : option string) : M Signature :=
  w <- get ;;
  if negb (signer (config (this w))) then throw SignerUnavailable
  else
    meanwhile (whileSigning env) ;;;
    tell (Signed action nonce) ;;;
    ret {| sig_action := action; sig_nonce := nonce;
           sig_vault := match vaultAddress with
                        | Some (String _ _) => true
                        | _ => false
                        end |}.

(** [payload.vaultAddress] is set only for a truthy [vaultAddress]. *)
Definition signed_payload (action : Action) (nonce : Z) (signature : Signature)
    (vaultAddress : option string) : SignedAction :=
  {| sa_action := action; sa_nonce := nonce; sa_signature := signature;
     sa_vaultAddress := match vaultAddress with
                        | Some (String _ _) => vaultAddress
                        | _ => None
                        end |}.

(** How a submission stands when [createMarketOrder] has done its part:
    on the push channel the frame is out and the reply is awaited under
    a request id; on REST the reply is in. *)
Inductive Submission :=
| AwaitingReply (id : Z)
| RestReply.

(** [createOrderWebSocket(action, nonce, vaultAddress = null)] *)
Definition createOrderWebSocket (env : Environment) (action : Action) (nonce : Z)
    (vaultAddress : option string) : M Submission :=
  w <- get ;;
  if negb (connected (this w)) then throw NotConnectedWs
  else
    signature <- signAction env action nonce vaultAddress ;;
    let payload := signed_payload action nonce signature vaultAddress in
    id <- post (sendClock env) Caller (ActionRequest payload) ;;
    ret (AwaitingReply id).

(** [createOrderRest(action, nonce, vaultAddress = null)] *)
Definition createOrderRest (env : Environment) (action : Action) (nonce : Z)
    (vaultAddress : option string) : M Submission :=
  signature <- signAction env action nonce vaultAddress ;;
  let payload := signed_payload action nonce signature vaultAddress in
  tell (ExchangePosted payload) ;;;
  match exchangeReply env with
  | Some status =>
      if (200 <=? status) && (status <=? 299) then ret RestReply
      else throw (HttpError status)
  | None => throw (HttpError 0)
  end.

(** [!bidAsk || !bidAsk.bid || !bidAsk.ask] *)
Definition quote_of (ba : option BidAsk) : option (number * number) :=
  match ba with
  | Some q =>
      match bid q, ask q with
      | Some b, Some a => if truthy b && truthy a then Some (b, a) else None
      | _, _ => None
      end
  | None => None
  end.

(** The notional test of [createMarketOrder]:
    [parseFloat(limitPriceStr) * parseFloat(sizeStr)]. *)
Definition notional_of (limitPriceStr sizeStr : string) : number :=
  mul (parseFloat limitPriceStr) (parseFloat sizeStr).

(** [createMarketOrder(coin, side, size, options = {})], first part: from
    the credentials check to the two roundings. Returns the asset id, the
    rounded limit price and the rounded size. *)
Definition quantizeOrder (env : Environment) (coin side : string)
    (size : number) (options : OrderOptions) : M (Z * string * string) :=
  w <- get ;;
  if negb (isSet (wallet (config (this w)))) || negb (signer (config (this w)))
  then throw CredentialsRequired
  else
    (* Get asset ID and metadata *)
    assetId <- getAssetId env coin (isSpot options) ;;
    assetInfo <- getAssetInfo coin (Some assetId) ;;
    (* Determine the correct orderbook coin *)
    orderbookCoin <- getCoinForOrderbook coin (Some assetId) ;;
    let isBuy := String.eqb side "buy" in
    let slippage := default (parseFloat "0.05") (slippage options) in
    override <-
      match overrideMidPrice options with
      | Some v =>
          if truthy v && isFinite v then ret (Some v) else ret None
      | None => ret None
      end ;;
    midPrice <-
      match override with
      | Some v => ret v
      | None =>
          (* Use cached prices from the REST poller *)
          w1 <- get ;;
          match quote_of (getBidAsk orderbookCoin (this w1)) with
          | Some (b, a) => ret (div (add b a) (of_Z 2))
          | None =>
              (* If cache is empty, wait a moment and retry once *)
              meanwhile (whileRetrying env) ;;;
              w2 <- get ;;
              match quote_of (getBidAsk orderbookCoin (this w2)) with
              | Some (b, a) => ret (div (add b a) (of_Z 2))
              | None => throw (NoMarketData coin)
              end
          end
      end ;;
    (* Calculate limit price with slippage *)
    let slippageDecimal :=
      if gtb slippage (of_Z 1) then div slippage (of_Z 100) else slippage in
    let limitPrice :=
      if isBuy then mul midPrice (add (of_Z 1) slippageDecimal)
      else mul midPrice (sub (of_Z 1) slippageDecimal) in
    (* Round price to proper tick size *)
    match roundPrice limitPrice (ai_szDecimals assetInfo) (isSpot options) with
    | None => throw RangeError
    | Some limitPriceStr =>
        (* Round size to proper lot size *)
        match roundSize size (ai_szDecimals assetInfo) with
        | None => throw RangeError
        | Some sizeStr => ret (assetId, limitPriceStr, sizeStr)
        end
    end.

(** [createMarketOrder], second part: the notional check, the order and
    its dispatch. *)
Definition submitOrder (env : Environment) (side : string)
    (options : OrderOptions) (quantized : Z * string * string) : M Submission :=
  let '(assetId, limitPriceStr, sizeStr) := quantized in
  (* Check minimum notional *)
  let notional := notional_of limitPriceStr sizeStr in
  if ltb notional (of_Z 10) then throw (BelowMinimumNotional notional)
  else
    (* Construct order *)
    let order :=
      {| a := assetId; b := String.eqb side "buy"; p := limitPriceStr;
         s := sizeStr; r := reduceOnly options; tif := "Ioc";
         c := match cloid options with
              | Some (String _ _) => cloid options
              | _ => None
              end |} in
    let action := {| orders := [order]; grouping := "na" |} in
    let nonce := nonceClock env in
    (* Try WebSocket first if connected, otherwise use REST *)
    w <- get ;;
    if connected (this w) && negb (useRest options)
    then createOrderWebSocket env action nonce (vaultAddress options)
    else createOrderRest env action nonce (vaultAddress options).

(** [createMarketOrder(coin, side, size, options = {})] *)
Definition createMarketOrder (env : Environment) (coin side : string)
    (size : number) (options : OrderOptions) : M Submission :=
  quantized <- quantizeOrder env coin side size options ;;
  submitOrder env side options quantized.

(** ** Sample worlds *)

Definition sampleOptions : Options :=
  {| opt_wallet := Some "0xabc"; opt_privateKey := Some "key";
     opt_maxReconnectAttempts := None; opt_reconnectDelay := None;
     opt_maxReconnectDelay := None; opt_pingInterval := None;
     opt_pongTimeout := None; opt_stalenessThreshold := None;
     opt_maxInflightRequests := None |}.

(** A connector that has connected: [connect()] at 0 ms, ['open'] at 5 ms. *)
Definition online : World :=
  fst (run [(0, App CallConnect); (5, Env (WsOpen 0))] (boot sampleOptions 0)).

(** The same with the push-channel limiter full: 1800 requests recorded
    at 5 ms. *)
Definition saturated : World :=
  upd (set_wsRateLimiter
         {| maxRequests := 1800; windowMs := 60000;
            requests := List.repeat 5 1800 |}) online.

Definition sampleMeta : Meta :=
  {| universe := [ {| name := "BTC"; szDecimals := 5 |} ] |}.

Definition sampleSpotMeta : SpotMeta :=
  {| spot_universe := []; spot_tokens := [] |}.

(** Nothing else happens during the call; the venue answers 200. *)
Definition quiet : Environment :=
  {| metaReply := Some sampleMeta; spotMetaReply := Some sampleSpotMeta;
     whileLoading := []; whileRetrying := []; whileSigning := [];
     nonceClock := 1000; sendClock := 1000; exchangeReply := Some 200 |}.

(** [{ overrideMidPrice: mid }], and the same with [useRest: true]. *)
Definition atMid (mid : string) (rest : bool) : OrderOptions :=
  {| isSpot := false; reduceOnly := false; slippage := None;
     overrideMidPrice := Some (parseFloat mid); cloid := None;
     vaultAddress := None; useRest := rest |}.

End Connector.

(* ===================================================================== *)
(** * Vocabulary of the properties *)
(* ===================================================================== *)

Module ConnectorLogic.
Import Num RateLimiter Quantizer Connector.

(** A stretch of code keeps an invariant between the world and what has
    been done to the outside so far. *)
Definition keeps (Inv : World -> list Output -> Prop) {A} (m : M A) : Prop :=
  forall w h, Inv w h -> Inv (snd (fst (m w))) (h ++ snd (m w)).

(** The same for one world [w] and one history [h]. *)
Definition keeps_at (Inv : World -> list Output -> Prop) {A} (m : M A)
    (w : World) (h : list Output) : Prop :=
  Inv (snd (fst (m w))) (h ++ snd (m w)).

(** The output is a read of instrument metadata or of an orderbook. *)
Definition is_info_fetch (o : Output) : Prop :=
  match o with InfoPosted _ _ => True | _ => False end.

(** The parts of the world that a push-channel or REST dispatch touches:
    the two limiters, the correlator, the armed request timers. *)
Definition same_dispatch_state (w0 w : World) : Prop :=
  wsRateLimiter (this w) = wsRateLimiter (this w0) /\
  restRateLimiter (this w) = restRateLimiter (this w0) /\
  pendingRequests (this w) = pendingRequests (this w0) /\
  requestId (this w) = requestId (this w0) /\
  requestTimers w = requestTimers w0.

(** Nothing was dispatched since [w0]: only metadata was fetched. *)
Definition undispatched (w0 : World) (w : World) (h : list Output) : Prop :=
  same_dispatch_state w0 w /\ Forall is_info_fetch h.

(** The promise of request [id] is settled by the output. *)
Definition settles (id : Z) (o : Output) : bool :=
  match o with
  | Settled id' _ => id' =? id
  | _ => false
  end.

(** How many times the promise of [id] was settled. *)
Definition resolutions (id : Z) (h : list Output) : nat :=
  List.length (List.filter (settles id) h).

(** The correlator invariant: a pending request holds the handle of its
    own timer, which is armed; its id was allocated before; its promise
    is unsettled. No promise is settled twice. Ids not allocated yet have
    no settled promise. *)
Definition correlated (w : World) (h : list Output) : Prop :=
  (forall id pending, pendingRequests (this w) !! id = Some pending ->
     timeout pending = id /\ id ∈ requestTimers w /\
     id <= requestId (this w) /\ resolutions id h = O) /\
  (forall id, (resolutions id h <= 1)%nat) /\
  (forall id, requestId (this w) < id -> resolutions id h = O).

(** Every armed request timeout belongs to an id that was allocated. *)
Definition allocated (w : World) (h : list Output) : Prop :=
  forall id, id ∈ requestTimers w -> id <= requestId (this w).

(** What the code that runs at clock [t] from [w0] on does to the
    request timeouts: they belong to allocated ids; no id was given back; the timeout of a request
    allocated before is still due when it was, if it is armed; the
    timeout of a request allocated since is due at [t + 10000], if it
    is armed; and what is pending was pending in [w0] or was allocated
    since. *)
Definition timed (t : Z) (w0 w : World) (h : list Output) : Prop :=
  allocated w h /\
  requestId (this w0) <= requestId (this w) /\
  (forall id due, id <= requestId (this w0) ->
     requestTimeouts w !! id = Some due ->
     requestTimeouts w0 !! id = Some due) /\
  (forall id due, requestId (this w0) < id ->
     requestTimeouts w !! id = Some due -> due = t + 10000) /\
  (forall id pending, pendingRequests (this w) !! id = Some pending ->
     is_Some (pendingRequests (this w0) !! id) \/ requestId (this w0) < id).


(** The requests in [dead] were allocated, are not pending and have no
    settled promise. *)
Definition abandoned (dead : Z -> Prop) (w : World) (h : list Output) : Prop :=
  forall id, dead id ->
    pendingRequests (this w) !! id = None /\
    id <= requestId (this w) /\ resolutions id h = O.

Definition correlated_with (dead : Z -> Prop) (w : World) (h : list Output)
  : Prop :=
  correlated w h /\ abandoned dead w h.

(** The output is a push connection attempt or a fallback notification. *)
Definition is_reconnect_activity (o : Output) : bool :=
  match o with
  | SocketCreated _ => true
  | ReconnectScheduled _ => true
  | Emitted event => String.eqb event "fallback"
  | _ => false
  end.

Definition fallback_notifications (h : list Output) : nat :=
  List.length (List.filter
                 (fun o => match o with
                           | Emitted event => String.eqb event "fallback"
                           | _ => false
                           end) h).

Definition connection_attempts (h : list Output) : nat :=
  List.length (List.filter
                 (fun o => match o with SocketCreated _ => true | _ => false end) h).

(** No socket is connecting or open. *)
Definition all_sockets_down (w : World) : Prop :=
  forall k st, sockets w !! k = Some st -> st = CLOSING \/ st = CLOSED.

Definition down (st : ReadyState) : Prop := st = CLOSING \/ st = CLOSED.

(** A connector in steady connected state on socket [k0]: the socket is
    open and every other one is down; no reconnection is under way. *)
Definition steady (k0 : nat) (w : World) : Prop :=
  connected (this w) = true /\
  reconnecting (this w) = false /\
  intentionalDisconnect (this w) = false /\
  reconnectAttempts (this w) = 0 /\
  useRestFallback (this w) = false /\
  sockets w !! k0 = Some OPEN /\
  (forall k st, sockets w !! k = Some st -> k = k0 \/ down st) /\
  connectionTimers w = ∅ /\
  reconnectTimers w = O.

(** Between two reconnect attempts: attempt number [j] is scheduled. *)
Definition retrying (j : Z) (w : World) : Prop :=
  reconnecting (this w) = true /\
  reconnectAttempts (this w) = j /\
  connected (this w) = false /\
  useRestFallback (this w) = false /\
  reconnectTimers w = 1%nat /\
  connectionTimers w = ∅ /\
  all_sockets_down w.

(** The permanent REST-fallback mode. *)
Definition in_fallback (w : World) : Prop :=
  useRestFallback (this w) = true /\
  isSet (restPollTimer (this w)) = true /\
  reconnecting (this w) = true /\
  connected (this w) = false /\
  reconnectTimers w = O /\
  connectionTimers w = ∅ /\
  all_sockets_down w.

(** The reconnect machinery rests as in [w0]: no socket is connecting or
    open and no connection timeout is armed; the attempt counter, the
    fallback flag, the armed reconnect timer and the number of sockets
    made so far are those of [w0]; REST polling goes on if [w0] is in
    fallback. *)
Definition resting (w0 w : World) : Prop :=
  reconnecting (this w) = true /\
  connected (this w) = false /\
  connectionTimers w = ∅ /\
  all_sockets_down w /\
  reconnectTimers w = reconnectTimers w0 /\
  reconnectAttempts (this w) = reconnectAttempts (this w0) /\
  useRestFallback (this w) = useRestFallback (this w0) /\
  config (this w) = config (this w0) /\
  List.length (sockets w) = List.length (sockets w0) /\
  (useRestFallback (this w0) = true ->
   isSet (restPollTimer (this w)) = true).

(** Nothing of the reconnect machinery shows in the outputs. *)
Definition silent (h : list Output) : Prop :=
  Forall (fun o => is_reconnect_activity o = false) h.

Definition at_rest (w0 w : World) (h : list Output) : Prop :=
  resting w0 w /\ silent h.

(** A trace of events of the environment, with no call from strategy
    code. *)
Definition env_trace (evs : list (Z * Event)) : list (Z * Input) :=
  List.map (fun te => (fst te, Env (snd te))) evs.

Definition is_reconnect_timer (e : Event) : bool :=
  match e with ReconnectTimerFires => true | _ => false end.

(** Events among which the reconnect timer does not fire. *)
Definition uneventful (evs : list (Z * Event)) : Prop :=
  Forall (fun te => is_reconnect_timer (snd te) = false) evs.

(** Reconnect attempts that time out. An attempt is given by the events
    that come before it and the time at which its reconnect timer fires:
    [connect()] makes socket [k] then, and its connection timeout fires
    10 s later; the next attempt makes socket [k + 1]. *)
Fixpoint failed_attempts (attempts : list (list (Z * Event) * Z)) (k : nat)
  : list (Z * Input) :=
  match attempts with
  | [] => []
  | (before, t) :: rest =>
      env_trace before
      ++ (t, Env ReconnectTimerFires)
      :: (t + 10000, Env (ConnectionTimeoutFires k))
      :: failed_attempts rest (S k)
  end.

End ConnectorLogic.

(* ===================================================================== *)
(** * Symbol mapping between the perp and the spot market
      (static members of [HyperliquidConnector]) *)
(* ===================================================================== *)

Module Symbols.
Local Open Scope string_scope.
Local Open Scope list_scope.

(** [static PERP_TO_SPOT_MAP] *)
Definition PERP_TO_SPOT_MAP : list (string * string) :=
  [ ("BTC", "UBTC"); ("ETH", "UETH"); ("SOL", "USOL"); ("XPL", "UXPL");
    ("PUMP", "UPUMP"); ("FARTCOIN", "UFART"); ("PURR", "PURR");
    ("TRUMP", "TRUMP"); ("HYPE", "HYPE") ].

(** [static SPOT_TO_PERP_MAP] *)
Definition SPOT_TO_PERP_MAP : list (string * string) :=
  [ ("UBTC", "BTC"); ("UETH", "ETH"); ("USOL", "SOL"); ("UXPL", "XPL");
    ("UPUMP", "PUMP"); ("UFART", "FARTCOIN"); ("PURR", "PURR");
    ("TRUMP", "TRUMP"); ("HYPE", "HYPE") ].

(** The properties that an object literal inherits from
    [Object.prototype]: [MAP[key]] finds them when [key] is not an own
    property. All of them are functions or objects, hence truthy. *)
Definition inherited_keys : list string :=
  [ "constructor"; "__defineGetter__"; "__defineSetter__"; "hasOwnProperty";
    "__lookupGetter__"; "__lookupSetter__"; "isPrototypeOf";
    "propertyIsEnumerable"; "toString"; "valueOf"; "__proto__";
    "toLocaleString" ].

(** What a conversion returns: a symbol, or a member of
    [Object.prototype]. *)
Inductive Converted :=
| Symbol (s : string)
| Inherited (key : string).

(** The own property [key] of the table. *)
Fixpoint own (key : string) (table : list (string * string)) : option string :=
  match table with
  | [] => None
  | (k, v) :: rest => if String.eqb k key then Some v else own key rest
  end.

(** [MAP[symbol] || symbol] *)
Definition convert (table : list (string * string)) (symbol : string)
  : Converted :=
  match own symbol table with
  | Some v => Symbol v
  | None =>
      if existsb (String.eqb symbol) inherited_keys then Inherited symbol
      else Symbol symbol
  end.

(** [static perpToSpot(perpSymbol)] *)
Definition perpToSpot (perpSymbol : string) : Converted :=
  convert PERP_TO_SPOT_MAP perpSymbol.

(** [static spotToPerp(spotSymbol)] *)
Definition spotToPerp (spotSymbol : string) : Converted :=
  convert SPOT_TO_PERP_MAP spotSymbol.

(** [static getSymbolForMarket(symbol, isSpot)] *)
Definition getSymbolForMarket (symbol : string) (isSpot : bool) : Converted :=
  if isSpot then
    (* If input is perp symbol, convert to spot *)
    perpToSpot symbol
  else
    (* If input is spot symbol, convert to perp *)
    spotToPerp symbol.

(** The spot symbols that differ from their perp symbol, and the perp
    symbols that differ from their spot symbol. *)
Definition spot_only : list string :=
  [ "UBTC"; "UETH"; "USOL"; "UXPL"; "UPUMP"; "UFART" ].

Definition perp_only : list string :=
  [ "BTC"; "ETH"; "SOL"; "XPL"; "PUMP"; "FARTCOIN" ].

End Symbols.

(* ===================================================================== *)
(** * More states of the transport manager, and sample data *)
(* ===================================================================== *)

Module TransportLogic.
Import Num RateLimiter Quantizer Connector ConnectorLogic.
Local Open Scope string_scope.
Local Open Scope list_scope.

(** After [disconnect()]: the caller has shut the connector down, no
    socket is connecting or open and no timer of the reconnect machinery
    is armed. *)
Definition shut (w : World) : Prop :=
  intentionalDisconnect (this w) = true /\
  connected (this w) = false /\
  reconnectTimers w = O /\
  connectionTimers w = ∅ /\
  all_sockets_down w.

Definition stays_shut (w : World) (h : list Output) : Prop :=
  shut w /\ silent h.

(** The connection side of [w] is that of [w0]: flags, counters, the
    health and polling timers, the sockets and what the runtime holds
    for them. *)
Definition same_transport (w0 w : World) : Prop :=
  config (this w) = config (this w0) /\
  ws (this w) = ws (this w0) /\
  connected (this w) = connected (this w0) /\
  reconnecting (this w) = reconnecting (this w0) /\
  intentionalDisconnect (this w) = intentionalDisconnect (this w0) /\
  reconnectAttempts (this w) = reconnectAttempts (this w0) /\
  pingTimer (this w) = pingTimer (this w0) /\
  pongTimer (this w) = pongTimer (this w0) /\
  connectionTimeout (this w) = connectionTimeout (this w0) /\
  lastPongReceived (this w) = lastPongReceived (this w0) /\
  useRestFallback (this w) = useRestFallback (this w0) /\
  restPollTimer (this w) = restPollTimer (this w0) /\
  sockets w = sockets w0 /\
  connectPromises w = connectPromises w0 /\
  connectionTimers w = connectionTimers w0 /\
  reconnectTimers w = reconnectTimers w0 /\
  pongTimers w = pongTimers w0.

(** Code that has left the connection side alone since [w0] and has
    shown nothing of the reconnect machinery. *)
Definition undisturbed (w0 w : World) (h : list Output) : Prop :=
  same_transport w0 w /\ silent h.

(** ** Sample data *)

(** A snapshot with one bid, no ask and time [0]. *)
Definition sampleBook : BookData :=
  {| bd_coin := "BTC";
     bd_levels := Some [ [ {| px := "100000.5"; sz := "0.25"; n := 3 |} ];
                         [] ];
     bd_time := Some 0 |}.

Definition twoPerps : Meta :=
  {| universe := [ {| name := "BTC"; szDecimals := 5 |};
                   {| name := "ETH"; szDecimals := 4 |} ] |}.

(** Token 0 is USDC; PURR is token 1 and trades against it as pair 0;
    HYPE is token 150 and trades against it as pair 107. *)
Definition twoPairs : SpotMeta :=
  {| spot_universe :=
       [ {| tokens := [1; 0]; index := 0; pair_name := "PURR/USDC" |};
         {| tokens := [150; 0]; index := 107; pair_name := "@107" |} ];
     spot_tokens :=
       [ {| tk_index := 0; tk_name := "USDC"; tk_szDecimals := 8 |};
         {| tk_index := 1; tk_name := "PURR"; tk_szDecimals := 0 |};
         {| tk_index := 150; tk_name := "HYPE"; tk_szDecimals := 2 |} ] |}.

(** [online] with both metadata caches loaded. *)
Definition listed : World :=
  upd (set_spotMetaCache (Some twoPairs))
    (upd (set_metaCache (Some twoPerps)) online).

(** [online] with a request for the BTC book pending (id 1, sent at
    10 ms). *)
Definition asking : World :=
  fst (run [(10, App (CallRequestL2Book "BTC" 5))] online).

(** [online] after its socket has dropped at 100 ms: the first reconnect
    attempt is scheduled. *)
Definition dropped : World :=
  fst (run [(100, Env (WsClose 0))] online).

(** A snapshot with both sides, taken at 20 ms. *)
Definition bookAt20 : BookData :=
  {| bd_coin := "BTC";
     bd_levels := Some [ [ {| px := "100000"; sz := "1"; n := 1 |} ];
                         [ {| px := "100010"; sz := "2"; n := 1 |} ] ];
     bd_time := Some 20 |}.

(** [online] after [subscribeOrderbook('BTC')] at 10 ms and the reply
    with the snapshot at 20 ms: the staleness check is running. *)
Definition watching : World :=
  fst (run [(10, App (CallSubscribeOrderbook "BTC"));
            (20, Env (WsMessage 0
                        (Post 1 (Some {| rtype := "info";
                                         payload := PayloadL2Book bookAt20 |}))))]
           online).

(** A connector that gives up after one attempt, in fallback: connected
    at 5 ms, dropped at 100 ms, and the only attempt timed out. *)
Definition fallen : World :=
  fst (run [(0, App CallConnect); (5, Env (WsOpen 0));
            (100, Env (WsClose 0)); (1100, Env ReconnectTimerFires);
            (11100, Env (ConnectionTimeoutFires 1))]
           (boot {| opt_wallet := Some "0xabc"; opt_privateKey := Some "key";
                    opt_maxReconnectAttempts := Some 1;
                    opt_reconnectDelay := None;
                    opt_maxReconnectDelay := None; opt_pingInterval := None;
                    opt_pongTimeout := None; opt_stalenessThreshold := None;
                    opt_maxInflightRequests := None |} 0)).

End TransportLogic.
(* ===================================================================== *)
(** * Properties of the rate limiter *)
(* ===================================================================== *)

Module RateLimiterFacts.
Import RateLimiter.

Lemma cleanup_requests now l :
  requests (cleanup now l) = live (windowMs l) now (requests l).
Proof. reflexivity. Qed.

Lemma live_app w n xs ys : live w n (xs ++ ys) = live w n xs ++ live w n ys.
Proof. unfold live. apply List.filter_app. Qed.

(** A later purge subsumes an earlier one. *)
Lemma live_live w n1 n2 ts :
  n1 <= n2 -> live w n2 (live w n1 ts) = live w n2 ts.
Proof.
  intros Hle. unfold live. induction ts as [|t ts IH]; simpl; [reflexivity|].
  destruct (n1 - t <? w) eqn:E1; simpl.
  - rewrite IH. reflexivity.
  - rewrite IH. destruct (n2 - t <? w) eqn:E2; [|reflexivity].
    apply Z.ltb_lt in E2. apply Z.ltb_ge in E1. lia.
Qed.

Lemma live_length_mono w n1 n2 ts :
  n1 <= n2 -> (List.length (live w n2 ts) <= List.length (live w n1 ts))%nat.
Proof.
  intros Hle. unfold live. induction ts as [|t ts IH]; simpl; [lia|].
  destruct (n2 - t <? w) eqn:E2; destruct (n1 - t <? w) eqn:E1; simpl; lia.
Qed.

Lemma live_all w n ts :
  Forall (fun t => n - t < w) ts -> live w n ts = ts.
Proof.
  unfold live. induction 1 as [|t ts Ht _ IH]; simpl; [reflexivity|].
  apply Z.ltb_lt in Ht. rewrite Ht, IH. reflexivity.
Qed.

Lemma step_fields c l :
  maxRequests (snd (step c l)) = maxRequests l /\
  windowMs (snd (step c l)) = windowMs l.
Proof.
  destruct c as [now|now now']; simpl; unfold canRequest, tryRequest; simpl.
  - split; reflexivity.
  - destruct (_ >=? _); simpl; split; reflexivity.
Qed.

Lemma run_fields cs : forall l,
  maxRequests (fst (run cs l)) = maxRequests l /\
  windowMs (fst (run cs l)) = windowMs l.
Proof.
  induction cs as [|c cs IH]; intros l; simpl; [split; reflexivity|].
  destruct (step c l) as [ok l'] eqn:Es.
  specialize (IH l'). destruct (run cs l') as [lf acc]; simpl in *.
  pose proof (step_fields c l) as Hs. rewrite Es in Hs. simpl in Hs.
  destruct IH as [-> ->]. exact Hs.
Qed.

Lemma nondecreasing_cons t ts :
  nondecreasing (t :: ts) ->
  nondecreasing ts /\ Forall (fun u => t <= u) ts.
Proof.
  revert t. induction ts as [|u ts IH]; intros t H.
  - split; [exact I | constructor].
  - destruct H as [Htu Hrest]. split; [exact Hrest|].
    constructor; [exact Htu|].
    destruct (IH u Hrest) as [_ Hall].
    eapply List.Forall_impl; [|exact Hall]. intros x Hx. simpl in Hx. lia.
Qed.

Lemma nondecreasing_lower t u ts :
  t <= u -> nondecreasing (u :: ts) -> nondecreasing (t :: u :: ts).
Proof. intros Htu H. split; assumption. Qed.

Lemma nondecreasing_snoc ts t :
  nondecreasing ts -> Forall (fun u => u <= t) ts -> nondecreasing (ts ++ [t]).
Proof.
  induction ts as [|a ts IH]; intros Hs Hall; [exact I|].
  inversion Hall as [|? ? Ha Hall']; subst.
  destruct ts as [|b ts].
  - simpl. split; [exact Ha | exact I].
  - destruct Hs as [Hab Hs]. simpl. split; [exact Hab|].
    apply IH; assumption.
Qed.

Lemma nondecreasing_filter (f : Z -> bool) ts :
  nondecreasing ts -> nondecreasing (List.filter f ts).
Proof.
  induction ts as [|a ts IH]; intros Hs; [exact I|].
  destruct (nondecreasing_cons _ _ Hs) as [Hts Hall].
  simpl. destruct (f a); [|apply IH; exact Hts].
  specialize (IH Hts).
  assert (Hall' : Forall (fun u => a <= u) (List.filter f ts)).
  { apply List.Forall_forall. intros x Hx. apply List.filter_In in Hx.
    destruct Hx as [Hx _]. rewrite List.Forall_forall in Hall. auto. }
  destruct (List.filter f ts) as [|b r]; [exact I|].
  inversion Hall'; subst. split; assumption.
Qed.

Section Window.
Variables (mx w : Z).

Local Abbreviation admissible := (RateLimiter.admissible mx w).
Local Abbreviation tracks := (RateLimiter.tracks mx w).

Lemma admissible_nil : admissible [].
Proof. intros [|? ?] t l2 H; discriminate H. Qed.

Lemma admissible_snoc acc t :
  admissible acc ->
  Z.of_nat (List.length (live w t acc)) < mx ->
  admissible (acc ++ [t]).
Proof.
  intros Hacc Ht l1 u l2 Heq.
  destruct l2 as [|v l2] using List.rev_ind.
  - apply List.app_inj_tail in Heq. destruct Heq as [-> ->]. exact Ht.
  - clear IHl2. rewrite List.app_comm_cons, List.app_assoc in Heq.
    apply List.app_inj_tail in Heq. destruct Heq as [Heq _].
    eapply Hacc. exact Heq.
Qed.

Lemma admissible_prefix acc acc' :
  admissible (acc ++ acc') -> admissible acc.
Proof.
  intros H l1 t l2 Heq. apply (H l1 t (l2 ++ acc')).
  rewrite Heq, <- List.app_assoc. reflexivity.
Qed.

(** Timestamps of a span of length [w] that ends after [t] are all
    less than [w] ms before [t]. *)
Lemma in_span_le_live a t acc :
  t < a + w -> (in_span a w acc <= List.length (live w t acc))%nat.
Proof.
  intros Ht. unfold in_span, live.
  induction acc as [|u acc IH]; simpl; [lia|].
  destruct ((a <=? u) && (u <? a + w)) eqn:E; simpl.
  - apply andb_true_iff in E. destruct E as [E1 E2].
    apply Z.leb_le in E1.
    assert (Hu : (t - u <? w) = true) by (apply Z.ltb_lt; lia).
    rewrite Hu. simpl. lia.
  - destruct (t - u <? w); simpl; lia.
Qed.

Lemma admissible_span acc :
  admissible acc -> forall a, (Z.of_nat (in_span a w acc) <= Z.max 0 mx).
Proof.
  induction acc as [|t acc IH] using List.rev_ind; intros Hadm a.
  - unfold in_span; simpl. lia.
  - specialize (IH (admissible_prefix _ _ Hadm) a).
    unfold in_span in *. rewrite List.filter_app, List.length_app. simpl.
    destruct ((a <=? t) && (t <? a + w)) eqn:E; simpl; [|lia].
    apply andb_true_iff in E. destruct E as [_ E2]. apply Z.ltb_lt in E2.
    pose proof (in_span_le_live a t acc E2) as Hle. unfold in_span in Hle.
    pose proof (Hadm acc t [] eq_refl) as Hlt. lia.
Qed.

Lemma tracks_cleanup c l acc now :
  tracks c l acc -> c <= now -> tracks now (cleanup now l) acc.
Proof.
  intros (Hm & Hw & Hlive & Hsort & Hle) Hc.
  repeat split; simpl; try assumption.
  - intros n Hn. rewrite Hw. fold (live w now (requests l)).
    rewrite live_live by exact Hn. apply Hlive. lia.
  - apply nondecreasing_filter. exact Hsort.
  - apply List.Forall_forall. intros x Hx. apply List.filter_In in Hx.
    destruct Hx as [Hx _]. rewrite List.Forall_forall in Hle.
    specialize (Hle x Hx). simpl in Hle. lia.
Qed.

Lemma run_tracks cs : forall c l acc0,
  tracks c l acc0 -> admissible acc0 ->
  nondecreasing (c :: clock_of cs) ->
  admissible (acc0 ++ snd (run cs l)) /\
  nondecreasing (requests (fst (run cs l))).
Proof.
  induction cs as [|k cs IH]; intros c l acc0 Htr Hadm Hclk.
  - simpl. rewrite List.app_nil_r. split; [exact Hadm|]. apply Htr.
  - simpl. destruct k as [now|now now'].
    + (* canRequest *)
      simpl in Hclk. destruct Hclk as [Hc Hclk].
      unfold step, canRequest.
      pose proof (tracks_cleanup c l acc0 now Htr Hc) as Htr'.
      specialize (IH now (cleanup now l) acc0 Htr' Hadm Hclk).
      destruct (run cs (cleanup now l)) as [lf acc]. exact IH.
    + (* tryRequest *)
      simpl in Hclk. destruct Hclk as [Hc [Hnn Hclk]].
      unfold step, tryRequest.
      pose proof (tracks_cleanup c l acc0 now Htr Hc) as Htr'.
      destruct (Z.of_nat (List.length (requests (cleanup now l)))
                >=? maxRequests (cleanup now l)) eqn:Efull.
      * assert (Htr'' : tracks now' (cleanup now l) acc0).
        { destruct Htr' as (Hm & Hw & Hlive & Hsort & Hle).
          repeat split; try assumption.
          - intros n Hn. apply Hlive. lia.
          - eapply List.Forall_impl; [|exact Hle]. intros x Hx. simpl in Hx. lia. }
        specialize (IH now' (cleanup now l) acc0 Htr'' Hadm Hclk).
        destruct (run cs (cleanup now l)) as [lf acc]. exact IH.
      * set (l2 := {| maxRequests := maxRequests (cleanup now l);
                      windowMs := windowMs (cleanup now l);
                      requests := requests (cleanup now l) ++ [now'] |}).
        destruct Htr' as (Hm & Hw & Hlive & Hsort & Hle).
        assert (Htr2 : tracks now' l2 (acc0 ++ [now'])).
        { repeat split; simpl; try assumption.
          - intros n Hn. rewrite !live_app, Hlive by lia. reflexivity.
          - apply nondecreasing_snoc; [exact Hsort|].
            eapply List.Forall_impl; [|exact Hle]. intros x Hx. simpl in Hx. lia.
          - apply Forall_app. split.
            + eapply List.Forall_impl; [|exact Hle]. intros x Hx. simpl in Hx. lia.
            + constructor; [lia | constructor]. }
        assert (Hadm2 : admissible (acc0 ++ [now'])).
        { apply admissible_snoc; [exact Hadm|].
          pose proof (Hlive now (Z.le_refl _)) as Hnow.
          destruct Htr as (_ & Hw0 & _).
          rewrite cleanup_requests, Hw0 in Hnow.
          rewrite live_live in Hnow by lia.
          rewrite cleanup_requests, Hw0, Hnow, Hm in Efull.
          pose proof (live_length_mono w now now' acc0 Hnn) as Hmono.
          lia. }
        specialize (IH now' l2 (acc0 ++ [now']) Htr2 Hadm2 Hclk).
        destruct (run cs l2) as [lf acc]. simpl in *.
        rewrite <- List.app_assoc in IH. exact IH.
Qed.

End Window.

Lemma filter_same_length {A} (f : A -> bool) (xs : list A) :
  List.length (List.filter f xs) = List.length xs -> List.filter f xs = xs.
Proof.
  induction xs as [|x xs IH]; simpl; [reflexivity|].
  pose proof (List.filter_length_le f xs) as Hle.
  destruct (f x); simpl; intros H.
  - f_equal. apply IH. lia.
  - lia.
Qed.

Lemma cleanup_id now l :
  live (windowMs l) now (requests l) = requests l -> cleanup now l = l.
Proof.
  intros H. destruct l as [m w rs]. unfold cleanup; simpl in *.
  unfold live in H. rewrite H. reflexivity.
Qed.

Lemma cleanup_bounded now l : bounded l -> bounded (cleanup now l).
Proof.
  unfold bounded; simpl. intros H.
  pose proof (List.filter_length_le
                (fun timestamp => now - timestamp <? windowMs l) (requests l)).
  lia.
Qed.

Lemma step_bounded c l : bounded l -> bounded (snd (step c l)).
Proof.
  intros H. destruct c as [now|now now']; simpl.
  - apply cleanup_bounded, H.
  - unfold tryRequest.
    pose proof (cleanup_bounded now l H) as Hc.
    destruct (_ >=? _) eqn:E; simpl; [exact Hc|].
    unfold bounded in *; simpl in *. rewrite List.length_app. simpl. lia.
Qed.

Lemma run_bounded cs : forall l, bounded l -> bounded (fst (run cs l)).
Proof.
  induction cs as [|c cs IH]; intros l H; simpl; [exact H|].
  pose proof (step_bounded c l H) as Hs.
  destruct (step c l) as [ok l']. simpl in Hs.
  specialize (IH l' Hs). destruct (run cs l') as [lf acc]. exact IH.
Qed.

Lemma constructor_bounded a b : bounded (constructor a b).
Proof. unfold bounded; simpl. lia. Qed.

Lemma fresh_tracks a b c :
  tracks (or_default a 100) (or_default b 1000) c (constructor a b) [].
Proof.
  repeat split; simpl; auto.
Qed.

(** ** C8 *)

(** C8. A limiter built with [maxRequests = 3] and [windowMs = 1000],
    driven by any sequence of [canRequest]/[tryRequest] calls under a
    clock that never goes back: no span [[a, a + 1000)] contains more
    than three granted timestamps; its array stays sorted; and once the
    array holds three timestamps, the oldest being [t1], a further
    [tryRequest] is refused without side effect at every reading before
    [t1 + 1000] and is granted at every reading from [t1 + 1000] on. *)
Theorem window_3_per_1000 (cs : list call) (a : Z) :
  nondecreasing (clock_of cs) ->
  let l := fst (run cs (constructor (Some 3) (Some 1000))) in
  let granted := snd (run cs (constructor (Some 3) (Some 1000))) in
  (in_span a 1000 granted <= 3)%nat /\
  forall t1 t2 t3 now now', requests l = [t1; t2; t3] ->
    (now < t1 + 1000 -> tryRequest now now' l = (false, l)) /\
    (t1 + 1000 <= now -> fst (tryRequest now now' l) = true).
Proof.
  intros Hclk l granted.
  assert (Hrun : admissible 3 1000 ([] ++ granted) /\
                 nondecreasing (requests l)).
  { apply (run_tracks 3 1000 cs (List.hd 0 (clock_of cs))).
    - apply (fresh_tracks (Some 3) (Some 1000)).
    - apply admissible_nil.
    - destruct (clock_of cs) as [|c0 r]; simpl; [exact I|].
      split; [lia | exact Hclk]. }
  destruct Hrun as [Hadm Hsort]. simpl in Hadm.
  split.
  - pose proof (admissible_span 3 1000 granted Hadm a). lia.
  - intros t1 t2 t3 now now' Hreq.
    destruct (run_fields cs (constructor (Some 3) (Some 1000))) as [Hm Hw].
    fold l in Hm, Hw. simpl in Hm, Hw.
    rewrite Hreq in Hsort. simpl in Hsort. destruct Hsort as [H12 [H23 _]].
    split.
    + intros Hnow. unfold tryRequest.
      assert (Hid : cleanup now l = l).
      { apply cleanup_id. rewrite Hw, Hreq. apply live_all.
        repeat constructor; lia. }
      rewrite Hid, Hreq, Hm. reflexivity.
    + intros Hnow. unfold tryRequest. rewrite cleanup_requests.
      simpl maxRequests. rewrite Hw, Hreq, Hm. unfold live. simpl.
      assert (E1 : (now - t1 <? 1000) = false) by (apply Z.ltb_ge; lia).
      rewrite E1.
      destruct (now - t2 <? 1000); destruct (now - t3 <? 1000); reflexivity.
Qed.

(** The three grants at 0, 10 and 20 ms fill the window; the requests at
    500 and 999 ms are refused, the one at 1000 ms is granted. *)
Lemma window_3_per_1000_witness :
  let cs := [TryRequest 0 0; TryRequest 10 10; TryRequest 20 20;
             TryRequest 500 500; TryRequest 999 999; TryRequest 1000 1000] in
  let granted := snd (run cs (constructor (Some 3) (Some 1000))) in
  granted = [0; 10; 20; 1000] /\ (in_span 1 1000 granted <= 3)%nat.
Proof.
  intros cs granted. split; [reflexivity|].
  apply (window_3_per_1000 cs 1). simpl. lia.
Defined.

(** ** C9 *)

(** C9, as stated, fails: [canRequest] purges. A limiter that granted one
    request at 0 ms holds [[0]]; a [canRequest] at 2000 ms leaves [[]]. *)
Lemma canRequest_purges_expired :
  let l := fst (run [TryRequest 0 0] (constructor (Some 3) (Some 1000))) in
  requests l = [0] /\ requests (snd (canRequest 2000 l)) = [] /\
  requests (snd (canRequest 2000 l)) <> requests l.
Proof. simpl. repeat split. discriminate. Qed.

(** C9, amended. On every state a limiter can reach, [canRequest] and a
    refused [tryRequest] record nothing: [canRequest] leaves exactly the
    timestamps younger than [windowMs], in order (so the limiter is
    unchanged when none has expired), and a [tryRequest] that returns
    [false] leaves the limiter as it was. *)
Theorem check_only_purges (optMax optWin : option Z) (cs : list call)
    (now now' : Z) :
  let l := fst (run cs (constructor optMax optWin)) in
  requests (snd (canRequest now l)) = live (windowMs l) now (requests l) /\
  (Forall (fun t => now - t < windowMs l) (requests l) ->
     snd (canRequest now l) = l) /\
  (fst (tryRequest now now' l) = false -> snd (tryRequest now now' l) = l).
Proof.
  intros l. split; [reflexivity|]. split.
  - intros Hall. simpl. apply cleanup_id, live_all, Hall.
  - assert (Hb : bounded l)
      by (apply run_bounded, constructor_bounded).
    unfold tryRequest.
    destruct (_ >=? _) eqn:E; simpl; [intros _ | discriminate].
    apply cleanup_id. apply filter_same_length.
    pose proof (List.filter_length_le
                  (fun timestamp => now - timestamp <? windowMs l) (requests l)) as Hle.
    unfold bounded in Hb. simpl in E. unfold live. lia.
Qed.

(** A full window, 500 ms after the first grant: the check and the
    refused request leave the three timestamps as they are. *)
Lemma check_only_purges_witness :
  let l := fst (run [TryRequest 0 0; TryRequest 10 10; TryRequest 20 20]
                    (constructor (Some 3) (Some 1000))) in
  requests l = [0; 10; 20] /\
  snd (canRequest 500 l) = l /\
  fst (tryRequest 500 500 l) = false /\ snd (tryRequest 500 500 l) = l.
Proof.
  intros l.
  destruct (check_only_purges (Some 3) (Some 1000)
              [TryRequest 0 0; TryRequest 10 10; TryRequest 20 20] 500 500)
    as (_ & Hcan & Htry).
  split; [reflexivity|]. split.
  - apply Hcan. repeat constructor.
  - split; [reflexivity|]. apply Htry. reflexivity.
Defined.

End RateLimiterFacts.

(* ===================================================================== *)
(** * Properties of the quantizer *)
(* ===================================================================== *)

Module QuantizerFacts.
Import Num Quantizer.
Local Open Scope string_scope.

(** The conversions agree with what a JS engine prints. *)
Example toString_sum : toString (add (parseFloat "0.1") (parseFloat "0.2"))
                       = "0.30000000000000004".
Proof. vm_compute. reflexivity. Qed.

Example toFixed_1_005 : toFixed (parseFloat "1.005") 2 = Some "1.00".
Proof. vm_compute. reflexivity. Qed.

Example toPrecision_large : toPrecision (of_Z 123456) 5 = Some "1.2346e+5".
Proof. vm_compute. reflexivity. Qed.

Example toString_large : toString (parseFloat "1.5e30") = "1.5e+30".
Proof. vm_compute. reflexivity. Qed.

(** The worked example of the specification: size [0.1234] with two size
    decimals, price [12345.678] on a perp with two size decimals. *)
Example roundSize_example : roundSize (parseFloat "0.1234") 2 = Some "0.12".
Proof. vm_compute. reflexivity. Qed.

Example roundPrice_example :
  roundPrice (parseFloat "12345.678") 2 false = Some "12346".
Proof. vm_compute. reflexivity. Qed.

(** The pattern leaves a numeral without trailing zeros alone and cuts
    the zeros of a fraction, with the point when nothing else follows it. *)
Example strip_fraction : remove_trailing_zeros "100.00" = "100".
Proof. reflexivity. Qed.

Example strip_exponent : remove_trailing_zeros "1.5e+30" = "1.5e+3".
Proof. reflexivity. Qed.

(** C5. [roundPrice] rounds an integral price to five significant
    figures like any other: for [123456] it returns ["123460"], not
    ["123456"]. *)
Theorem roundPrice_integral_is_capped :
  roundPrice (of_Z 123456) 0 false = Some "123460" /\
  toString (of_Z 123456) = "123456".
Proof. split; vm_compute; reflexivity. Qed.

(** C6. A price that prints in exponent notation loses the trailing
    zeros of its exponent: [roundPrice(1.5e30, 0, false)] is ["1.5e+3"],
    and rounding the value of that text again gives ["1500"]. *)
Theorem roundPrice_not_idempotent :
  roundPrice (parseFloat "1.5e30") 0 false = Some "1.5e+3" /\
  roundPrice (parseFloat "1.5e+3") 0 false = Some "1500".
Proof. split; vm_compute; reflexivity. Qed.

(** A spot price below [1e-6] comes out in exponent notation. *)
Example roundPrice_small_spot :
  roundPrice (parseFloat "0.0000005") 0 true = Some "5e-7" /\
  plain_decimal "5e-7" = false.
Proof. split; vm_compute; reflexivity. Qed.

(** C7. The same happens to a size: [roundSize(1.5e30, 0)] is ["1.5e+3"],
    and rounding the value of that text again gives ["1500"]. *)
Theorem roundSize_not_idempotent :
  roundSize (parseFloat "1.5e30") 0 = Some "1.5e+3" /\
  roundSize (parseFloat "1.5e+3") 0 = Some "1500".
Proof. split; vm_compute; reflexivity. Qed.

End QuantizerFacts.

(* ===================================================================== *)
(** * Properties of the connector *)
(* ===================================================================== *)

Module ConnectorFacts.
Import Num RateLimiter Quantizer Connector ConnectorLogic.
Local Open Scope string_scope.
Local Open Scope list_scope.

(** ** Invariants through stretches of code *)

Section Keeps.
Variable Inv : World -> list Output -> Prop.

Lemma keeps_ret {A} (v : A) : keeps Inv (ret v).
Proof. intros w h H. simpl. rewrite List.app_nil_r. exact H. Qed.

Lemma keeps_throw {A} (e : error) : keeps Inv (@throw A e).
Proof. intros w h H. simpl. rewrite List.app_nil_r. exact H. Qed.

Lemma keeps_get : keeps Inv get.
Proof. intros w h H. simpl. rewrite List.app_nil_r. exact H. Qed.

Lemma keeps_bind {A B} (m : M A) (k : A -> M B) :
  keeps Inv m -> (forall v, keeps Inv (k v)) -> keeps Inv (bind m k).
Proof.
  intros Hm Hk w h H. unfold bind.
  specialize (Hm w h H). destruct (m w) as [[res w1] out1]. simpl in Hm.
  destruct res as [v|e]; [|exact Hm].
  specialize (Hk v w1 (h ++ out1) Hm).
  destruct (k v w1) as [[res2 w2] out2]. simpl in *.
  rewrite List.app_assoc. exact Hk.
Qed.

(** The continuation may use that the world it was given is the
    current one. *)
Lemma keeps_read {A} (k : World -> M A) :
  (forall w h, Inv w h -> Inv (snd (fst (k w w))) (h ++ snd (k w w))) ->
  keeps Inv (bind get k).
Proof.
  intros Hk w h H. unfold bind, get. specialize (Hk w h H).
  destruct (k w w) as [[res2 w2] out2]. simpl in *. exact Hk.
Qed.

Lemma keeps_try_catch {A} (m : M A) (handler : error -> M A) :
  keeps Inv m -> (forall e, keeps Inv (handler e)) ->
  keeps Inv (try_catch m handler).
Proof.
  intros Hm Hk w h H. unfold try_catch.
  specialize (Hm w h H). destruct (m w) as [[res w1] out1]. simpl in Hm.
  destruct res as [v|e]; [exact Hm|].
  specialize (Hk e w1 (h ++ out1) Hm).
  destruct (handler e w1) as [[res2 w2] out2]. simpl in *.
  rewrite List.app_assoc. exact Hk.
Qed.

Lemma keeps_when (cond : bool) (m : M unit) :
  keeps Inv m -> keeps Inv (when cond m).
Proof. intros Hm. destruct cond; [exact Hm | apply keeps_ret]. Qed.

Lemma keeps_for_each {A} (xs : list A) (body : A -> M unit) :
  (forall x, keeps Inv (body x)) -> keeps Inv (for_each xs body).
Proof.
  intros Hb. induction xs as [|x xs IH]; simpl.
  - apply keeps_ret.
  - apply keeps_bind; [apply Hb | intros _; exact IH].
Qed.

Lemma keeps_modify (f : World -> World) :
  (forall w h, Inv w h -> Inv (f w) h) -> keeps Inv (modify f).
Proof. intros Hf w h H. simpl. rewrite List.app_nil_r. auto. Qed.

Lemma keeps_assign (f : Connector -> Connector) :
  (forall w h, Inv w h -> Inv (upd f w) h) -> keeps Inv (assign f).
Proof. intros Hf. apply keeps_modify. exact Hf. Qed.

Lemma keeps_tell (o : Output) :
  (forall w h, Inv w h -> Inv w (h ++ [o])) -> keeps Inv (tell o).
Proof. intros Ho w h H. simpl. auto. Qed.

(** The same rules for a given world, where the code has looked at
    it. *)
Lemma keeps_at_intro {A} (m : M A) :
  (forall w h, Inv w h -> keeps_at Inv m w h) -> keeps Inv m.
Proof. intros H. exact H. Qed.

Lemma keeps_at_of {A} (m : M A) w h :
  keeps Inv m -> Inv w h -> keeps_at Inv m w h.
Proof. intros Hm H. exact (Hm w h H). Qed.

Lemma keeps_at_bind {A B} (m : M A) (k : A -> M B) w h :
  keeps_at Inv m w h -> (forall v, keeps Inv (k v)) ->
  keeps_at Inv (bind m k) w h.
Proof.
  unfold keeps_at, bind. intros Hm Hk.
  destruct (m w) as [[res w1] out1]. simpl in Hm.
  destruct res as [v|e]; [|exact Hm].
  specialize (Hk v w1 (h ++ out1) Hm).
  destruct (k v w1) as [[res2 w2] out2]. simpl in *.
  rewrite List.app_assoc. exact Hk.
Qed.

Lemma keeps_at_read {A} (k : World -> M A) w h :
  keeps_at Inv (k w) w h -> keeps_at Inv (bind get k) w h.
Proof.
  unfold keeps_at, bind, get. intros Hk.
  destruct (k w w) as [[res2 w2] out2]. simpl in *. exact Hk.
Qed.

Lemma keeps_at_try_catch {A} (m : M A) (handler : error -> M A) w h :
  keeps_at Inv m w h -> (forall e, keeps Inv (handler e)) ->
  keeps_at Inv (try_catch m handler) w h.
Proof.
  unfold keeps_at, try_catch. intros Hm Hk.
  destruct (m w) as [[res w1] out1]. simpl in Hm.
  destruct res as [v|e]; [exact Hm|].
  specialize (Hk e w1 (h ++ out1) Hm).
  destruct (handler e w1) as [[res2 w2] out2]. simpl in *.
  rewrite List.app_assoc. exact Hk.
Qed.

Lemma keeps_at_when (cond : bool) (m : M unit) w h :
  Inv w h -> (cond = true -> keeps_at Inv m w h) ->
  keeps_at Inv (when cond m) w h.
Proof.
  intros H Hm. destruct cond; [apply Hm; reflexivity|].
  unfold keeps_at. simpl. rewrite List.app_nil_r. exact H.
Qed.

Lemma keeps_at_ret {A} (v : A) w h : Inv w h -> keeps_at Inv (ret v) w h.
Proof. intros H. unfold keeps_at. simpl. rewrite List.app_nil_r. exact H. Qed.

Lemma keeps_exec {A} (m : M A) w h :
  keeps Inv m -> Inv w h -> Inv (fst (exec m w)) (h ++ snd (exec m w)).
Proof.
  intros Hm H. specialize (Hm w h H). unfold exec.
  destruct (m w) as [[res w1] out1]. exact Hm.
Qed.

(** An invariant that every input keeps holds along every run. *)
Lemma keeps_run (allowed : Input -> Prop) :
  (forall now i, allowed i -> keeps Inv (handle now i)) ->
  forall tr w h, Forall (fun ti => allowed (snd ti)) tr ->
    Inv w h -> Inv (fst (run tr w)) (h ++ snd (run tr w)).
Proof.
  intros Hi tr. induction tr as [|[now i] tr IH]; intros w h Hall H.
  - simpl. rewrite List.app_nil_r. exact H.
  - inversion Hall as [|? ? Hhd Htl]; subst. simpl in Hhd.
    simpl. unfold step. simpl.
    pose proof (keeps_exec (handle now i) w h (Hi now i Hhd) H) as H1.
    destruct (exec (handle now i) w) as [w1 out1]. simpl in H1.
    specialize (IH w1 (h ++ out1) Htl H1).
    destruct (run tr w1) as [w2 out2]. simpl in *.
    rewrite List.app_assoc. exact IH.
Qed.

Lemma keeps_meanwhile (allowed : Input -> Prop) tr :
  (forall now i, allowed i -> keeps Inv (handle now i)) ->
  Forall (fun ti => allowed (snd ti)) tr ->
  keeps Inv (meanwhile tr).
Proof.
  intros Hi Hall w h H. unfold meanwhile.
  pose proof (keeps_run allowed Hi tr w h Hall H) as Hr.
  destruct (run tr w) as [w' out]. exact Hr.
Qed.

End Keeps.

Create HintDb keeps.

(** The head constant of an application. *)
Ltac head_of t :=
  lazymatch t with
  | ?f _ => head_of f
  | _ => t
  end.

(** Walks through a stretch of code; [side] proves that an assignment or
    an output keeps the invariant. What has no rule is unfolded. *)
Ltac keeps_walk side :=
  repeat
    lazymatch goal with
    | |- keeps _ (bind _ _) => apply keeps_bind; [| intro]
    | |- keeps _ (ret _) => apply keeps_ret
    | |- keeps _ (throw _) => apply keeps_throw
    | |- keeps _ get => apply keeps_get
    | |- keeps _ (when _ _) => apply keeps_when
    | |- keeps _ (try_catch _ _) => apply keeps_try_catch; [| intro]
    | |- keeps _ (for_each _ _) => apply keeps_for_each; intro
    | |- keeps _ (assign _) => apply keeps_assign; side
    | |- keeps _ (modify _) => apply keeps_modify; side
    | |- keeps _ (tell _) => apply keeps_tell; side
    | |- keeps _ (match ?x with _ => _ end) => destruct x eqn:?
    | |- keeps _ ?m =>
        first [ solve [auto with keeps]
              | let f := head_of m in progress (unfold f) ]
    end.

Local Arguments bind {A B} m k w /.
Local Arguments try_catch {A} m handler w /.
Local Arguments ret {A} v w /.
Local Arguments throw {A} e w /.
Local Arguments get w /.
Local Arguments modify f w /.
Local Arguments assign f w /.
Local Arguments tell o w /.
Local Arguments exec {A} m w /.
Local Arguments upd f w /.

(** What [clearPongTimeout] leaves: the field is empty, and the timeout
    it held is no longer armed. *)
Lemma clearPongTimeout_effect w :
  clearPongTimeout w
  = (Ok tt,
     set_pongTimers (if pongTimer (this w) then Nat.pred (pongTimers w)
                     else pongTimers w)
       (upd (set_pongTimer false) w),
     []).
Proof.
  unfold clearPongTimeout, when. simpl.
  destruct w as [o ? ? ? ? ? ? ?]. destruct o. simpl.
  match goal with |- context [if ?b then _ else _] => destruct b end;
    reflexivity.
Qed.

(** Symbolic execution of a stretch of code on a given world. *)
Ltac evaluate :=
  repeat (progress (simpl; unfold when; simpl;
                    rewrite ?clearPongTimeout_effect)).

(** ** C10: the staleness check *)

Lemma stale_has_snapshot now o coin :
  stale now o coin = true ->
  exists orderbook, orderbooks o !! coin = Some orderbook /\
                    now - timestamp orderbook > stalenessThreshold (config o).
Proof.
  unfold stale. destruct (orderbooks o !! coin) as [ob|]; [|discriminate].
  intros H. exists ob. split; [reflexivity|]. lia.
Qed.

Lemma anyStale_iff now o :
  anyStale now o = true <->
  exists coin orderbook,
    In coin (subscriptions o) /\ orderbooks o !! coin = Some orderbook /\
    now - timestamp orderbook > stalenessThreshold (config o).
Proof.
  unfold anyStale. rewrite List.existsb_exists. split.
  - intros (coin & Hin & Hst).
    destruct (stale_has_snapshot _ _ _ Hst) as (ob & Hob & Hage).
    exists coin, ob. auto.
  - intros (coin & ob & Hin & Hob & Hage). exists coin. split; [exact Hin|].
    unfold stale. rewrite Hob. lia.
Qed.

(** What the staleness callback leaves in [restPollTimer]. *)
Lemma stalenessCheck_timer now w :
  restPollTimer (this (fst (exec (stalenessCheck now) w))) =
    if negb (connected (this w)) || useRestFallback (this w)
    then restPollTimer (this w)
    else if anyStale now (this w)
         then match restPollTimer (this w) with
              | Some t => Some t
              | None => Some true
              end
         else None.
Proof.
  unfold stalenessCheck. evaluate.
  destruct (connected (this w)) eqn:Ec; simpl; [|reflexivity].
  destruct (useRestFallback (this w)) eqn:Eu; simpl; [reflexivity|].
  destruct (anyStale now (this w)) eqn:Es; simpl.
  - destruct (restPollTimer (this w)) eqn:Et; unfold startRestPolling;
      evaluate; rewrite ?Et; evaluate; rewrite ?Et; reflexivity.
  - destruct (restPollTimer (this w)) eqn:Et; unfold stopRestPolling;
      evaluate; rewrite ?Eu, ?Et; evaluate; rewrite ?Et; reflexivity.
Qed.

(** C10. An instrument without a cached snapshot is never classified as
    stale, whatever the clock reads: the check finds the same as if the
    instrument were not subscribed. When no subscribed instrument has a
    snapshot, the check finds nothing stale and does not start REST
    polling: it leaves no polling timer, or the one that was there. *)
Theorem staleness_needs_snapshot (now : Z) (w : World) (coin : string) :
  orderbooks (this w) !! coin = None ->
  stale now (this w) coin = false /\
  anyStale now (this w) =
    anyStale now (set_subscriptions
                    (List.filter (fun x => negb (String.eqb x coin))
                                 (subscriptions (this w))) (this w)) /\
  ((forall other, In other (subscriptions (this w)) ->
                  orderbooks (this w) !! other = None) ->
   anyStale now (this w) = false /\
   (restPollTimer (this (fst (exec (stalenessCheck now) w))) = None \/
    restPollTimer (this (fst (exec (stalenessCheck now) w)))
      = restPollTimer (this w))).
Proof.
  intros Hnone.
  assert (Hst : stale now (this w) coin = false)
    by (unfold stale; rewrite Hnone; reflexivity).
  split; [exact Hst|]. split.
  - unfold anyStale. simpl.
    induction (subscriptions (this w)) as [|x xs IH]; simpl; [reflexivity|].
    destruct (String.eqb x coin) eqn:E; simpl.
    + apply String.eqb_eq in E. subst x.
      rewrite Hst. simpl. exact IH.
    + unfold stale at 1 3. simpl. f_equal. exact IH.
  - intros Hall.
    assert (Hany : anyStale now (this w) = false).
    { destruct (anyStale now (this w)) eqn:E; [|reflexivity].
      apply anyStale_iff in E. destruct E as (c & ob & Hin & Hob & _).
      rewrite (Hall c Hin) in Hob. discriminate. }
    split; [exact Hany|].
    rewrite stalenessCheck_timer, Hany.
    destruct (negb (connected (this w)) || useRestFallback (this w)); auto.
Qed.

(** A subscription to BTC that never got a snapshot, checked after a
    billion milliseconds. *)
Lemma staleness_needs_snapshot_witness :
  let w := upd (set_subscriptions ["BTC"]) online in
  orderbooks (this w) !! "BTC" = None /\
  stale 1000000000 (this w) "BTC" = false /\
  restPollTimer (this (fst (exec (stalenessCheck 1000000000) w))) = None.
Proof.
  intros w.
  assert (H : orderbooks (this w) !! "BTC" = None) by reflexivity.
  split; [exact H|].
  destruct (staleness_needs_snapshot 1000000000 w "BTC" H) as (Hs & _ & _).
  split; [exact Hs | reflexivity].
Defined.

(** ** C1 and C2: the order constructor *)

Ltac undispatched_side :=
  let Hs := fresh "Hs" in
  let Hh := fresh "Hh" in
  intros ? ? [Hs Hh]; split;
  [ exact Hs
  | first [ exact Hh
          | apply List.Forall_app; split; [exact Hh | repeat constructor] ] ].

Lemma meanwhile_nil_keeps Inv : keeps Inv (meanwhile []).
Proof. intros w h H. simpl. rewrite List.app_nil_r. exact H. Qed.

#[local] Hint Resolve meanwhile_nil_keeps : keeps.

(** With nothing else going on, the first part of [createMarketOrder]
    fetches metadata at most: it leaves the limiters and the correlator
    alone, signs nothing and sends nothing. *)
Lemma quantizeOrder_undispatched env coin side size options w0 :
  whileLoading env = [] -> whileRetrying env = [] ->
  keeps (undispatched w0) (quantizeOrder env coin side size options).
Proof.
  intros Hl Hr. unfold quantizeOrder, getAssetId, getAssetInfo,
    getCoinForOrderbook, getMeta, getSpotMeta.
  rewrite Hl, Hr.
  keeps_walk undispatched_side.
Qed.

(** C2. Whenever a call of [createMarketOrder] gets to its notional test
    with [parseFloat(limitPriceStr) * parseFloat(sizeStr) < 10], it throws
    [BelowMinimumNotional] there and then: world and outputs are those of
    the first part. With nothing else going on during the call, that
    part has only fetched metadata: nothing was signed or sent, and the
    limiters, the correlator and the request timers are as before. *)
Theorem below_minimum_is_rejected env coin side size options w
    assetId limitPriceStr sizeStr w1 out1 :
  quantizeOrder env coin side size options w
    = (Ok (assetId, limitPriceStr, sizeStr), w1, out1) ->
  ltb (notional_of limitPriceStr sizeStr) (of_Z 10) = true ->
  createMarketOrder env coin side size options w
    = (Throw (BelowMinimumNotional (notional_of limitPriceStr sizeStr)),
       w1, out1) /\
  (whileLoading env = [] -> whileRetrying env = [] ->
   same_dispatch_state w w1 /\ Forall is_info_fetch out1).
Proof.
  intros Hq Hlt. split.
  - unfold createMarketOrder. simpl. rewrite Hq. unfold submitOrder.
    rewrite Hlt. simpl. rewrite List.app_nil_r. reflexivity.
  - intros Hl Hr.
    pose proof (quantizeOrder_undispatched env coin side size options w Hl Hr
                  w []) as H.
    rewrite Hq in H. simpl in H. apply H.
    split; [repeat split | constructor].
Qed.

(** An order of 0.00001 BTC at 105000: a notional of 1.05. *)
Lemma below_minimum_is_rejected_witness :
  fst (fst (createMarketOrder quiet "BTC" "buy" (parseFloat "0.00001")
              (atMid "100000" false) saturated))
  = Throw (BelowMinimumNotional (notional_of "105000" "0.00001")).
Proof.
  pose (q := quantizeOrder quiet "BTC" "buy" (parseFloat "0.00001")
               (atMid "100000" false) saturated).
  assert (Hq : q = (Ok (0, "105000", "0.00001"), snd (fst q), snd q))
    by (vm_compute; reflexivity).
  assert (Hlt : ltb (notional_of "105000" "0.00001") (of_Z 10) = true)
    by (vm_compute; reflexivity).
  destruct (below_minimum_is_rejected _ _ _ _ _ _ _ _ _ _ _ Hq Hlt) as [H _].
  fold q in H |- *. rewrite H. reflexivity.
Defined.

(** The dispatch of an order never looks at a limiter or at the number
    of requests in flight: whatever they hold, a connected connector
    with a signer signs and puts the frame on its open socket, and the
    REST path signs and posts; both leave the two limiters as they
    were. *)
Lemma dispatch_skips_limiters env action nonce vault w k :
  whileSigning env = [] -> signer (config (this w)) = true ->
  let payload :=
    signed_payload action nonce
      {| sig_action := action; sig_nonce := nonce;
         sig_vault := match vault with Some (String _ _) => true | _ => false end |}
      vault in
  (connected (this w) = true -> ws (this w) = Some k ->
   sockets w !! k = Some OPEN ->
   let '(res, w', out) := createOrderWebSocket env action nonce vault w in
   res = Ok (AwaitingReply (requestId (this w) + 1)) /\
   out = [Signed action nonce;
          WsSent k (requestId (this w) + 1) (ActionRequest payload)] /\
   wsRateLimiter (this w') = wsRateLimiter (this w) /\
   restRateLimiter (this w') = restRateLimiter (this w)) /\
  (let '(res, w', out) := createOrderRest env action nonce vault w in
   out = [Signed action nonce; ExchangePosted payload] /\
   wsRateLimiter (this w') = wsRateLimiter (this w) /\
   restRateLimiter (this w') = restRateLimiter (this w)).
Proof.
  intros Hs Hsig payload. split.
  - intros Hc Hws Hsock.
    unfold createOrderWebSocket, signAction, post, ws_send. rewrite Hs.
    evaluate. rewrite Hc. evaluate. rewrite Hsig. evaluate.
    rewrite Hws. evaluate. rewrite Hsock. evaluate. repeat split.
  - unfold createOrderRest, signAction. rewrite Hs.
    evaluate. rewrite Hsig. evaluate.
    destruct (exchangeReply env) as [status|]; evaluate;
      [destruct (_ && _)|]; evaluate;
      repeat split.
Qed.

(** C1. On a connected connector whose push limiter is full (1800
    requests in the last minute), an orderbook request is refused with
    [RateLimited], yet [createMarketOrder] signs and sends its order; the
    limiter is as before. With [useRest], the order is signed and posted
    without a slot of the poll limiter, where an orderbook poll takes
    one. *)
Theorem order_dispatch_ignores_limiters :
  let order := createMarketOrder quiet "BTC" "buy" (parseFloat "0.001") in
  let push := order (atMid "100000" false) saturated in
  let rest := order (atMid "100000" true) saturated in
  let poll := requestL2BookRest [1000; 1000; 1000] "BTC" saturated in
  fst (canRequest 1000 (wsRateLimiter (this saturated))) = false /\
  fst (fst (requestL2Book 1000 Caller "BTC" 5 saturated)) = Throw RateLimited /\
  fst (fst push) = Ok (AwaitingReply 1) /\
  (exists payload,
     List.last (snd push) (Emitted "") = WsSent 0 1 (ActionRequest payload)) /\
  wsRateLimiter (this (snd (fst push))) = wsRateLimiter (this saturated) /\
  fst (fst rest) = Ok RestReply /\
  (exists payload, List.last (snd rest) (Emitted "") = ExchangePosted payload) /\
  requests (restRateLimiter (this (snd (fst rest)))) = [] /\
  requests (restRateLimiter (this (snd (fst poll)))) = [1000].
Proof.
  cbv zeta.
  split; [vm_compute; reflexivity|].
  split; [vm_compute; reflexivity|].
  split; [vm_compute; reflexivity|].
  split; [eexists; vm_compute; reflexivity|].
  split; [vm_compute; reflexivity|].
  split; [vm_compute; reflexivity|].
  split; [eexists; vm_compute; reflexivity|].
  split; vm_compute; reflexivity.
Qed.

End ConnectorFacts.

(* ===================================================================== *)
(** * Properties of the request correlator *)
(* ===================================================================== *)

Module CorrelatorFacts.
Import Num RateLimiter Quantizer Connector ConnectorLogic ConnectorFacts.
Local Open Scope string_scope.
Local Open Scope list_scope.

Local Arguments bind {A B} m k w /.
Local Arguments try_catch {A} m handler w /.
Local Arguments ret {A} v w /.
Local Arguments throw {A} e w /.
Local Arguments get w /.
Local Arguments modify f w /.
Local Arguments assign f w /.
Local Arguments tell o w /.
Local Arguments exec {A} m w /.
Local Arguments upd f w /.

Lemma resolutions_app id h1 h2 :
  resolutions id (h1 ++ h2) = (resolutions id h1 + resolutions id h2)%nat.
Proof. unfold resolutions. rewrite List.filter_app, List.length_app. reflexivity. Qed.

Lemma resolutions_one id o :
  resolutions id [o] = if settles id o then 1%nat else 0%nat.
Proof. unfold resolutions. simpl. destruct (settles id o); reflexivity. Qed.

Section Correlator.
Variable dead : Z -> Prop.

(** Every way the correlator changes: ids only grow; what is pending
    afterwards was pending or is newly allocated, holds its own armed
    timer and is not settled by the outputs; the outputs settle a
    promise once at most, and only of a request that was pending or is
    newly allocated. *)
Lemma correlated_change w h w' outs :
  correlated_with dead w h ->
  requestId (this w) <= requestId (this w') ->
  (forall id pending, pendingRequests (this w') !! id = Some pending ->
     timeout pending = id /\ id ∈ requestTimers w' /\
     id <= requestId (this w') /\ resolutions id outs = O /\
     (is_Some (pendingRequests (this w) !! id) \/ requestId (this w) < id)) ->
  (forall id, (resolutions id outs <= 1)%nat) ->
  (forall id, resolutions id outs = 1%nat ->
     is_Some (pendingRequests (this w) !! id) \/ requestId (this w) < id) ->
  (forall id, requestId (this w') < id -> resolutions id outs = O) ->
  correlated_with dead w' (h ++ outs).
Proof.
  intros [(I1 & I2 & I3) Hd] Hle Hp Hone Hwho Hfresh.
  assert (Hzero : forall id,
             is_Some (pendingRequests (this w) !! id) \/ requestId (this w) < id ->
             resolutions id h = O).
  { intros id [[p Hp']|Hlt]; [apply (I1 id p Hp') | apply I3, Hlt]. }
  split; [split; [|split]|].
  - intros id p Hid. destruct (Hp id p Hid) as (Ht & Harm & Hid' & Hres & Hold).
    repeat split; try assumption.
    rewrite resolutions_app, Hres, (Hzero id Hold). reflexivity.
  - intros id. rewrite resolutions_app.
    specialize (Hone id). specialize (I2 id).
    destruct (resolutions id outs) as [|[|n]] eqn:E; [lia| |lia].
    rewrite (Hzero id (Hwho id E)). lia.
  - intros id Hlt. rewrite resolutions_app, (Hfresh id Hlt), I3 by lia.
    reflexivity.
  - intros id Hdead. destruct (Hd id Hdead) as (Hnone & Hid & Hres).
    split; [|split].
    + destruct (pendingRequests (this w') !! id) as [p|] eqn:E; [|reflexivity].
      destruct (Hp id p E) as (_ & _ & _ & _ & [[q Hq]|Hlt]).
      * rewrite Hnone in Hq. discriminate.
      * lia.
    + lia.
    + rewrite resolutions_app, Hres.
      specialize (Hone id).
      destruct (resolutions id outs) as [|[|n]] eqn:E; [reflexivity| |lia].
      destruct (Hwho id E) as [[q Hq]|Hlt].
      * rewrite Hnone in Hq. discriminate.
      * lia.
Qed.

(** A change that leaves the correlator alone. *)
Lemma correlated_frame w w' h :
  pendingRequests (this w') = pendingRequests (this w) ->
  requestId (this w') = requestId (this w) ->
  requestTimers w' = requestTimers w ->
  correlated_with dead w h -> correlated_with dead w' h.
Proof.
  intros Hp Hr Ht H.
  rewrite <- (List.app_nil_r h).
  apply (correlated_change w h w' []);
    [ exact H | rewrite Hr; lia | | intros id; unfold resolutions; simpl; lia
    | intros id; discriminate | intros; reflexivity ].
  intros id p Hid. rewrite Hp in Hid.
  destruct H as [(I1 & _ & _) _]. destruct (I1 id p Hid) as (? & ? & ? & ?).
  rewrite Ht, Hr. repeat split; try assumption. left. eauto.
Qed.

(** [this.pendingRequests.clear()] *)
Lemma correlated_cleared w w' h :
  pendingRequests (this w') = ∅ ->
  requestId (this w') = requestId (this w) ->
  correlated_with dead w h -> correlated_with dead w' h.
Proof.
  intros Hp Hr H.
  rewrite <- (List.app_nil_r h).
  apply (correlated_change w h w' []);
    [ exact H | rewrite Hr; lia | | intros id; unfold resolutions; simpl; lia
    | intros id; discriminate | intros; reflexivity ].
  intros id p Hid. rewrite Hp, lookup_empty in Hid. discriminate.
Qed.

(** An output that settles nothing. *)
Lemma correlated_quiet w h o :
  (forall id, settles id o = false) ->
  correlated_with dead w h -> correlated_with dead w (h ++ [o]).
Proof.
  intros Ho H.
  apply (correlated_change w h w [o]);
    [ exact H | lia | | intros id; rewrite resolutions_one, Ho; lia
    | intros id; rewrite resolutions_one, Ho; discriminate
    | intros id _; rewrite resolutions_one, Ho; reflexivity ].
  intros id p Hid.
  destruct H as [(I1 & _ & _) _]. destruct (I1 id p Hid) as (? & ? & ? & ?).
  rewrite resolutions_one, Ho. repeat split; try assumption. left. eauto.
Qed.

End Correlator.

(** An equation between sets of armed request timeouts. *)
Ltac timers_fin :=
  unfold requestTimers; simpl;
  rewrite ?dom_insert_L, ?dom_delete_L; clear; set_solver.

Ltac corr_fin :=
  first [ assumption | reflexivity | lia | set_solver
        | (left; solve [eauto]) | (right; lia) ].

Ltac settle_fin :=
  first [ reflexivity | eassumption | timers_fin
        | (let Hne := fresh in
           intros ? Hne; rewrite resolutions_one; simpl;
           match goal with
           | |- context [Z.eqb ?x ?y] =>
               destruct (Z.eqb_spec x y); [congruence | reflexivity]
           end)
        | (rewrite resolutions_one; destruct (settles _ _); lia)
        | (unfold resolutions; simpl; lia)
        | (intros; reflexivity) ].

Ltac correlated_side :=
  let w := fresh "w" in
  let h := fresh "h" in
  let H := fresh "H" in
  intros w h H;
  first [ apply (correlated_frame _ w); [reflexivity | reflexivity | reflexivity | exact H]
        | apply correlated_quiet; [intro; reflexivity | exact H]
        | apply (correlated_cleared _ w); [reflexivity | reflexivity | exact H] ].

Section CorrelatorKeeps.
Variable dead : Z -> Prop.
Local Abbreviation Inv := (correlated_with dead).

Lemma post_correlated now wt req : keeps Inv (post now wt req).
Proof.
  intros w h H. unfold post, ws_send, clearRequestTimeout. evaluate.
  pose proof H as [(I1 & I2 & I3) Hd].
  assert (Hnew : pendingRequests (this w) !! (requestId (this w) + 1) = None).
  { destruct (pendingRequests (this w) !! (requestId (this w) + 1)) as [p|] eqn:E;
      [|reflexivity].
    destruct (I1 _ _ E) as (_ & _ & Hle & _). lia. }
  assert (Hok : forall w' outs,
             requestId (this w') = requestId (this w) + 1 ->
             pendingRequests (this w')
               = <[requestId (this w) + 1 := {| waiter := wt; timeout := requestId (this w) + 1 |}]>
                   (pendingRequests (this w)) ->
             requestTimers w' = requestTimers w ∪ {[requestId (this w) + 1]} ->
             (forall id, resolutions id outs = O) ->
             Inv w' (h ++ outs)).
  { intros w' outs Hr Hp Ht Ho.
    apply (correlated_change dead w h w' outs);
      [ exact H | lia | | intros id; rewrite Ho; lia
      | intros id; rewrite Ho; discriminate | intros id _; apply Ho ].
    intros id p Hid. rewrite Hp in Hid. rewrite Hr, Ht, Ho.
    destruct (decide (id = requestId (this w) + 1)) as [->|Hne].
    + rewrite lookup_insert_eq in Hid. inversion Hid; subst; simpl.
      repeat split; corr_fin.
    + rewrite lookup_insert_ne in Hid by auto.
      destruct (I1 id p Hid) as (? & ? & ? & ?).
      repeat split; corr_fin. }
  assert (Hfail : forall w' e,
             requestId (this w') = requestId (this w) + 1 ->
             pendingRequests (this w')
               = delete (requestId (this w) + 1)
                   (<[requestId (this w) + 1 := {| waiter := wt; timeout := requestId (this w) + 1 |}]>
                      (pendingRequests (this w))) ->
             requestTimers w'
               = (requestTimers w ∪ {[requestId (this w) + 1]}) ∖ {[requestId (this w) + 1]} ->
             Inv w' (h ++ [Settled (requestId (this w) + 1) (inr e)])).
  { intros w' e Hr Hp Ht.
    rewrite delete_insert_eq in Hp.
    apply (correlated_change dead w h w');
      [ exact H | lia | | | | ].
    - intros id p Hid. rewrite Hp in Hid.
      assert (Hne : id <> requestId (this w) + 1).
      { intros ->. rewrite lookup_delete_eq in Hid. discriminate. }
      rewrite lookup_delete_ne in Hid by auto.
      destruct (I1 id p Hid) as (? & ? & ? & ?).
      rewrite Hr, Ht, resolutions_one. simpl.
      destruct (Z.eqb_spec (requestId (this w) + 1) id); [lia|].
      repeat split; corr_fin.
    - intros id. rewrite resolutions_one. destruct (settles _ _); lia.
    - intros id. rewrite resolutions_one. simpl.
      destruct (Z.eqb_spec (requestId (this w) + 1) id); [|discriminate].
      intros _. right. lia.
    - intros id Hlt. rewrite resolutions_one. simpl. rewrite Hr in Hlt.
      destruct (Z.eqb_spec (requestId (this w) + 1) id); [lia|reflexivity]. }
  destruct (ws (this w)) as [k|] eqn:Ews; evaluate.
  - destruct (sockets w !! k) as [[| | |]|] eqn:Es; evaluate;
      rewrite ?lookup_insert_eq; evaluate.
    + apply Hfail; first [reflexivity | timers_fin].
    + apply Hok; first [reflexivity | timers_fin].
    + apply Hok; first [reflexivity | timers_fin].
    + apply Hok; first [reflexivity | timers_fin].
    + apply Hok; first [reflexivity | timers_fin].
  - rewrite lookup_insert_eq. evaluate.
    apply Hfail; first [reflexivity | timers_fin].
Qed.

Lemma subscribeOrderbook_rest_correlated : keeps Inv subscribeOrderbook_rest.
Proof. unfold subscribeOrderbook_rest. keeps_walk correlated_side. Qed.

Lemma resume_correlated wt : keeps Inv (resume wt).
Proof.
  destruct wt; simpl; [apply subscribeOrderbook_rest_correlated | apply keeps_ret].
Qed.

Lemma updateOrderbook_correlated now data : keeps Inv (updateOrderbook now data).
Proof. unfold updateOrderbook. keeps_walk correlated_side. Qed.

(** Removing the entry of a pending request, with its timer, and
    settling its promise at most once. *)
Lemma correlated_settled w h w' id pending outs :
  Inv w h ->
  pendingRequests (this w) !! id = Some pending ->
  pendingRequests (this w') = delete id (pendingRequests (this w)) ->
  requestId (this w') = requestId (this w) ->
  requestTimers w' = requestTimers w ∖ {[id]} ->
  (forall id', id' <> id -> resolutions id' outs = O) ->
  (resolutions id outs <= 1)%nat ->
  Inv w' (h ++ outs).
Proof.
  intros H Hid Hp Hr Ht Hother Hone.
  pose proof H as [(I1 & I2 & I3) Hd].
  apply (correlated_change dead w h w'); [exact H | lia | | | | ].
  - intros id' p Hid'. rewrite Hp in Hid'.
    assert (Hne : id' <> id).
    { intros ->. rewrite lookup_delete_eq in Hid'. discriminate. }
    rewrite lookup_delete_ne in Hid' by auto.
    destruct (I1 id' p Hid') as (? & ? & ? & ?).
    rewrite Hr, Ht, (Hother id' Hne). repeat split; corr_fin.
  - intros id'. destruct (decide (id' = id)) as [->|Hne];
      [exact Hone | rewrite (Hother id' Hne); lia].
  - intros id' Hres. destruct (decide (id' = id)) as [->|Hne];
      [left; eauto | rewrite (Hother id' Hne) in Hres; discriminate].
  - intros id' Hlt. apply Hother. intros ->.
    destruct (I1 id pending Hid) as (_ & _ & Hle & _). lia.
Qed.


#[local] Hint Resolve post_correlated subscribeOrderbook_rest_correlated
  resume_correlated updateOrderbook_correlated : keeps.

Lemma fireRequestTimeout_correlated id : keeps Inv (fireRequestTimeout id).
Proof.
  apply keeps_at_intro. intros w h H.
  unfold fireRequestTimeout, requestTimeout.
  pose proof H as [(I1 & I2 & I3) Hd].
  destruct (pendingRequests (this w) !! id) as [pending|] eqn:Ep.
  - (* up to the rejection by hand, the waiter by the rules *)
    assert (Hsplit :
      keeps_at Inv
        (Connector.bind
           (Connector.bind
              (modify (fun w => set_requestTimeouts
                                  (delete id (requestTimeouts w)) w))
              (fun _ =>
                 Connector.bind
                   (assign (fun o => set_pendingRequests
                                       (delete id (pendingRequests o)) o))
                   (fun _ => tell (Settled id (inr RequestTimeout)))))
           (fun _ => resume (waiter pending))) w h).
    { apply keeps_at_bind; [|intros _; apply resume_correlated].
      unfold keeps_at. evaluate.
      eapply (correlated_settled w h _ id pending); settle_fin. }
    unfold keeps_at in *. revert Hsplit. evaluate. rewrite Ep. evaluate.
    destruct (resume (waiter pending) _) as [[res w2] out2]. simpl.
    intros Hsplit. exact Hsplit.
  - unfold keeps_at. evaluate. rewrite Ep. evaluate.
    apply (correlated_change dead w h _ []);
      [ exact H | simpl; lia | | intros i; unfold resolutions; simpl; lia
      | intros i; discriminate | intros; reflexivity ].
    intros id' p Hid'. simpl in Hid'.
    destruct (I1 id' p Hid') as (? & ? & ? & ?).
    assert (id' <> id) by (intros ->; rewrite Ep in Hid'; discriminate).
    simpl. repeat split; corr_fin.
Qed.

Lemma handleMessage_correlated now message : keeps Inv (handleMessage now message).
Proof.
  unfold handleMessage. apply keeps_try_catch; [|intro; apply keeps_ret].
  destruct message as [|id response|data|].
  - apply keeps_ret.
  - apply keeps_at_intro. intros w h H.
    apply keeps_at_read. cbv beta.
    pose proof H as [(I1 & I2 & I3) Hd].
    apply keeps_at_bind.
    + destruct (pendingRequests (this w) !! id) as [pending|] eqn:Ep.
      * destruct (I1 id pending Ep) as (Hto & _).
        unfold keeps_at, clearRequestTimeout. rewrite Hto.
        destruct response as [response|]; evaluate;
          [destruct (String.eqb (rtype response) "error"); evaluate|];
          rewrite ?List.app_nil_r.
        all: first
          [ eapply (correlated_settled w h _ id pending); settle_fin
          | rewrite <- (List.app_nil_r h);
            eapply (correlated_settled w h _ id pending); settle_fin ].
      * apply keeps_at_ret. exact H.
    + intros resumed. keeps_walk correlated_side.
  - apply updateOrderbook_correlated.
  - apply keeps_ret.
Qed.

#[local] Hint Resolve fireRequestTimeout_correlated
  handleMessage_correlated : keeps.

(** Every callback and every call keeps the correlator invariant. *)
Lemma handle_correlated now i : keeps Inv (handle now i).
Proof.
  destruct i as [e|c]; [destruct e | destruct c]; simpl;
    keeps_walk correlated_side.
Qed.

End CorrelatorKeeps.

Lemma boot_correlated dead options t0 :
  correlated_with dead (boot options t0) [] ->
  forall tr,
    correlated_with dead (fst (run tr (boot options t0)))
                         (snd (run tr (boot options t0))).
Proof.
  intros H tr.
  apply (keeps_run (correlated_with dead) (fun _ => True)
           (fun now i _ => handle_correlated dead now i) tr
           (boot options t0) []); [|exact H].
  apply List.Forall_forall. intros; exact I.
Qed.

Lemma boot_correlated_plain options t0 :
  correlated_with (fun _ => False) (boot options t0) [].
Proof.
  split; [split; [|split]|].
  - intros id p Hp. simpl in Hp. rewrite lookup_empty in Hp. discriminate.
  - intros id. unfold resolutions. simpl. lia.
  - intros; reflexivity.
  - intros id [].
Qed.

(** What resuming a waiter leaves alone. *)
Lemma resume_silent wt w :
  pendingRequests (this (snd (fst (resume wt w)))) = pendingRequests (this w) /\
  snd (resume wt w) = [].
Proof.
  destruct wt; simpl; [|split; reflexivity].
  unfold subscribeOrderbook_rest, startStalenessMonitoring,
    startPeriodicRestRefresh. evaluate.
  destruct (stalenessTimer (this w)); evaluate;
    destruct (restRefreshTimer (this w));
    destruct (List.length (subscriptions (this w)) =? 1)%nat;
    evaluate; split; reflexivity.
Qed.

(** ** The request timeouts *)


Section RequestTimeouts.
Variable t : Z.
Variable w0 : World.

Lemma post_timed wt req : keeps (timed t w0) (post t wt req).
Proof.
  intros w h (T1 & T2 & T3 & T4 & T5).
  unfold post, ws_send, clearRequestTimeout. evaluate.
  assert (Hkept : forall w',
            requestId (this w') = requestId (this w) + 1 ->
            (forall id due, requestTimeouts w' !! id = Some due ->
               id = requestId (this w) + 1 /\ due = t + 10000 \/
               requestTimeouts w !! id = Some due) ->
            (forall id p, pendingRequests (this w') !! id = Some p ->
               id = requestId (this w) + 1 \/
               pendingRequests (this w) !! id = Some p) ->
            forall outs, timed t w0 w' (h ++ outs)).
  { intros w' Hr Ht Hp outs. split; [|split; [|split; [|split]]].
    - intros id Hid. unfold requestTimers in Hid.
      apply elem_of_dom in Hid as [due Hdue].
      destruct (Ht id due Hdue) as [[-> _]|Hold]; [lia|].
      assert (id <= requestId (this w)); [|lia].
      apply T1. unfold requestTimers. apply elem_of_dom. eauto.
    - lia.
    - intros id due Hid Hdue. destruct (Ht id due Hdue) as [[-> _]|Hold].
      + lia.
      + apply (T3 id due Hid Hold).
    - intros id due Hid Hdue. destruct (Ht id due Hdue) as [[_ ->]|Hold].
      + reflexivity.
      + apply (T4 id due Hid Hold).
    - intros id p Hid. destruct (Hp id p Hid) as [->|Hold].
      + right. lia.
      + apply (T5 id p Hold). }
  assert (Hins : forall (A : Type) (m : gmap Z A) (i j : Z) (x y : A),
             <[i := x]> m !! j = Some y -> j = i /\ y = x \/ m !! j = Some y).
  { intros A m i j x y Hl. destruct (decide (j = i)) as [->|Hne].
    - rewrite lookup_insert_eq in Hl. left. split; congruence.
    - rewrite lookup_insert_ne in Hl by auto. right. exact Hl. }
  assert (Hdel : forall (A : Type) (m : gmap Z A) (i j : Z) (x y : A),
             delete i (<[i := x]> m) !! j = Some y -> m !! j = Some y).
  { intros A m i j x y Hl. apply lookup_delete_Some in Hl as [Hne Hl].
    rewrite lookup_insert_ne in Hl by auto. exact Hl. }
  destruct (ws (this w)) as [k|] eqn:Ews; evaluate.
  - destruct (sockets w !! k) as [[| | |]|] eqn:Es; evaluate;
      rewrite ?lookup_insert_eq; evaluate;
      (apply Hkept; simpl;
       [ reflexivity
       | intros id due Hid;
         first [ apply Hins in Hid; exact Hid
               | apply Hdel in Hid; right; exact Hid ]
       | intros id p Hid;
         first [ apply Hins in Hid as [[-> _]|Hid];
                 [left; reflexivity | right; exact Hid]
               | apply Hdel in Hid; right; exact Hid ] ]).
  - rewrite lookup_insert_eq. evaluate.
    apply Hkept; simpl;
      [ reflexivity
      | intros id due Hid; apply Hdel in Hid; right; exact Hid
      | intros id p Hid; apply Hdel in Hid; right; exact Hid ].
Qed.

#[local] Hint Resolve post_timed : keeps.


End RequestTimeouts.












End CorrelatorFacts.

(* ===================================================================== *)
(** * Properties of the transport manager: reconnection and fallback *)
(* ===================================================================== *)

Module TransportFacts.
Import Num RateLimiter Quantizer Connector ConnectorLogic ConnectorFacts.
Local Open Scope string_scope.
Local Open Scope list_scope.

Local Arguments bind {A B} m k w /.
Local Arguments try_catch {A} m handler w /.
Local Arguments ret {A} v w /.
Local Arguments throw {A} e w /.
Local Arguments get w /.
Local Arguments modify f w /.
Local Arguments assign f w /.
Local Arguments tell o w /.
Local Arguments exec {A} m w /.
Local Arguments upd f w /.

(** States the goal as a property [outcome] of the run [tm], so that
    the run is evaluated once. *)
Ltac focus_on tm :=
  cbv zeta;
  match goal with
  | |- ?G =>
      match eval pattern tm in G with
      | ?Q _ => set (outcome := Q); change (outcome tm)
      end
  end.

(** Back to the property itself, once the run is evaluated. *)
Ltac conclude := lazymatch goal with |- ?outcome _ => unfold outcome end; simpl.

Lemma closed_socket_down k0 (sk : list ReadyState) :
  (forall k st, sk !! k = Some st -> k = k0 \/ down st) ->
  forall k st, <[k0 := CLOSED]> sk !! k = Some st -> down st.
Proof.
  intros Hothers k st Hk. destruct (decide (k = k0)) as [->|Hne].
  - destruct (sk !! k0) as [st0|] eqn:E0.
    + rewrite list_lookup_insert_eq in Hk by (eapply lookup_lt_Some; eauto).
      inversion Hk. right. reflexivity.
    + rewrite list_insert_ge in Hk by (apply lookup_ge_None; exact E0).
      rewrite E0 in Hk. discriminate.
  - rewrite list_lookup_insert_ne in Hk by auto.
    destruct (Hothers k st Hk) as [->|Hd]; [contradiction | exact Hd].
Qed.

Lemma closing_socket_down (sk : list ReadyState) :
  (forall k st, sk !! k = Some st -> down st) ->
  forall k st,
    <[List.length sk := CLOSING]> (sk ++ [CONNECTING]) !! k = Some st -> down st.
Proof.
  intros Hdown k st Hk.
  rewrite insert_app_r_alt in Hk by lia.
  rewrite Nat.sub_diag in Hk. simpl in Hk.
  apply lookup_app_Some in Hk as [Hk|[_ Hk]].
  - eapply Hdown; eassumption.
  - destruct (k - List.length sk)%nat; simpl in Hk; [|discriminate].
    inversion Hk. left. reflexivity.
Qed.

(** The socket drops: the first attempt is scheduled. *)
Lemma close_starts_reconnect t k0 w :
  steady k0 w -> 1 <= maxReconnectAttempts (config (this w)) ->
  let s := step (t, Env (WsClose k0)) w in
  retrying 1 (fst s) /\
  config (this (fst s)) = config (this w) /\
  List.length (sockets (fst s)) = List.length (sockets w) /\
  isSet (restPollTimer (this (fst s))) = isSet (restPollTimer (this w)) /\
  fallback_notifications (snd s) = O /\ connection_attempts (snd s) = O.
Proof.
  intros (Hc & Hr & Hi & Ha & Hu & Hk0 & Hothers & Hct & Hrt) Hmax.
  assert (Hgt : (0 + 1 >? maxReconnectAttempts (config (this w))) = false)
    by lia.
  focus_on (step (t, Env (WsClose k0)) w).
  unfold step. simpl fst. simpl snd.
  unfold handle, react, closed, onClose, stopHealthMonitoring, handleReconnect,
    set_socket, socket_is.
  evaluate. rewrite Hk0. evaluate.
  destruct (connectionTimeout (this w)) as [ct|];
    repeat (first [ progress evaluate | progress (rewrite ?Hr, ?Hi, ?Ha, ?Hgt) ]);
    conclude.
  all: split; [repeat split; simpl; try assumption; try reflexivity|].
  all: try (rewrite Hrt; reflexivity).
  all: try (rewrite Hct; clear; set_solver).
  all: try (intros k st Hk; eapply closed_socket_down; eassumption).
  all: repeat split; try reflexivity; apply length_insert.
Qed.

(** A reconnect attempt that times out: the next one is scheduled, or,
    when the attempts are used up, the connector falls back. *)
Lemma attempt_times_out t t' j w :
  retrying j w ->
  let s := run [(t, Env ReconnectTimerFires);
                (t', Env (ConnectionTimeoutFires (List.length (sockets w))))] w in
  config (this (fst s)) = config (this w) /\
  List.length (sockets (fst s)) = S (List.length (sockets w)) /\
  connection_attempts (snd s) = 1%nat /\
  (j + 1 <= maxReconnectAttempts (config (this w)) ->
   retrying (j + 1) (fst s) /\
   isSet (restPollTimer (this (fst s))) = isSet (restPollTimer (this w)) /\
   fallback_notifications (snd s) = O) /\
  (maxReconnectAttempts (config (this w)) < j + 1 ->
   in_fallback (fst s) /\ fallback_notifications (snd s) = 1%nat).
Proof.
  intros (Hr & Ha & Hc & Hu & Hrt & Hct & Hdown).
  assert (Hin : bool_decide
                  (List.length (sockets w) ∈
                     connectionTimers w ∪ {[List.length (sockets w)]}) = true)
    by (apply bool_decide_eq_true_2; clear; set_solver).
  assert (Hlook : (sockets w ++ [CONNECTING]) !! List.length (sockets w)
                  = Some CONNECTING)
    by (apply list_lookup_middle; reflexivity).
  focus_on (run [(t, Env ReconnectTimerFires);
                 (t', Env (ConnectionTimeoutFires (List.length (sockets w))))] w).
  unfold run, step. simpl fst. simpl snd.
  unfold handle, react, fireReconnectTimer, reconnectTimer, connect,
    fireConnectionTimeout, connectionTimedOut, terminate_ws, socket_shutdown,
    settleConnect, handleReconnect, startRestPolling.
  evaluate. rewrite Hrt.
  repeat (first [ progress evaluate
                | progress (rewrite ?Hin, ?Hc, ?Hlook, ?lookup_insert_eq, ?Ha) ]).
  destruct (Z.gtb_spec (j + 1) (maxReconnectAttempts (config (this w)))) as [Hgt|Hle];
    repeat (first [ progress evaluate | progress (rewrite ?Hu) ]).
  - destruct (restPollTimer (this w)) as [tmp|] eqn:Hpoll;
      evaluate; conclude.
    all: split; [reflexivity|]; split; [rewrite length_insert, length_app; simpl; lia|].
    all: split; [reflexivity|]; split; [intros; lia|]; intros _.
    all: split; [|reflexivity].
    all: repeat split; simpl; try reflexivity; try assumption.
    all: try (rewrite Hct; clear; set_solver).
    all: try (intros k st Hk; eapply closing_socket_down; eassumption).
    rewrite Hpoll. reflexivity.
  - conclude.
    split; [reflexivity|]; split; [rewrite length_insert, length_app; simpl; lia|].
    split; [reflexivity|]; split; [|intros; lia]; intros _.
    split; [|split; reflexivity].
    repeat split; simpl; try reflexivity; try assumption.
    + rewrite Hct. clear. set_solver.
    + intros k st Hk; eapply closing_socket_down; eassumption.
Qed.

Lemma run_app tr1 tr2 w :
  run (tr1 ++ tr2) w =
  let '(w1, out1) := run tr1 w in
  let '(w2, out2) := run tr2 w1 in (w2, out1 ++ out2).
Proof.
  revert w. induction tr1 as [|ti tr1 IH]; intros w; simpl.
  - destruct (run tr2 w) as [w2 out2]. reflexivity.
  - destruct (step ti w) as [w1 out1]. rewrite IH.
    destruct (run tr1 w1) as [w2 out2]. destruct (run tr2 w2) as [w3 out3].
    rewrite List.app_assoc. reflexivity.
Qed.

Lemma fallback_notifications_app h1 h2 :
  fallback_notifications (h1 ++ h2)
  = (fallback_notifications h1 + fallback_notifications h2)%nat.
Proof.
  unfold fallback_notifications. rewrite List.filter_app, List.length_app.
  reflexivity.
Qed.

Lemma connection_attempts_app h1 h2 :
  connection_attempts (h1 ++ h2)
  = (connection_attempts h1 + connection_attempts h2)%nat.
Proof.
  unfold connection_attempts. rewrite List.filter_app, List.length_app.
  reflexivity.
Qed.

(** ** At rest between attempts, and in fallback *)

Lemma down_not_open k w :
  all_sockets_down w ->
  socket_is OPEN k w = false /\ socket_is CONNECTING k w = false.
Proof.
  intros Hdown. unfold socket_is.
  destruct (sockets w !! k) as [st|] eqn:E; [|split; reflexivity].
  destruct (Hdown k st E) as [-> | ->]; split; reflexivity.
Qed.

Lemma down_insert k st (sk : list ReadyState) :
  down st ->
  (forall k' st', sk !! k' = Some st' -> down st') ->
  forall k' st', <[k := st]> sk !! k' = Some st' -> down st'.
Proof.
  intros Hst Hdown k' st' Hk. destruct (decide (k' = k)) as [->|Hne].
  - destruct (decide (k < List.length sk)%nat) as [Hlt|Hge].
    + rewrite list_lookup_insert_eq in Hk by exact Hlt.
      inversion Hk; subst. exact Hst.
    + rewrite list_insert_ge in Hk by lia. eapply Hdown; eassumption.
  - rewrite list_lookup_insert_ne in Hk by auto. eapply Hdown; eassumption.
Qed.

(** Code that touches none of the reconnect machinery leaves it at
    rest. *)
Ltac rest_side :=
  let Hrest := fresh "Hrest" in
  let Hh := fresh "Hh" in
  intros ? ? [Hrest Hh]; split;
  [ destruct Hrest as (? & ? & ? & ? & ? & ? & ? & ? & ? & ?);
    repeat split; simpl; try assumption
  | first [ exact Hh
          | apply List.Forall_app; split; [exact Hh | repeat constructor] ] ].

(** Opens the invariant on a given world and states the goal on the
    outcome of [m]. *)
Ltac rest_at m w :=
  let h := fresh "h" in
  intros w h
    [(Hrec & Hconn & Hct & Hdown & Hrt & Hatt & Huse & Hcfg & Hlen & Hpoll) Hh];
  focus_on (m w).

Ltac rest_done :=
  conclude; rewrite ?List.app_nil_r;
  split; [repeat split; simpl; first [assumption | reflexivity]
         | assumption].

(** Every event other than the reconnect timer leaves the machinery at
    rest, and so does the reconnect timer when it is not armed. *)
Lemma react_keeps_rest now e w0 :
  is_reconnect_timer e = false \/ reconnectTimers w0 = O ->
  keeps (at_rest w0) (react now e).
Proof.
  intros Hok.
  destruct e as [k|k message|k|k|k|k| |id| | | | |clock coin reply].
  - (* WsOpen *)
    rest_at (react now (WsOpen k)) w. unfold react. evaluate.
    rewrite (proj2 (down_not_open k w Hdown)). rest_done.
  - (* WsMessage *)
    rest_at (react now (WsMessage k message)) w. unfold react. evaluate.
    rewrite (proj1 (down_not_open k w Hdown)). rest_done.
  - (* WsPong *)
    rest_at (react now (WsPong k)) w. unfold react. evaluate.
    rewrite (proj1 (down_not_open k w Hdown)). rest_done.
  - (* WsError *)
    unfold react. keeps_walk rest_side.
  - (* WsClose *)
    rest_at (react now (WsClose k)) w.
    unfold react, closed, onClose, stopHealthMonitoring, set_socket. evaluate.
    destruct (isSet (sockets w !! k) && negb (socket_is CLOSED k w));
      evaluate; [|rest_done].
    destruct (connectionTimeout (this w)) as [ct|]; evaluate;
      rewrite Hrec; evaluate; conclude.
    all: split;
      [ repeat split; simpl; try assumption; try reflexivity
      | apply List.Forall_app; split; [exact Hh | repeat constructor] ].
    all: try (rewrite Hct; clear; set_solver).
    all: try (rewrite length_insert; exact Hlen).
    all: intros k' st' Hk'; eapply (down_insert k CLOSED);
      [right; reflexivity | exact Hdown | exact Hk'].
  - (* ConnectionTimeoutFires *)
    rest_at (react now (ConnectionTimeoutFires k)) w. unfold react. evaluate.
    rewrite Hct, bool_decide_eq_false_2 by (clear; set_solver).
    rest_done.
  - (* ReconnectTimerFires *)
    destruct Hok as [Hok|Hok]; [discriminate|].
    rest_at (react now ReconnectTimerFires) w. unfold react. evaluate.
    rewrite Hrt, Hok. rest_done.
  - (* RequestTimeoutFires *)
    unfold react. keeps_walk rest_side.
  - (* PingTick *)
    rest_at (react now PingTick) w. unfold react, pingTick. evaluate.
    destruct (pingTimer (this w)); evaluate; [|rest_done].
    destruct (ws (this w)) as [k|]; evaluate; [|rest_done].
    rewrite Hconn. evaluate. rest_done.
  - (* PongTimeoutFires *)
    rest_at (react now PongTimeoutFires) w.
    unfold react, firePongTimeout, pongTimedOut, terminate_ws,
      socket_shutdown. evaluate.
    destruct (pongTimers w) as [|armed]; evaluate; [rest_done|].
    destruct (ws (this w)) as [k|]; evaluate; [|rest_done].
    destruct (sockets w !! k) as [st|] eqn:Hk; evaluate; [|rest_done].
    destruct (Hdown k st Hk) as [-> | ->]; evaluate; rest_done.
  - (* StalenessTick *)
    rest_at (react now StalenessTick) w. unfold react, stalenessCheck. evaluate.
    destruct (stalenessTimer (this w)); evaluate; [|rest_done].
    rewrite Hconn. evaluate. rest_done.
  - (* RestPollTick *)
    rest_at (react now RestPollTick) w.
    unfold react, restPollTick, stopRestPolling. evaluate.
    destruct (restPollTimer (this w)) as [temporary|] eqn:Htimer; evaluate;
      [|rewrite <- Htimer in Hpoll; rest_done].
    destruct (negb temporary && negb (useRestFallback (this w))) eqn:Hstop;
      evaluate; [|rewrite <- Htimer in Hpoll; rest_done].
    apply andb_prop in Hstop as [_ Hstop]. apply negb_true_iff in Hstop.
    conclude. rewrite List.app_nil_r.
    split; [|assumption].
    repeat split; simpl; try assumption.
    intros Hfb. rewrite <- Huse, Hstop in Hfb. discriminate.
  - (* PollTurn *)
    unfold react. keeps_walk rest_side.
Qed.

Lemma retrying_rests j w : retrying j w -> resting w w.
Proof.
  intros (Hr & Ha & Hc & Hu & Hrt & Hct & Hdown).
  repeat split; try assumption. intros Hfb. congruence.
Qed.

Lemma fallback_rests w : in_fallback w -> resting w w.
Proof.
  intros (Hu & Hp & Hr & Hc & Hrt & Hct & Hdown).
  repeat split; try assumption. intros _. exact Hp.
Qed.

Lemma resting_retrying j w0 w : retrying j w0 -> resting w0 w -> retrying j w.
Proof.
  intros (Hr & Ha & Hc & Hu & Hrt & Hct & Hdown)
         (Hr' & Hc' & Hct' & Hdown' & Hrt' & Ha' & Hu' & _).
  repeat split; try assumption; congruence.
Qed.

Lemma resting_fallback w0 w : in_fallback w0 -> resting w0 w -> in_fallback w.
Proof.
  intros (Hu & Hp & Hr & Hc & Hrt & Hct & Hdown)
         (Hr' & Hc' & Hct' & Hdown' & Hrt' & Ha' & Hu' & _ & _ & Hp').
  repeat split; try assumption; try congruence. auto.
Qed.

Lemma silent_history h :
  silent h -> fallback_notifications h = O /\ connection_attempts h = O.
Proof.
  induction 1 as [|o h Ho _ [IHf IHc]]; [split; reflexivity|].
  unfold fallback_notifications, connection_attempts in *.
  destruct o; simpl in *; try discriminate; auto.
  rewrite Ho. auto.
Qed.

(** The events between two attempts change nothing of the reconnect
    machinery. *)
Lemma uneventful_rest before w :
  uneventful before ->
  resting w w ->
  at_rest w (fst (run (env_trace before) w)) (snd (run (env_trace before) w)).
Proof.
  intros Hquiet Hrest.
  change (snd (run (env_trace before) w))
    with ([] ++ snd (run (env_trace before) w)).
  apply (keeps_run (at_rest w)
           (fun i => exists e, i = Env e /\ is_reconnect_timer e = false)).
  - intros now i (e & -> & He). apply react_keeps_rest. left. exact He.
  - unfold env_trace. apply List.Forall_forall. intros ti Hin.
    apply List.in_map_iff in Hin as ([t e] & <- & Hin).
    exists e. split; [reflexivity|].
    exact (proj1 (List.Forall_forall _ _) Hquiet (t, e) Hin).
  - split; [exact Hrest | constructor].
Qed.

(** In fallback, no event of the environment changes anything of the
    reconnect machinery. *)
Lemma fallback_rest evs w :
  in_fallback w ->
  at_rest w (fst (run (env_trace evs) w)) (snd (run (env_trace evs) w)).
Proof.
  intros Hfb.
  change (snd (run (env_trace evs) w)) with ([] ++ snd (run (env_trace evs) w)).
  apply (keeps_run (at_rest w) (fun i => exists e, i = Env e)).
  - intros now i (e & ->). apply react_keeps_rest. right. apply Hfb.
  - unfold env_trace. apply List.Forall_forall. intros ti Hin.
    apply List.in_map_iff in Hin as ([t e] & <- & _). exists e. reflexivity.
  - split; [apply fallback_rests; exact Hfb | constructor].
Qed.

(** One more attempt, with the events before it. *)
Lemma failed_attempts_cons before t rest k :
  failed_attempts ((before, t) :: rest) k =
  env_trace before
  ++ [(t, Env ReconnectTimerFires); (t + 10000, Env (ConnectionTimeoutFires k))]
  ++ failed_attempts rest (S k).
Proof. reflexivity. Qed.

(** What one failed attempt, with the events before it, makes of a
    connector that is retrying. *)
Lemma attempt_with_events before t j w :
  retrying j w -> uneventful before ->
  let s := run (env_trace before
                ++ [(t, Env ReconnectTimerFires);
                    (t + 10000,
                     Env (ConnectionTimeoutFires (List.length (sockets w))))]) w in
  config (this (fst s)) = config (this w) /\
  List.length (sockets (fst s)) = S (List.length (sockets w)) /\
  connection_attempts (snd s) = 1%nat /\
  (j + 1 <= maxReconnectAttempts (config (this w)) ->
   retrying (j + 1) (fst s) /\ fallback_notifications (snd s) = O) /\
  (maxReconnectAttempts (config (this w)) < j + 1 ->
   in_fallback (fst s) /\ fallback_notifications (snd s) = 1%nat).
Proof.
  intros Hretry Hquiet. cbv zeta. rewrite run_app.
  destruct (uneventful_rest before w Hquiet (retrying_rests j w Hretry))
    as [Hrest Hsilent].
  pose proof (resting_retrying j w _ Hretry Hrest) as Hretry1.
  destruct Hrest as (_ & _ & _ & _ & _ & _ & _ & Hcfg1 & Hlen1 & _).
  destruct (silent_history _ Hsilent) as [Hf1 Ha1].
  destruct (run (env_trace before) w) as [w1 out1].
  cbn [fst snd] in *.
  rewrite <- Hlen1.
  destruct (attempt_times_out t (t + 10000) j w1 Hretry1)
    as (Hcfg & Hlen & Hatt & Hmore & Hlast).
  destruct (run [(t, Env ReconnectTimerFires);
                 (t + 10000, Env (ConnectionTimeoutFires (List.length (sockets w1))))] w1)
    as [w2 out2]. cbn [fst snd] in *.
  rewrite fallback_notifications_app, connection_attempts_app.
  rewrite Hcfg1 in *.
  split; [exact Hcfg|]. split; [lia|]. split; [lia|]. split.
  - intros Hle. destruct (Hmore Hle) as (Hr & _ & Hn). split; [exact Hr | lia].
  - intros Hgt. destruct (Hlast Hgt) as (Hfb & Hn). split; [exact Hfb | lia].
Qed.

(** Fewer failures than [maxReconnectAttempts]: the next attempt is
    scheduled and there is no notification. *)
Lemma attempts_go_on attempts : forall j w,
  retrying j w ->
  Forall (fun a => uneventful (fst a)) attempts ->
  j + Z.of_nat (List.length attempts) <= maxReconnectAttempts (config (this w)) ->
  let s := run (failed_attempts attempts (List.length (sockets w))) w in
  retrying (j + Z.of_nat (List.length attempts)) (fst s) /\
  fallback_notifications (snd s) = O /\
  connection_attempts (snd s) = List.length attempts.
Proof.
  induction attempts as [|[before t] attempts IH]; intros j w Hretry Hquiet Hj.
  - simpl. rewrite Z.add_0_r. auto.
  - inversion Hquiet as [|? ? Hq Hquiet']; subst. simpl in Hq.
    simpl List.length in *.
    cbv zeta. rewrite failed_attempts_cons, List.app_assoc, run_app.
    destruct (attempt_with_events before t j w Hretry Hq)
      as (Hcfg & Hlen & Hatt & Hmore & _).
    destruct (run (env_trace before
                   ++ [(t, Env ReconnectTimerFires);
                       (t + 10000,
                        Env (ConnectionTimeoutFires (List.length (sockets w))))]) w)
      as [w1 out1]. cbn [fst snd] in *.
    destruct Hmore as (Hretry1 & Hnote); [lia|].
    rewrite <- Hlen.
    specialize (IH (j + 1) w1 Hretry1 Hquiet').
    rewrite Hcfg in IH. specialize (IH ltac:(lia)). cbv zeta in IH.
    destruct (run (failed_attempts attempts (List.length (sockets w1))) w1)
      as [w2 out2]. cbn [fst snd] in *.
    destruct IH as (Hretry2 & Hnote2 & Hatt2).
    rewrite fallback_notifications_app, connection_attempts_app.
    replace (j + Z.of_nat (S (List.length attempts)))
      with (j + 1 + Z.of_nat (List.length attempts)) by lia.
    split; [exact Hretry2|]. split; lia.
Qed.

(** The attempts time out, the last of them being number
    [maxReconnectAttempts]: the connector is in fallback, with one
    notification. *)
Lemma attempts_run_out attempts : forall j w,
  retrying j w ->
  Forall (fun a => uneventful (fst a)) attempts ->
  j + Z.of_nat (List.length attempts)
  = maxReconnectAttempts (config (this w)) + 1 ->
  attempts <> [] ->
  let s := run (failed_attempts attempts (List.length (sockets w))) w in
  in_fallback (fst s) /\
  fallback_notifications (snd s) = 1%nat /\
  connection_attempts (snd s) = List.length attempts.
Proof.
  induction attempts as [|[before t] attempts IH];
    intros j w Hretry Hquiet Hj Hne; [contradiction|].
  inversion Hquiet as [|? ? Hq Hquiet']; subst. simpl in Hq.
  simpl List.length in *.
  cbv zeta. rewrite failed_attempts_cons, List.app_assoc, run_app.
  destruct (attempt_with_events before t j w Hretry Hq)
    as (Hcfg & Hlen & Hatt & Hmore & Hlast).
  destruct (run (env_trace before
                 ++ [(t, Env ReconnectTimerFires);
                     (t + 10000,
                      Env (ConnectionTimeoutFires (List.length (sockets w))))]) w)
    as [w1 out1]. cbn [fst snd] in *.
  destruct attempts as [|a attempts].
  - simpl. rewrite List.app_nil_r.
    destruct Hlast as [Hfb Hnote]; [simpl in Hj; lia|]. auto.
  - destruct Hmore as (Hretry1 & Hnote); [simpl in Hj; lia|].
    rewrite <- Hlen.
    specialize (IH (j + 1) w1 Hretry1 Hquiet').
    rewrite Hcfg in IH.
    specialize (IH ltac:(simpl List.length in *; lia) ltac:(discriminate)).
    cbv zeta in IH.
    destruct (run (failed_attempts (a :: attempts) (List.length (sockets w1))) w1)
      as [w2 out2]. cbn [fst snd] in *.
    destruct IH as (Hfb & Hnote2 & Hatt2).
    rewrite fallback_notifications_app, connection_attempts_app.
    split; [exact Hfb|]. split; lia.
Qed.

(** X29. A connector in steady connected state loses its socket, and then
    every reconnect attempt fails by its connection timeout, whatever
    else the environment does between the attempts. While fewer than
    [maxReconnectAttempts] attempts have failed the connector is not in
    fallback and has emitted no fallback notification. When
    [maxReconnectAttempts] attempts have failed it is in REST-fallback
    mode ([useRestFallback] set, REST polling started) and the
    notification has been emitted once. Whatever the environment does
    from then on (socket events, timers, polling turns), the mode stays,
    no further notification is emitted, no socket is created and no
    reconnect is scheduled. *)
Theorem fallback_after_max_failed_reconnects k0 w t0 attempts evs :
  steady k0 w ->
  1 <= maxReconnectAttempts (config (this w)) ->
  Z.of_nat (List.length attempts) = maxReconnectAttempts (config (this w)) ->
  Forall (fun a => uneventful (fst a)) attempts ->
  let failures m :=
    (t0, Env (WsClose k0))
    :: failed_attempts (List.firstn m attempts) (List.length (sockets w)) in
  let s := run (failures (List.length attempts)) w in
  let s' := run (env_trace evs) (fst s) in
  (forall m, (m < List.length attempts)%nat ->
     useRestFallback (this (fst (run (failures m) w))) = false /\
     fallback_notifications (snd (run (failures m) w)) = O) /\
  useRestFallback (this (fst s)) = true /\
  isSet (restPollTimer (this (fst s))) = true /\
  connection_attempts (snd s) = List.length attempts /\
  fallback_notifications (snd s ++ snd s') = 1%nat /\
  silent (snd s') /\
  connection_attempts (snd s') = O /\
  useRestFallback (this (fst s')) = true /\
  isSet (restPollTimer (this (fst s'))) = true.
Proof.
  intros Hsteady Hmax Hn Hquiet failures s s'.
  destruct (close_starts_reconnect t0 k0 w Hsteady Hmax)
    as (Hretry & Hcfg & Hlen & _ & Hnote0 & Hatt0).
  assert (Hrun : forall m,
             run (failures m) w =
             let '(w1, out1) := step (t0, Env (WsClose k0)) w in
             let '(w2, out2) :=
               run (failed_attempts (List.firstn m attempts)
                      (List.length (sockets w1))) w1 in
             (w2, out1 ++ out2)).
  { intros m. unfold failures. cbn [run].
    destruct (step (t0, Env (WsClose k0)) w) as [w1 out1].
    cbn [fst] in Hlen. rewrite Hlen. reflexivity. }
  split.
  - intros m Hm. rewrite Hrun.
    destruct (step (t0, Env (WsClose k0)) w) as [w1 out1].
    cbn [fst snd] in *.
    destruct (attempts_go_on (List.firstn m attempts) 1 w1 Hretry)
      as (Hr & Hnote & _);
      [apply Forall_take; exact Hquiet
      |rewrite Hcfg, List.length_firstn; lia|].
    cbv zeta in Hr, Hnote.
    destruct (run (failed_attempts (List.firstn m attempts)
                     (List.length (sockets w1))) w1) as [w2 out2].
    cbn [fst snd] in *.
    rewrite fallback_notifications_app.
    split; [apply Hr | lia].
  - assert (Hfb : in_fallback (fst s) /\
                  fallback_notifications (snd s) = 1%nat /\
                  connection_attempts (snd s) = List.length attempts).
    { unfold s. rewrite Hrun, List.firstn_all.
      destruct (step (t0, Env (WsClose k0)) w) as [w1 out1].
      cbn [fst snd] in *.
      destruct (attempts_run_out attempts 1 w1 Hretry Hquiet)
        as (Hf & Hnote & Hatt);
        [rewrite Hcfg; lia | intros ->; simpl in Hn; lia |].
      cbv zeta in Hf, Hnote, Hatt.
      destruct (run (failed_attempts attempts (List.length (sockets w1))) w1)
        as [w2 out2]. cbn [fst snd] in *.
      rewrite fallback_notifications_app, connection_attempts_app.
      split; [exact Hf|]. split; lia. }
    destruct Hfb as (Hfb & Hnote & Hatt).
    destruct (fallback_rest evs (fst s) Hfb) as [Hrest Hsilent].
    fold s' in Hrest, Hsilent.
    pose proof (resting_fallback _ _ Hfb Hrest) as Hfb'.
    destruct (silent_history _ Hsilent) as [Hq1 Hq2].
    rewrite fallback_notifications_app.
    destruct Hfb as (Hu & Hp & _). destruct Hfb' as (Hu' & Hp' & _).
    repeat split; try assumption. lia.
Qed.

(** The default configuration ([maxReconnectAttempts] 10): the socket of
    a connected connector drops at 100 ms; ten attempts time out, each
    followed by the ['error'] and ['close'] events of its socket. *)
Lemma fallback_after_max_failed_reconnects_witness :
  let aftermath k t := [(t, WsError k); (t, WsClose k)] in
  let attempts :=
    ([], 1100)
    :: List.map (fun k => (aftermath k (Z.of_nat k * 20000),
                           Z.of_nat k * 20000 + 5000))
         (List.seq 1 9) in
  let s := run ((100, Env (WsClose 0)) :: failed_attempts attempts 1) online in
  useRestFallback (this (fst s)) = true /\
  fallback_notifications (snd s) = 1%nat /\
  connection_attempts (snd s) = 10%nat.
Proof.
  intros aftermath attempts s.
  assert (Hsteady : steady 0 online).
  { repeat split; try (vm_compute; reflexivity).
    intros [|k] st Hk; [left; reflexivity | discriminate]. }
  destruct (fallback_after_max_failed_reconnects 0 online 100 attempts [] Hsteady)
    as (_ & Huse & _ & Hatt & Hnote & _).
  - vm_compute. discriminate.
  - vm_compute. reflexivity.
  - unfold attempts, uneventful. simpl. repeat constructor.
  - split; [exact Huse|]. split; [|exact Hatt].
    rewrite List.app_nil_r in Hnote. exact Hnote.
Defined.

(** Attempts that time out, fewer than [maxReconnectAttempts]: each has
    made one socket, and the configuration is unchanged. *)
Lemma attempts_leave attempts : forall j w,
  retrying j w ->
  Forall (fun a => uneventful (fst a)) attempts ->
  j + Z.of_nat (List.length attempts) <= maxReconnectAttempts (config (this w)) ->
  let s := run (failed_attempts attempts (List.length (sockets w))) w in
  config (this (fst s)) = config (this w) /\
  List.length (sockets (fst s))
  = (List.length (sockets w) + List.length attempts)%nat.
Proof.
  induction attempts as [|[before t] attempts IH]; intros j w Hretry Hquiet Hj.
  - simpl. split; [reflexivity | lia].
  - inversion Hquiet as [|? ? Hq Hquiet']; subst. simpl in Hq.
    simpl List.length in *.
    cbv zeta. rewrite failed_attempts_cons, List.app_assoc, run_app.
    destruct (attempt_with_events before t j w Hretry Hq)
      as (Hcfg & Hlen & Hatt & Hmore & _).
    destruct (run (env_trace before
                   ++ [(t, Env ReconnectTimerFires);
                       (t + 10000,
                        Env (ConnectionTimeoutFires (List.length (sockets w))))]) w)
      as [w1 out1]. cbn [fst snd] in *.
    destruct Hmore as (Hretry1 & Hnote); [lia|].
    rewrite <- Hlen.
    specialize (IH (j + 1) w1 Hretry1 Hquiet').
    rewrite Hcfg in IH. specialize (IH ltac:(lia)). cbv zeta in IH.
    destruct (run (failed_attempts attempts (List.length (sockets w1))) w1)
      as [w2 out2]. cbn [fst snd] in *.
    destruct IH as (Hcfg2 & Hlen2).
    split; [congruence | lia].
Qed.

(** A reconnect attempt whose socket reports an error and closes before
    the connection timeout: the close handler clears the timeout and,
    [reconnecting] being set, schedules nothing. *)
Lemma attempt_refused j w t t1 t2 :
  retrying j w ->
  let k := List.length (sockets w) in
  let s := run [(t, Env ReconnectTimerFires); (t1, Env (WsError k));
                (t2, Env (WsClose k))] w in
  snd s = [SocketCreated k; Emitted "error"; Emitted "disconnected"] /\
  connectPromises (fst s) !! k = Some ByReconnect /\
  resting (fst s) (fst s) /\ reconnectTimers (fst s) = O /\
  useRestFallback (this (fst s)) = false /\
  isSet (restPollTimer (this (fst s))) = isSet (restPollTimer (this w)).
Proof.
  intros (Hr & Ha & Hc & Hu & Hrt & Hct & Hdown) k.
  assert (Hlook : (sockets w ++ [CONNECTING]) !! List.length (sockets w)
                  = Some CONNECTING)
    by (apply list_lookup_middle; reflexivity).
  unfold k.
  focus_on (run [(t, Env ReconnectTimerFires);
                 (t1, Env (WsError (List.length (sockets w))));
                 (t2, Env (WsClose (List.length (sockets w))))] w).
  unfold run, step. simpl fst. simpl snd.
  unfold handle, react, fireReconnectTimer, reconnectTimer, connect,
    closed, onClose, onError, stopHealthMonitoring, set_socket, socket_is.
  evaluate. rewrite Hrt.
  repeat (first [ progress evaluate | progress (rewrite ?Hlook, ?Hr) ]).
  conclude.
  split; [reflexivity|]. split; [apply lookup_insert_eq|].
  split; [|split; [reflexivity | split; [exact Hu | reflexivity]]].
  repeat split; simpl; try assumption; try reflexivity.
  - rewrite Hct. clear. set_solver.
  - intros k' st Hk'. simpl in Hk'.
    rewrite insert_app_r_alt in Hk' by lia.
    rewrite Nat.sub_diag in Hk'. simpl in Hk'.
    apply lookup_app_Some in Hk' as [Hk'|[_ Hk']].
    + eapply Hdown; eassumption.
    + destruct (k' - List.length (sockets w))%nat; simpl in Hk';
        [|discriminate]. inversion Hk'. right. reflexivity.
  - intros Hfb. rewrite Hu in Hfb. discriminate.
Qed.

(** With no socket connecting or open and no timer of the reconnect
    machinery armed, no event of the environment sets it going again. *)
Lemma stalled_rest evs w :
  resting w w -> reconnectTimers w = O ->
  at_rest w (fst (run (env_trace evs) w)) (snd (run (env_trace evs) w)).
Proof.
  intros Hrest Htimer.
  change (snd (run (env_trace evs) w)) with ([] ++ snd (run (env_trace evs) w)).
  apply (keeps_run (at_rest w) (fun i => exists e, i = Env e)).
  - intros now i (e & ->). apply react_keeps_rest. right. exact Htimer.
  - unfold env_trace. apply List.Forall_forall. intros ti Hin.
    apply List.in_map_iff in Hin as ([t e] & <- & _). exists e. reflexivity.
  - split; [exact Hrest | constructor].
Qed.

(** C4. The reconnect attempts of a connector that lost its socket are
    counted and retried only when they end by the 10-second connection
    timeout. Here the socket of a connected connector closes; some
    attempts time out, whatever else the environment does between them;
    then comes an attempt whose socket reports an error and closes
    before its timeout (the server refuses the connection), and it is
    attempt number [maxReconnectAttempts] at the latest. The [connect()]
    call of that attempt is never settled, so the [catch] branch of the
    reconnect timer never runs: whatever the environment does afterwards
    (socket events, timers, polling turns), the connector is not in
    REST-fallback mode, no fallback notification is ever emitted, no further socket is created and no
    reconnect is scheduled. In particular this holds when the refused
    attempt is the [maxReconnectAttempts]-th failed attempt in a row. *)
Theorem refused_reconnect_never_falls_back k0 w t0 attempts t t1 t2 evs :
  steady k0 w ->
  Z.of_nat (List.length attempts) + 1 <= maxReconnectAttempts (config (this w)) ->
  Forall (fun a => uneventful (fst a)) attempts ->
  let k := (List.length (sockets w) + List.length attempts)%nat in
  let failures :=
    (t0, Env (WsClose k0))
    :: failed_attempts attempts (List.length (sockets w))
    ++ [(t, Env ReconnectTimerFires); (t1, Env (WsError k));
        (t2, Env (WsClose k))] in
  let s := run failures w in
  let s' := run (env_trace evs) (fst s) in
  connection_attempts (snd s) = S (List.length attempts) /\
  connectPromises (fst s) !! k = Some ByReconnect /\
  fallback_notifications (snd s ++ snd s') = O /\
  connection_attempts (snd s') = O /\
  silent (snd s') /\
  useRestFallback (this (fst s')) = false /\
  connected (this (fst s')) = false.
Proof.
  intros Hsteady Hn Hquiet k failures s s'.
  destruct (close_starts_reconnect t0 k0 w Hsteady ltac:(lia))
    as (Hretry & Hcfg & Hlen & _ & Hnote0 & Hatt0).
  assert (Hs : connection_attempts (snd s) = S (List.length attempts) /\
               connectPromises (fst s) !! k = Some ByReconnect /\
               fallback_notifications (snd s) = O /\
               resting (fst s) (fst s) /\ reconnectTimers (fst s) = O /\
               useRestFallback (this (fst s)) = false).
  { unfold s, failures. cbn [run].
    destruct (step (t0, Env (WsClose k0)) w) as [w1 out1].
    cbn [fst snd] in *. rewrite run_app.
    unfold k. rewrite <- Hlen.
    destruct (attempts_go_on attempts 1 w1 Hretry Hquiet)
      as (Hretry2 & Hnote2 & Hatt2); [rewrite Hcfg; lia|].
    destruct (attempts_leave attempts 1 w1 Hretry Hquiet)
      as (_ & Hlen2); [rewrite Hcfg; lia|].
    cbv zeta in Hretry2, Hnote2, Hatt2, Hlen2.
    destruct (run (failed_attempts attempts (List.length (sockets w1))) w1)
      as [w2 out2]. cbn [fst snd] in *.
    rewrite <- Hlen2.
    destruct (attempt_refused _ w2 t t1 t2 Hretry2)
      as (Hout & Hpromise & Hrest & Htimer & Huse & _).
    cbv zeta in Hout, Hpromise, Hrest, Htimer, Huse.
    destruct (run [(t, Env ReconnectTimerFires);
                   (t1, Env (WsError (List.length (sockets w2))));
                   (t2, Env (WsClose (List.length (sockets w2))))] w2)
      as [w3 out3]. cbn [fst snd] in *.
    rewrite !connection_attempts_app, !fallback_notifications_app.
    rewrite Hout, Hatt0, Hatt2, Hnote0, Hnote2.
    split; [change (connection_attempts _) with 1%nat at 1; lia|].
    split; [exact Hpromise|]. split; [reflexivity|].
    split; [exact Hrest|]. split; assumption. }
  destruct Hs as (Hatt & Hpromise & Hnote & Hrest & Htimer & Huse).
  destruct (stalled_rest evs (fst s) Hrest Htimer) as [Hrest' Hsilent].
  fold s' in Hrest', Hsilent.
  destruct Hrest' as (_ & Hconn' & _ & _ & _ & _ & Huse' & _).
  destruct (silent_history _ Hsilent) as [Hf Ha'].
  rewrite fallback_notifications_app.
  repeat split; try assumption; try lia. congruence.
Qed.

(** The default configuration ([maxReconnectAttempts] 10): the socket of
    a connected connector drops at 100 ms; nine attempts time out; the
    socket of the tenth reports an error and closes 5 ms after it was
    made. The timers that fire later find nothing to do. *)
Lemma refused_reconnect_never_falls_back_witness :
  let w := online in
  let attempts :=
    ([], 1100)
    :: List.map (fun k => ([], Z.of_nat k * 20000)) (List.seq 1 8) in
  let k := (List.length (sockets w) + List.length attempts)%nat in
  let failures :=
    (100, Env (WsClose 0))
    :: failed_attempts attempts (List.length (sockets w))
    ++ [(200000, Env ReconnectTimerFires); (200005, Env (WsError k));
        (200005, Env (WsClose k))] in
  let s := run failures w in
  let s' := run (env_trace [(210000, ConnectionTimeoutFires k);
                            (230000, ReconnectTimerFires)]) (fst s) in
  connection_attempts (snd s) = S (List.length attempts) /\
  connectPromises (fst s) !! k = Some ByReconnect /\
  fallback_notifications (snd s ++ snd s') = O /\
  connection_attempts (snd s') = O /\
  silent (snd s') /\
  useRestFallback (this (fst s')) = false /\
  connected (this (fst s')) = false.
Proof.
  intros w attempts.
  apply (refused_reconnect_never_falls_back 0 w 100 attempts 200000 200005 200005
           [(210000, ConnectionTimeoutFires (List.length (sockets w)
                                             + List.length attempts)%nat);
            (230000, ReconnectTimerFires)]).
  - repeat split; try (vm_compute; reflexivity).
    intros [|k] st Hk; [left; reflexivity | discriminate].
  - vm_compute. discriminate.
  - unfold attempts, uneventful. simpl. repeat constructor.
Defined.

End TransportFacts.

(* ===================================================================== *)
(** * More on the rate limiter: every configuration, and [waitForSlot] *)
(* ===================================================================== *)

Module WaitFacts.
Import RateLimiter RateLimiterFacts.

(** X1. The bound of the sliding window, for every configuration: a limiter
    built with any options and driven by any calls under a clock that
    never goes back grants at most [maxRequests] requests in any span of
    [windowMs] milliseconds. *)
Theorem window_bound (optMax optWin : option Z) (cs : list call) (a : Z) :
  nondecreasing (clock_of cs) ->
  let l0 := constructor optMax optWin in
  let granted := snd (run cs l0) in
  Z.of_nat (in_span a (windowMs l0) granted) <= Z.max 0 (maxRequests l0).
Proof.
  intros Hclk l0 granted.
  assert (Hrun : admissible (maxRequests l0) (windowMs l0) ([] ++ granted) /\
                 nondecreasing (requests (fst (run cs l0)))).
  { apply (run_tracks _ _ cs (List.hd 0 (clock_of cs))).
    - apply (fresh_tracks optMax optWin).
    - apply admissible_nil.
    - destruct (clock_of cs) as [|c0 r]; simpl; [exact I|].
      split; [lia | exact Hclk]. }
  destruct Hrun as [Hadm _]. simpl in Hadm.
  apply admissible_span. exact Hadm.
Qed.

(** The REST limiter of the connector, scaled down: two requests per
    100 ms. *)
Lemma window_bound_witness :
  let cs := [TryRequest 0 0; CanRequest 5; TryRequest 10 10;
             TryRequest 50 50; TryRequest 100 100] in
  let granted := snd (run cs (constructor (Some 2) (Some 100))) in
  granted = [0; 10; 100] /\ Z.of_nat (in_span 10 100 granted) <= 2.
Proof.
  intros cs granted. split; [reflexivity|].
  apply (window_bound (Some 2) (Some 100) cs 10). simpl. lia.
Defined.

Lemma live_purged_length w p n ts :
  (List.length (live w n (live w p ts)) <= List.length (live w n ts))%nat.
Proof.
  unfold live. induction ts as [|t ts IH]; simpl; [lia|].
  destruct (p - t <? w); simpl; destruct (n - t <? w); simpl; lia.
Qed.

(** Purging first never takes a free slot away. *)
Lemma canRequest_after_purge p now l :
  fst (canRequest now l) = true -> fst (canRequest now (cleanup p l)) = true.
Proof.
  unfold canRequest. simpl. intros H. apply Z.ltb_lt in H. apply Z.ltb_lt.
  pose proof (live_purged_length (windowMs l) p now (requests l)) as H1.
  unfold live in H1. lia.
Qed.

(** The [tryRequest] that follows a [canRequest] which said yes is
    granted. *)
Lemma tryRequest_after_yes now n1 n2 l :
  fst (canRequest now l) = true ->
  tryRequest n1 n2 (snd (canRequest now l))
  = (true, {| maxRequests := maxRequests l; windowMs := windowMs l;
              requests := requests (cleanup n1 (cleanup now l)) ++ [n2] |}).
Proof.
  intros H. pose proof (canRequest_after_purge now n1 l) as H1.
  unfold tryRequest. simpl snd.
  assert (Hyes : fst (canRequest n1 (cleanup now l)) = true).
  { unfold canRequest in *. simpl in *. apply Z.ltb_lt in H. apply Z.ltb_lt.
    pose proof (List.filter_length_le
                  (fun timestamp => n1 - timestamp <? windowMs l)
                  (List.filter (fun timestamp => now - timestamp <? windowMs l)
                     (requests l))). lia. }
  unfold canRequest in Hyes. simpl in Hyes. apply Z.ltb_lt in Hyes.
  simpl. 
  destruct (_ >=? _) eqn:E; [lia | reflexivity].
Qed.

(** X2. [waitForSlot] is a series of [canRequest] polls followed by one
    [tryRequest] that is granted: when it returns, it has recorded one
    timestamp, the last reading of the clock it took. *)
Theorem waitForSlot_grants_once (clock : list Z) (l l' : SlidingWindowRateLimiter) :
  waitForSlot clock l = Some l' ->
  exists polls n1 n2 rest,
    clock = polls ++ n1 :: n2 :: rest /\ polls <> [] /\
    run (List.map CanRequest polls ++ [TryRequest n1 n2]) l = (l', [n2]).
Proof.
  revert l. induction clock as [|now clock IH]; intros l H; [discriminate|].
  simpl in H. destruct (Z.of_nat _ <? _) eqn:Eok.
  - destruct clock as [|n1 [|n2 rest]]; try discriminate.
    exists [now], n1, n2, rest. split; [reflexivity|]. split; [discriminate|].
    injection H as <-. simpl.
    pose proof (tryRequest_after_yes now n1 n2 l) as Ht.
    unfold canRequest in Ht. simpl fst in Ht. simpl snd in Ht.
    rewrite (Ht Eok). reflexivity.
  - destruct (IH _ H) as (polls & n1 & n2 & rest & -> & Hne & Hrun).
    exists (now :: polls), n1, n2, rest.
    split; [reflexivity|]. split; [discriminate|].
    simpl. rewrite Hrun. reflexivity.
Qed.

Lemma waitForSlot_grants_once_witness :
  exists polls n1 n2 rest,
    [500; 510; 1000; 1000; 1001] = polls ++ n1 :: n2 :: rest /\ polls <> [] /\
    run (List.map CanRequest polls ++ [TryRequest n1 n2])
        (fst (run [TryRequest 0 0] (constructor (Some 1) (Some 1000))))
    = ({| maxRequests := 1; windowMs := 1000; requests := [1001] |}, [n2]).
Proof.
  apply (waitForSlot_grants_once [500; 510; 1000; 1000; 1001]).
  reflexivity.
Defined.

(** X3. A caller waiting on a full window gets its slot when the oldest
    recorded timestamp has expired: if at some reading [now] the first
    timestamp of the array is [windowMs] old, [waitForSlot] returns at
    that reading at the latest, whatever it read before. *)
Theorem waitForSlot_returns (polls : list Z) (now n1 n2 : Z) (rest : list Z)
    (l : SlidingWindowRateLimiter) :
  bounded l -> 0 < maxRequests l ->
  (forall t, List.head (requests l) = Some t -> windowMs l <= now - t) ->
  exists l', waitForSlot (polls ++ now :: n1 :: n2 :: rest) l = Some l'.
Proof.
  intros Hb Hpos Hold.
  assert (Hyes : fst (canRequest now l) = true).
  { unfold canRequest. simpl. apply Z.ltb_lt. unfold bounded in Hb.
    destruct (requests l) as [|t ts]; simpl; [lia|].
    specialize (Hold t eq_refl).
    assert (E : (now - t <? windowMs l) = false) by (apply Z.ltb_ge; lia).
    rewrite E.
    pose proof (List.filter_length_le
                  (fun timestamp => now - timestamp <? windowMs l) ts).
    simpl in Hb. lia. }
  clear Hb Hpos Hold. revert l Hyes.
  induction polls as [|p polls IH]; intros l Hyes.
  - simpl. unfold canRequest in Hyes. simpl in Hyes. rewrite Hyes. eauto.
  - simpl. destruct (Z.of_nat _ <? _) eqn:E.
    + destruct polls as [|q [|q' polls]]; simpl; eauto.
    + apply IH. apply canRequest_after_purge. exact Hyes.
Qed.

Lemma waitForSlot_returns_witness :
  exists l', waitForSlot ([500; 990] ++ 1000 :: 1000 :: 1001 :: [])
               (fst (run [TryRequest 0 0] (constructor (Some 1) (Some 1000))))
             = Some l'.
Proof.
  apply waitForSlot_returns.
  - unfold bounded. simpl. lia.
  - simpl. lia.
  - simpl. intros t Ht. injection Ht as <-. lia.
Defined.

End WaitFacts.

(* ===================================================================== *)
(** * The removal of trailing zeros, and the symbol tables *)
(* ===================================================================== *)

Module TrailingZeros.
Import Num Quantizer.
Local Open Scope string_scope.

Lemma zeros_to_end_zeros k : zeros_to_end (zeros (S k)) = true.
Proof. induction k as [|k IH]; [reflexivity|]. simpl in *. exact IH. Qed.

(** Text that holds anything but ['0'] is not zeros to the end. *)
Lemma zeros_to_end_other pre c rest :
  c <> "0"%char -> zeros_to_end (pre ++ String c rest) = false.
Proof.
  intros Hc. induction pre as [|a pre IH]; simpl.
  - apply Ascii.eqb_neq in Hc. rewrite Hc. destruct rest; reflexivity.
  - simpl in IH. rewrite IH.
    destruct (pre ++ String c rest) eqn:E.
    + destruct pre; discriminate E.
    + apply andb_false_r.
Qed.

Lemma matches_here_other a pre c rest :
  c <> "0"%char -> matches_here (String a (pre ++ String c rest)) = false.
Proof.
  intros Hc. unfold matches_here.
  pose proof (zeros_to_end_other (String a pre) c rest Hc) as H1.
  pose proof (zeros_to_end_other pre c rest Hc) as H2.
  change (zeros_to_end (String a (pre ++ String c rest)) = false) in H1.
  rewrite H1.
  destruct a as [[] [] [] [] [] [] [] []]; try reflexivity.
  rewrite H2. reflexivity.
Qed.

Lemma strip_zeros k : strip_trailing_zeros (zeros k) = "".
Proof.
  destruct k as [|k]; [reflexivity|].
  change (strip_trailing_zeros (zeros (S k)))
    with (if matches_here (zeros (S k)) then ""
          else String "0" (strip_trailing_zeros (zeros k))).
  change (matches_here (zeros (S k))) with (zeros_to_end (zeros (S k))).
  rewrite zeros_to_end_zeros. reflexivity.
Qed.

Lemma strip_cons a s :
  matches_here (String a s) = false ->
  strip_trailing_zeros (String a s) = String a (strip_trailing_zeros s).
Proof. intros H. simpl. simpl in H. rewrite H. reflexivity. Qed.

Lemma strip_point_zeros pre k :
  strip_trailing_zeros (pre ++ String "." (zeros (S k))) = pre.
Proof.
  induction pre as [|a pre IH].
  - change ("" ++ String "." (zeros (S k))) with (String "." (zeros (S k))).
    change (strip_trailing_zeros (String "." (zeros (S k))))
      with (if matches_here (String "." (zeros (S k))) then ""
            else String "." (strip_trailing_zeros (zeros (S k)))).
    change (matches_here (String "." (zeros (S k))))
      with (zeros_to_end (zeros (S k))
            || zeros_to_end (String "." (zeros (S k)))).
    rewrite zeros_to_end_zeros. reflexivity.
  - change (String a pre ++ String "." (zeros (S k)))
      with (String a (pre ++ String "." (zeros (S k)))).
    rewrite strip_cons.
    + rewrite IH. reflexivity.
    + apply matches_here_other. discriminate.
Qed.

Lemma strip_after_digit pre c k :
  c <> "0"%char -> c <> "."%char ->
  strip_trailing_zeros (pre ++ String c (zeros k)) = pre ++ String c "".
Proof.
  intros H0 Hp. induction pre as [|a pre IH].
  - change ("" ++ String c (zeros k)) with (String c (zeros k)).
    change ("" ++ String c "") with (String c "").
    rewrite strip_cons.
    + rewrite strip_zeros. reflexivity.
    + unfold matches_here.
      pose proof (zeros_to_end_other "" c (zeros k) H0) as Hz.
      change (zeros_to_end (String c (zeros k)) = false) in Hz. rewrite Hz.
      destruct c as [[] [] [] [] [] [] [] []]; try reflexivity.
      contradiction Hp. reflexivity.
  - change (String a pre ++ String c (zeros k))
      with (String a (pre ++ String c (zeros k))).
    change (String a pre ++ String c "") with (String a (pre ++ String c "")).
    rewrite strip_cons.
    + rewrite IH. reflexivity.
    + apply matches_here_other. exact H0.
Qed.

Lemma includes_dot_app s t : includes_dot (s ++ t) = includes_dot s || includes_dot t.
Proof.
  induction s as [|a s IH]; simpl; [reflexivity|].
  rewrite IH. apply orb_assoc.
Qed.

(** X4. What the removal of trailing zeros does, on any text. A text
    without a point is returned as it is. In a text with a point the
    whole run of ['0'] at the end goes, and the point with it when it
    stands right before the run; what precedes is kept, whatever it is
    (the digits of a fraction, or the sign and digits of an exponent).
    A text that ends with another character is returned as it is. *)
Theorem remove_trailing_zeros_spec (pre : string) (c : ascii) (k : nat) :
  (includes_dot pre = false -> remove_trailing_zeros pre = pre) /\
  remove_trailing_zeros (pre ++ String "." (zeros (S k))) = pre /\
  (includes_dot pre = true -> c <> "0"%char -> c <> "."%char ->
   remove_trailing_zeros (pre ++ String c (zeros k)) = pre ++ String c "").
Proof.
  split; [|split].
  - intros H. unfold remove_trailing_zeros. rewrite H. reflexivity.
  - unfold remove_trailing_zeros. rewrite includes_dot_app. simpl.
    rewrite orb_true_r. apply strip_point_zeros.
  - intros Hd H0 Hp. unfold remove_trailing_zeros.
    rewrite includes_dot_app, Hd. simpl. apply strip_after_digit; assumption.
Qed.

(** The fraction of [12.3400] loses its two zeros; so does the exponent
    of [1.5e+300]. *)
Lemma remove_trailing_zeros_spec_witness :
  remove_trailing_zeros "12.3400" = "12.34" /\
  remove_trailing_zeros "1.5e+300" = "1.5e+3".
Proof.
  split.
  - apply (proj2 (proj2 (remove_trailing_zeros_spec "12.3" "4" 2)));
      [reflexivity | discriminate | discriminate].
  - apply (proj2 (proj2 (remove_trailing_zeros_spec "1.5e+" "3" 2)));
      [reflexivity | discriminate | discriminate].
Defined.

Lemma toPrecision_5 (x : number) : exists s, toPrecision x 5 = Some s.
Proof.
  unfold toPrecision. destruct x as [sg| sg| |sg m e]; simpl; eauto.
  - destruct (magnitude m e) as [sp sq].
    destruct (precision_digits sp sq 5) as [n e'].
    repeat match goal with
           | |- context [if ?b then _ else _] => destruct b
           end; eauto.
Qed.

Lemma toFixed_range (x : number) (f : Z) :
  toFixed x f = None <-> f < 0 \/ 100 < f.
Proof.
  unfold toFixed. destruct ((f <? 0)%Z || (100 <? f)%Z) eqn:E.
  - split; [intros _ | reflexivity]. apply orb_true_iff in E. lia.
  - split; [|intros H; apply orb_false_iff in E; lia].
    destruct x as [sg| sg| |sg m e]; try discriminate.
    destruct (magnitude m e) as [p q]. destruct (_ <=? _)%Z; [discriminate|].
    destruct (scale10 p q f). discriminate.
Qed.

(** X5. [roundPrice] throws (the [RangeError] of [toFixed]) exactly when the
    size decimals of the instrument exceed the decimals of the market
    (6 for perps, 8 for spot) or fall more than 100 below them; it
    returns a text for every price otherwise, [NaN] and the infinities
    included. [roundSize] throws exactly for size decimals outside
    [0..100]. *)
Theorem rounding_range_errors (x : number) (szDecimals : Z) (isSpot : bool) :
  (roundPrice x szDecimals isSpot = None <->
   (if isSpot then 8 else 6) < szDecimals \/
   szDecimals < (if isSpot then 8 else 6) - 100) /\
  (roundSize x szDecimals = None <-> szDecimals < 0 \/ 100 < szDecimals).
Proof.
  split.
  - unfold roundPrice. destruct (toPrecision_5 x) as [s1 ->].
    destruct (toFixed (parseFloat s1) ((if isSpot then 8 else 6) - szDecimals))
      as [s2|] eqn:E.
    + split; [discriminate|]. intros H.
      assert (Hn : toFixed (parseFloat s1)
                     ((if isSpot then 8 else 6) - szDecimals) = None)
        by (apply toFixed_range; destruct isSpot; lia).
      congruence.
    + apply toFixed_range in E. split; [intros _ | reflexivity].
      destruct isSpot; lia.
  - unfold roundSize.
    destruct (toFixed _ szDecimals) as [s|] eqn:E.
    + split; [discriminate|]. intros H.
      apply (toFixed_range (mul (round (div x (pow10_neg szDecimals)))
                              (pow10_neg szDecimals))) in H.
      rewrite H in E. discriminate.
    + apply toFixed_range in E. split; [intros _; exact E | reflexivity].
Qed.

End TrailingZeros.

Module SymbolFacts.
Import Symbols.
Local Open Scope string_scope.
Local Open Scope list_scope.

Ltac split_on s key :=
  destruct (String.eqb_spec s key) as [->|?].

Ltac by_cases s :=
  split_on s "BTC"; [| split_on s "ETH"; [| split_on s "SOL"; [|
  split_on s "XPL"; [| split_on s "PUMP"; [| split_on s "FARTCOIN"; [|
  split_on s "PURR"; [| split_on s "TRUMP"; [| split_on s "HYPE"; [|
  split_on s "UBTC"; [| split_on s "UETH"; [| split_on s "USOL"; [|
  split_on s "UXPL"; [| split_on s "UPUMP"; [| split_on s "UFART"; [|
  split_on s "constructor"; [| split_on s "__defineGetter__"; [|
  split_on s "__defineSetter__"; [| split_on s "hasOwnProperty"; [|
  split_on s "__lookupGetter__"; [| split_on s "__lookupSetter__"; [|
  split_on s "isPrototypeOf"; [| split_on s "propertyIsEnumerable"; [|
  split_on s "toString"; [| split_on s "valueOf"; [|
  split_on s "__proto__"; [| split_on s "toLocaleString"
  ]]]]]]]]]]]]]]]]]]]]]]]]]].

Lemma eqb_sym_false (a b : string) : a <> b -> String.eqb b a = false.
Proof. intros H. apply String.eqb_neq. congruence. Qed.

Ltac unlisted :=
  unfold perpToSpot, spotToPerp, convert, PERP_TO_SPOT_MAP,
    SPOT_TO_PERP_MAP, inherited_keys;
  cbn [own existsb];
  repeat match goal with
         | H : ?s <> ?k |- _ =>
             rewrite ?(eqb_sym_false s k H), ?(proj2 (String.eqb_neq s k) H);
             revert H
         end;
  intros; cbn [orb].

(** A symbol that neither table lists, and that is no member of
    [Object.prototype], is converted to itself. *)
Lemma unlisted_symbol (s : string) :
  ~ In s (List.map fst PERP_TO_SPOT_MAP) ->
  ~ In s (List.map fst SPOT_TO_PERP_MAP) ->
  ~ In s inherited_keys ->
  perpToSpot s = Symbol s /\ spotToPerp s = Symbol s.
Proof.
  intros Hp Hs Hi. simpl in Hp, Hs, Hi.
  repeat match goal with
         | H : ~ (_ \/ _) |- _ => apply Decidable.not_or in H; destruct H
         end.
  repeat match goal with
         | H : ?k <> ?s |- _ =>
             match k with
             | String _ _ => apply not_eq_sym in H
             end
         end.
  split; unlisted; reflexivity.
Qed.

(** X6. Converting a symbol to the spot market and back gives the symbol
    again, except for the six spot symbols that differ from their perp
    symbol: these are left alone on the way out and converted on the
    way back. *)
Theorem perp_spot_round_trip (s t : string) :
  perpToSpot s = Symbol t ->
  (spotToPerp t = Symbol s <-> ~ In s spot_only).
Proof.
  intros H.
  by_cases s;
    try (vm_compute in H; try discriminate H; injection H as <-;
         first [ split; [intros _ Hin; simpl in Hin; intuition discriminate
                        | intros _; vm_compute; reflexivity]
               | split; [intros Hs; vm_compute in Hs; discriminate Hs
                        | intros Hn; exfalso; apply Hn; simpl; tauto] ]).
  destruct (unlisted_symbol s) as [Hp Hs];
    [simpl; intuition congruence ..|].
  rewrite Hp in H. injection H as <-.
  split; [intros _ Hin; simpl in Hin; intuition congruence | intros _; exact Hs].
Qed.

Lemma perp_spot_round_trip_witness :
  spotToPerp "UFART" = Symbol "FARTCOIN" <-> ~ In "FARTCOIN" spot_only.
Proof. apply perp_spot_round_trip. reflexivity. Defined.

(** X7. Converting a symbol to the perp market and back gives the
    symbol again, except for the six perp symbols that differ from
    their spot symbol: these are left alone on the way out and
    converted on the way back. *)
Theorem spot_perp_round_trip (s t : string) :
  spotToPerp s = Symbol t ->
  (perpToSpot t = Symbol s <-> ~ In s perp_only).
Proof.
  intros H.
  by_cases s;
    try (vm_compute in H; try discriminate H; injection H as <-;
         first [ split; [intros _ Hin; simpl in Hin; intuition discriminate
                        | intros _; vm_compute; reflexivity]
               | split; [intros Hs; vm_compute in Hs; discriminate Hs
                        | intros Hn; exfalso; apply Hn; simpl; tauto] ]).
  destruct (unlisted_symbol s) as [Hp Hs];
    [simpl; intuition congruence ..|].
  rewrite Hs in H. injection H as <-.
  split; [intros _ Hin; simpl in Hin; intuition congruence | intros _; exact Hp].
Qed.

Lemma spot_perp_round_trip_witness :
  perpToSpot "PUMP" = Symbol "UPUMP" <-> ~ In "UPUMP" perp_only.
Proof. apply spot_perp_round_trip. reflexivity. Defined.

End SymbolFacts.
(* ===================================================================== *)
(** * The sample worlds *)
(* ===================================================================== *)

Module SampleFacts.
Import Num RateLimiter Quantizer Connector ConnectorLogic TransportLogic.
Local Open Scope string_scope.
Local Open Scope list_scope.

(** The sample worlds are in the states their names say. *)
Lemma online_steady : steady 0 online.
Proof.
  repeat split; try (vm_compute; reflexivity).
  intros [|k] st Hk; [left; reflexivity | discriminate].
Qed.

Lemma dropped_retrying : retrying 1 dropped.
Proof.
  repeat split; try (vm_compute; reflexivity).
  assert (E : sockets dropped = [CLOSED]) by (vm_compute; reflexivity).
  intros k st Hk. rewrite E in Hk.
  destruct k as [|k]; [injection Hk as <-; right; reflexivity | discriminate].
Qed.

Lemma fallen_in_fallback : in_fallback fallen.
Proof.
  repeat split; try (vm_compute; reflexivity).
  assert (E : sockets fallen = [CLOSED; CLOSING]) by (vm_compute; reflexivity).
  intros k st Hk. rewrite E in Hk.
  destruct k as [|[|k]]; [injection Hk as <-; right; reflexivity
                         |injection Hk as <-; left; reflexivity
                         |discriminate].
Qed.

End SampleFacts.


(* ===================================================================== *)
(** * Asset ids and metadata *)
(* ===================================================================== *)

Module LookupFacts.
Import Num RateLimiter Quantizer Connector ConnectorLogic ConnectorFacts.
Local Open Scope string_scope.
Local Open Scope list_scope.

Local Arguments bind {A B} m k w /.
Local Arguments try_catch {A} m handler w /.
Local Arguments ret {A} v w /.
Local Arguments throw {A} e w /.
Local Arguments get w /.
Local Arguments modify f w /.
Local Arguments assign f w /.
Local Arguments tell o w /.
Local Arguments exec {A} m w /.
Local Arguments upd f w /.

(** [findIndex] and [find] with the same test agree: the index is the
    position of the first asset by that name, which is the asset that
    [find] returns. *)
Lemma findIndex_find coin us : forall i0,
  match findIndex_from i0 coin us with
  | Some i =>
      i0 <= i /\
      List.nth_error us (Z.to_nat (i - i0))
      = List.find (fun a => String.eqb (name a) coin) us /\
      (exists asset, List.find (fun a => String.eqb (name a) coin) us = Some asset
                     /\ name asset = coin) /\
      (forall j asset, (j < Z.to_nat (i - i0))%nat ->
         List.nth_error us j = Some asset -> name asset <> coin)
  | None => List.find (fun a => String.eqb (name a) coin) us = None
  end.
Proof.
  induction us as [|u us IH]; intros i0; simpl; [reflexivity|].
  destruct (String.eqb_spec (name u) coin) as [E|E].
  - rewrite Z.sub_diag. simpl. repeat split; try lia; eauto.
  - specialize (IH (i0 + 1)).
    destruct (findIndex_from (i0 + 1) coin us) as [i|]; [|exact IH].
    destruct IH as (Hle & Hnth & Hex & Hfirst).
    replace (Z.to_nat (i - i0)) with (S (Z.to_nat (i - (i0 + 1)))) by lia.
    simpl. repeat split; try lia; try assumption.
    intros [|j] asset Hj Hn; simpl in Hn.
    + injection Hn as <-. exact E.
    + apply (Hfirst j asset); [lia | exact Hn].
Qed.

(** X8. The asset id of a perp and its metadata agree. With the two caches
    loaded, [getAssetId(coin)] of a coin listed in the perp universe
    returns the position of the first asset by that name, sends nothing
    and changes nothing; [getAssetInfo(coin, id)] then returns that very
    asset, and [getCoinForOrderbook] the coin itself. *)
Theorem perp_id_and_info env coin w meta spotMeta :
  metaCache (this w) = Some meta ->
  spotMetaCache (this w) = Some spotMeta ->
  In coin (List.map name (universe meta)) ->
  Z.of_nat (List.length (universe meta)) <= 10000 ->
  exists id asset,
    getAssetId env coin false w = (Ok id, w, []) /\
    List.nth_error (universe meta) (Z.to_nat id) = Some asset /\
    0 <= id /\ name asset = coin /\
    (forall j other, (j < Z.to_nat id)%nat ->
       List.nth_error (universe meta) j = Some other -> name other <> coin) /\
    getAssetInfo coin (Some id) w
    = (Ok {| ai_name := coin; ai_szDecimals := szDecimals asset;
             spotCoin := None |}, w, []) /\
    getCoinForOrderbook coin (Some id) w = (Ok coin, w, []).
Proof.
  intros Hm Hs Hin Hlen.
  pose proof (findIndex_find coin (universe meta) 0) as Hf.
  destruct (findIndex_from 0 coin (universe meta)) as [i|] eqn:Ei.
  - destruct Hf as (Hle & Hnth & (asset & Hfind & Hname) & Hfirst).
    rewrite Z.sub_0_r in Hnth, Hfirst.
    exists i, asset.
    assert (Hlt : i < 10000).
    { rewrite Hfind in Hnth.
      assert (Z.to_nat i < List.length (universe meta))%nat
        by (apply List.nth_error_Some; congruence). lia. }
    assert (Hge : (i >=? 10000) = false) by lia.
    repeat split; try assumption.
    + unfold getAssetId. simpl. rewrite Hm. simpl. rewrite Hs. simpl.
      rewrite Hm, Hs, Ei. reflexivity.
    + congruence.
    + unfold getAssetInfo. simpl. rewrite Hm, Hge, Hfind. simpl.
      rewrite Hname. reflexivity.
    + unfold getCoinForOrderbook. rewrite Hge. reflexivity.
  - exfalso. apply List.in_map_iff in Hin as (asset & Hname & Hin).
    apply (List.find_none _ _ Hf) in Hin. rewrite Hname in Hin.
    rewrite String.eqb_refl in Hin. discriminate.
Qed.

Lemma find_unique {A} (f : A -> bool) (l : list A) (x : A) :
  In x l -> f x = true -> (forall y, In y l -> f y = true -> y = x) ->
  List.find f l = Some x.
Proof.
  intros Hin Hx Huniq. induction l as [|y l IH]; [contradiction|].
  simpl. destruct (f y) eqn:Ey.
  - f_equal. apply Huniq; [left; reflexivity | exact Ey].
  - apply IH.
    + destruct Hin as [->|Hin]; [congruence | exact Hin].
    + intros z Hz. apply Huniq. right. exact Hz.
Qed.

(** X9. The asset id of a spot pair and its metadata agree, when the pairs
    have distinct indices. For a coin looked up as spot (or not listed
    as a perp), [getAssetId] returns [10000] plus the [index] field of
    the first pair quoted in token 0 whose base token bears the name;
    [getAssetInfo] then gives the size decimals of that base token, and
    [getCoinForOrderbook] the name of the pair. Nothing is sent. *)
Theorem spot_id_and_info env coin isSpot w meta spotMeta spotPair :
  metaCache (this w) = Some meta ->
  spotMetaCache (this w) = Some spotMeta ->
  isSpot = true \/ ~ In coin (List.map name (universe meta)) ->
  List.find (is_pair_of spotMeta coin) (spot_universe spotMeta) = Some spotPair ->
  0 <= index spotPair ->
  (forall other, In other (spot_universe spotMeta) ->
     index other = index spotPair -> other = spotPair) ->
  exists base token,
    List.nth_error (tokens spotPair) 0 = Some base /\
    List.nth_error (tokens spotPair) 1 = Some 0 /\
    List.find (fun t => Z.eqb (tk_index t) base) (spot_tokens spotMeta) = Some token /\
    tk_name token = coin /\
    getAssetId env coin isSpot w = (Ok (10000 + index spotPair), w, []) /\
    getAssetInfo coin (Some (10000 + index spotPair)) w
    = (Ok {| ai_name := coin; ai_szDecimals := tk_szDecimals token;
             spotCoin := Some (pair_name spotPair) |}, w, []) /\
    getCoinForOrderbook coin (Some (10000 + index spotPair)) w
    = (Ok (pair_name spotPair), w, []).
Proof.
  intros Hm Hs Hperp Hfind Hidx Huniq.
  pose proof (List.find_some _ _ Hfind) as [Hin Hpair].
  unfold is_pair_of in Hpair.
  destruct (List.nth_error (tokens spotPair) 1) as [[| |]|] eqn:E1;
    try discriminate.
  destruct (List.nth_error (tokens spotPair) 0) as [base|] eqn:E0;
    [|discriminate].
  destruct (List.find (fun t => Z.eqb (tk_index t) base) (spot_tokens spotMeta))
    as [token|] eqn:Et; [|discriminate].
  apply String.eqb_eq in Hpair.
  exists base, token.
  assert (Hnone : (if isSpot then None
                   else findIndex_from 0 coin (universe meta)) = None).
  { destruct isSpot; [reflexivity|].
    destruct Hperp as [Hp|Hp]; [discriminate|].
    pose proof (findIndex_find coin (universe meta) 0) as Hf.
    destruct (findIndex_from 0 coin (universe meta)) as [i|]; [|reflexivity].
    destruct Hf as (_ & _ & (asset & Hfa & Hname) & _).
    exfalso. apply Hp. apply List.in_map_iff. exists asset.
    split; [exact Hname|]. apply (List.find_some _ _ Hfa). }
  assert (Hge : (10000 + index spotPair >=? 10000) = true) by lia.
  assert (Hback : List.find (fun p => Z.eqb (index p) (10000 + index spotPair - 10000))
                    (spot_universe spotMeta) = Some spotPair).
  { apply find_unique; [exact Hin | lia |].
    intros y Hy Hyi. apply Huniq; [exact Hy | lia]. }
  assert (Hinfo : getAssetInfo coin (Some (10000 + index spotPair)) w
                  = (Ok {| ai_name := coin; ai_szDecimals := tk_szDecimals token;
                           spotCoin := Some (pair_name spotPair) |}, w, [])).
  { unfold getAssetInfo, bind, get. cbv beta iota.
    rewrite Hm, Hge, Hs, Hback, E0, Et. reflexivity. }
  repeat split; try assumption.
  - unfold getAssetId. simpl. rewrite Hm. simpl. rewrite Hs. simpl.
    rewrite Hm, Hs, Hnone, Hfind. reflexivity.
  - unfold getCoinForOrderbook. rewrite Hge.
    unfold bind. rewrite Hinfo. reflexivity.
Qed.

(** X10. The metadata is fetched once. A first [getAssetId] on a connector
    without caches posts the [meta] and the [spotMeta] requests, in that
    order, and keeps both replies; whatever it returns, a later
    [getAssetId] for any coin sends nothing and changes nothing. *)
Theorem metadata_fetched_once env env' coin coin' isSpot isSpot' w meta spotMeta :
  metaCache (this w) = None ->
  spotMetaCache (this w) = None ->
  metaReply env = Some meta ->
  spotMetaReply env = Some spotMeta ->
  whileLoading env = [] ->
  let first := getAssetId env coin isSpot w in
  let w1 := snd (fst first) in
  let second := getAssetId env' coin' isSpot' w1 in
  snd first = [InfoPosted "meta" ""; InfoPosted "spotMeta" ""] /\
  metaCache (this w1) = Some meta /\
  spotMetaCache (this w1) = Some spotMeta /\
  snd second = [] /\ snd (fst second) = w1.
Proof.
  intros Hm Hs Hrm Hrs Hl. cbv zeta.
  unfold getAssetId, getMeta, getSpotMeta. rewrite Hl. simpl.
  rewrite Hm, Hrm. simpl. rewrite Hs, Hrs. simpl.
  destruct (if isSpot then None else findIndex_from 0 coin (universe meta))
    as [i|]; simpl.
  - repeat split; try reflexivity;
      destruct (if isSpot' then None else findIndex_from 0 coin' (universe meta));
      simpl; try reflexivity;
      destruct (List.find (is_pair_of spotMeta coin') (spot_universe spotMeta));
      reflexivity.
  - destruct (List.find (is_pair_of spotMeta coin) (spot_universe spotMeta));
      simpl; repeat split; try reflexivity;
      destruct (if isSpot' then None else findIndex_from 0 coin' (universe meta));
      simpl; try reflexivity;
      destruct (List.find (is_pair_of spotMeta coin') (spot_universe spotMeta));
      reflexivity.
Qed.

(** ETH, the second of two listed perps. *)
Lemma perp_id_and_info_witness :
  exists id asset,
    getAssetId quiet "ETH" false TransportLogic.listed = (Ok id, TransportLogic.listed, []) /\
    List.nth_error (universe TransportLogic.twoPerps) (Z.to_nat id) = Some asset /\
    0 <= id /\ name asset = "ETH" /\
    (forall j other, (j < Z.to_nat id)%nat ->
       List.nth_error (universe TransportLogic.twoPerps) j = Some other -> name other <> "ETH") /\
    getAssetInfo "ETH" (Some id) TransportLogic.listed
    = (Ok {| ai_name := "ETH"; ai_szDecimals := szDecimals asset;
             spotCoin := None |}, TransportLogic.listed, []) /\
    getCoinForOrderbook "ETH" (Some id) TransportLogic.listed = (Ok "ETH", TransportLogic.listed, []).
Proof.
  apply (perp_id_and_info quiet "ETH" TransportLogic.listed TransportLogic.twoPerps TransportLogic.twoPairs).
  - reflexivity.
  - reflexivity.
  - simpl. auto.
  - simpl. lia.
Defined.

(** HYPE, token 150, which trades as pair 107. *)
Lemma spot_id_and_info_witness :
  getAssetId quiet "HYPE" true TransportLogic.listed = (Ok 10107, TransportLogic.listed, []) /\
  getCoinForOrderbook "HYPE" (Some 10107) TransportLogic.listed = (Ok "@107", TransportLogic.listed, []).
Proof.
  destruct (spot_id_and_info quiet "HYPE" true TransportLogic.listed TransportLogic.twoPerps TransportLogic.twoPairs
              {| tokens := [150; 0]; index := 107; pair_name := "@107" |})
    as (base & token & _ & _ & _ & _ & Hid & _ & Hcoin).
  - reflexivity.
  - reflexivity.
  - left. reflexivity.
  - vm_compute. reflexivity.
  - simpl. lia.
  - intros other [<-|[<-|[]]]; simpl; intros; [discriminate | reflexivity].
  - split; [exact Hid | exact Hcoin].
Defined.

(** Two lookups on a connector that has loaded nothing yet. *)
Lemma metadata_fetched_once_witness :
  snd (getAssetId quiet "BTC" false online)
  = [InfoPosted "meta" ""; InfoPosted "spotMeta" ""] /\
  snd (getAssetId quiet "HYPE" true
         (snd (fst (getAssetId quiet "BTC" false online)))) = [].
Proof.
  destruct (metadata_fetched_once quiet quiet "BTC" "HYPE" false true online
              sampleMeta sampleSpotMeta)
    as (Hfirst & _ & _ & Hsecond & _); try reflexivity.
  split; [exact Hfirst | exact Hsecond].
Defined.

End LookupFacts.

(* ===================================================================== *)
(** * The orderbook cache and the push-channel requests *)
(* ===================================================================== *)

Module CacheFacts.
Import Num RateLimiter Quantizer Connector ConnectorLogic ConnectorFacts
  TransportLogic.
Local Open Scope string_scope.
Local Open Scope list_scope.

Local Arguments bind {A B} m k w /.
Local Arguments try_catch {A} m handler w /.
Local Arguments ret {A} v w /.
Local Arguments throw {A} e w /.
Local Arguments get w /.
Local Arguments modify f w /.
Local Arguments assign f w /.
Local Arguments tell o w /.
Local Arguments exec {A} m w /.
Local Arguments upd f w /.

(** X11. A snapshot reads back. [updateOrderbook] of a snapshot with a coin
    and both sides stores it and emits ['orderbook']; [getBidAsk] of the
    coin then gives the first level of each side, parsed, with [null]
    for an empty side and for a value that parses to [0] or [NaN], and
    the time of the snapshot (the clock when that is missing or [0]).
    The entries of the other coins are as before. *)
Theorem snapshot_reads_back now data bidLevels askLevels rest w :
  bd_coin data <> "" ->
  bd_levels data = Some (bidLevels :: askLevels :: rest) ->
  let s := updateOrderbook now data w in
  let o' := this (snd (fst s)) in
  snd s = [Emitted "orderbook"] /\
  getBidAsk (bd_coin data) o'
  = Some {| ba_coin := bd_coin data;
            bid := or_null (option_map (fun l => parseFloat (px l))
                              (List.head bidLevels));
            ask := or_null (option_map (fun l => parseFloat (px l))
                              (List.head askLevels));
            bidSize := or_null (option_map (fun l => parseFloat (sz l))
                                  (List.head bidLevels));
            askSize := or_null (option_map (fun l => parseFloat (sz l))
                                  (List.head askLevels));
            ba_timestamp := match bd_time data with
                            | Some time => if Z.eqb time 0 then now else time
                            | None => now
                            end |} /\
  forall other, other <> bd_coin data ->
    getBidAsk other o' = getBidAsk other (this w).
Proof.
  intros Hcoin Hlevels. cbv zeta. unfold updateOrderbook. rewrite Hlevels.
  destruct (bd_coin data) as [|c0 cs] eqn:Ec; [contradiction|].
  simpl. split; [reflexivity|]. split.
  - unfold getBidAsk. simpl. rewrite lookup_insert_eq. simpl.
    destruct bidLevels; destruct askLevels; reflexivity.
  - intros other Hother. unfold getBidAsk. simpl.
    rewrite lookup_insert_ne by congruence. reflexivity.
Qed.

(** A snapshot with one bid, no ask and time 0, taken at 77 ms. *)
Lemma snapshot_reads_back_witness :
  getBidAsk "BTC" (this (snd (fst (updateOrderbook 77 sampleBook online))))
  = Some {| ba_coin := "BTC"; bid := Some (parseFloat "100000.5");
            ask := None; bidSize := Some (parseFloat "0.25");
            askSize := None; ba_timestamp := 77 |}.
Proof.
  destruct (snapshot_reads_back 77 sampleBook
              [ {| px := "100000.5"; sz := "0.25"; n := 3 |} ] [] [] online)
    as (_ & Hread & _); [discriminate | reflexivity |].
  refine (eq_trans Hread _). vm_compute. reflexivity.
Defined.

(** X12. [unsubscribe] forgets the coin: its cache entry is gone (so it never
    counts as stale) and it is not subscribed; the other coins keep
    their entry and their subscription. No timer is stopped, even when
    the last subscription goes. *)
Theorem unsubscribe_forgets coin w :
  let s := unsubscribe coin w in
  let o' := this (snd (fst s)) in
  getBidAsk coin o' = None /\
  ~ In coin (subscriptions o') /\
  (forall now, stale now o' coin = false) /\
  (forall other, other <> coin ->
     getBidAsk other o' = getBidAsk other (this w) /\
     (In other (subscriptions o') <-> In other (subscriptions (this w)))) /\
  restPollTimer o' = restPollTimer (this w) /\
  stalenessTimer o' = stalenessTimer (this w) /\
  restRefreshTimer o' = restRefreshTimer (this w) /\
  snd s = [].
Proof.
  cbv zeta. unfold unsubscribe. simpl. unfold getBidAsk, stale. simpl.
  rewrite lookup_delete_eq. repeat split; try reflexivity.
  - intros Hin. apply List.filter_In in Hin as [_ Hne].
    rewrite String.eqb_refl in Hne. discriminate.
  - rewrite lookup_delete_ne by congruence. reflexivity.
  - intros Hin. apply List.filter_In in Hin as [Hin _]. exact Hin.
  - intros Hin. apply List.filter_In. split; [exact Hin|].
    apply negb_true_iff, String.eqb_neq. exact H.
Qed.

End CacheFacts.

Module RequestFacts.
Import Num RateLimiter Quantizer Connector ConnectorLogic ConnectorFacts
  CorrelatorFacts TransportLogic.
Local Open Scope string_scope.
Local Open Scope list_scope.

Local Arguments bind {A B} m k w /.
Local Arguments try_catch {A} m handler w /.
Local Arguments ret {A} v w /.
Local Arguments throw {A} e w /.
Local Arguments get w /.
Local Arguments modify f w /.
Local Arguments assign f w /.
Local Arguments tell o w /.
Local Arguments exec {A} m w /.
Local Arguments upd f w /.

(** X13. A refused [requestL2Book] leaves no trace. The in-flight cap is
    tested first, then the limiter, then the connection. In each case
    the call throws, nothing is sent, no request id is used and no
    timestamp is recorded: the cap refusal changes nothing at all, the
    other two only purge the expired timestamps of the limiter. *)
Theorem requestL2Book_refusals now wt coin nSigFigs w :
  let o := this w in
  let inflight := Z.of_nat (base.size (pendingRequests o)) in
  let purged := upd (set_wsRateLimiter (cleanup now (wsRateLimiter o))) w in
  let s := requestL2Book now wt coin nSigFigs w in
  (maxInflightRequests (config o) <= inflight ->
   s = (Throw TooManyInflight, w, [])) /\
  (inflight < maxInflightRequests (config o) ->
   fst (canRequest now (wsRateLimiter o)) = false ->
   s = (Throw RateLimited, purged, [])) /\
  (inflight < maxInflightRequests (config o) ->
   fst (canRequest now (wsRateLimiter o)) = true ->
   connected o = false ->
   s = (Throw NotConnected, purged, [])).
Proof.
  cbv zeta. unfold requestL2Book. simpl.
  split; [|split].
  - intros H.
    destruct (Z.geb_spec (Z.of_nat (base.size (pendingRequests (this w))))
                (maxInflightRequests (config (this w)))); [reflexivity | lia].
  - intros H Hno.
    destruct (Z.geb_spec (Z.of_nat (base.size (pendingRequests (this w))))
                (maxInflightRequests (config (this w)))); [lia|].
    unfold canRequest in *. simpl in *. rewrite Hno. reflexivity.
  - intros H Hyes Hc.
    destruct (Z.geb_spec (Z.of_nat (base.size (pendingRequests (this w))))
                (maxInflightRequests (config (this w)))); [lia|].
    unfold canRequest in *. simpl in *. rewrite Hyes. simpl. rewrite Hc.
    reflexivity.
Qed.

(** The limiter of [saturated] refuses: the request for BTC throws
    [RateLimited] and sends nothing. *)
Lemma requestL2Book_refusals_witness :
  fst (fst (requestL2Book 1000 Caller "BTC" 5 saturated)) = Throw RateLimited /\
  snd (requestL2Book 1000 Caller "BTC" 5 saturated) = [].
Proof.
  destruct (requestL2Book_refusals 1000 Caller "BTC" 5 saturated)
    as (_ & Hlimited & _).
  cbv zeta in Hlimited.
  rewrite Hlimited; [split; reflexivity | vm_compute; reflexivity
                    | vm_compute; reflexivity].
Defined.

(** X14. What an admitted [requestL2Book] does, by the state of the socket.
    The request takes the next id and one slot of the push-channel
    limiter. On an open socket one frame goes out and the request is
    pending with its timer armed. On a socket that is closing or closed
    the frame is dropped without an error: the request is pending all
    the same, and nothing but its timer will settle it. On a socket
    still connecting [send] throws: the entry and the timer are removed
    and the promise is rejected, but the id and the slot stay used. *)
Theorem requestL2Book_admitted now wt coin nSigFigs k st w :
  Z.of_nat (base.size (pendingRequests (this w)))
    < maxInflightRequests (config (this w)) ->
  fst (canRequest now (wsRateLimiter (this w))) = true ->
  connected (this w) = true ->
  ws (this w) = Some k ->
  sockets w !! k = Some st ->
  let id := requestId (this w) + 1 in
  let s := requestL2Book now wt coin nSigFigs w in
  let w' := snd (fst s) in
  requestId (this w') = id /\
  requests (wsRateLimiter (this w'))
  = requests (cleanup now (cleanup now (wsRateLimiter (this w)))) ++ [now] /\
  match st with
  | OPEN =>
      fst (fst s) = Ok id /\
      snd s = [WsSent k id (InfoL2Book coin nSigFigs)] /\
      pendingRequests (this w') !! id = Some {| waiter := wt; timeout := id |} /\
      (id ∈ requestTimers w')
  | CLOSING | CLOSED =>
      fst (fst s) = Ok id /\
      snd s = [] /\
      pendingRequests (this w') !! id = Some {| waiter := wt; timeout := id |} /\
      (id ∈ requestTimers w')
  | CONNECTING =>
      fst (fst s) = Throw SendFailed /\
      snd s = [Settled id (inr SendFailed)] /\
      pendingRequests (this w') !! id = None /\
      (id ∉ requestTimers w')
  end.
Proof.
  intros Hcap Hyes Hc Hws Hk. cbv zeta.
  pose proof (WaitFacts.tryRequest_after_yes now now now _ Hyes) as Htry.
  unfold requestL2Book, post, ws_send, clearRequestTimeout. simpl.
  destruct (Z.geb_spec (Z.of_nat (base.size (pendingRequests (this w))))
              (maxInflightRequests (config (this w)))); [lia|].
  unfold canRequest in Hyes, Htry. simpl in Hyes, Htry.
  rewrite Hyes. simpl. rewrite Hc. simpl.
  unfold tryRequest in *. simpl in *.
  destruct (Z.of_nat _ >=? maxRequests (wsRateLimiter (this w))) eqn:E;
    [discriminate Htry|].
  simpl. rewrite Hws, Hk.
  destruct st; simpl; rewrite ?lookup_insert_eq; simpl;
    rewrite ?lookup_insert_eq, ?lookup_delete_eq;
    repeat split; try reflexivity; timers_fin.
Qed.

(** What [resume] leaves alone, besides the pending requests. *)
Lemma resume_timers wt w :
  requestTimers (snd (fst (resume wt w))) = requestTimers w.
Proof.
  destruct wt; simpl; [|reflexivity].
  unfold subscribeOrderbook_rest, startStalenessMonitoring,
    startPeriodicRestRefresh. evaluate.
  destruct (stalenessTimer (this w)); evaluate;
    destruct (restRefreshTimer (this w));
    destruct (List.length (subscriptions (this w)) =? 1)%nat;
    evaluate; reflexivity.
Qed.

Lemma updateOrderbook_frame now data w :
  let s := updateOrderbook now data w in
  pendingRequests (this (snd (fst s))) = pendingRequests (this w) /\
  requestTimers (snd (fst s)) = requestTimers w /\
  fst (fst s) = Ok tt /\
  forall id, resolutions id (snd s) = O.
Proof.
  cbv zeta. unfold updateOrderbook.
  destruct (bd_coin data); [repeat split|].
  destruct (bd_levels data) as [[|bs [|as_ rest]]|]; repeat split.
Qed.

(** X15. The reply to a pending request settles it. A post frame on the open
    socket that carries the id of a pending request and a response
    removes the entry, disarms its timer and settles the promise, once:
    it is rejected with the payload when the response is of type
    ['error'], and resolved with the payload otherwise. *)
Theorem reply_settles now k id pending response w :
  pendingRequests (this w) !! id = Some pending ->
  sockets w !! k = Some OPEN ->
  let s := step (now, Env (WsMessage k (Post id (Some response)))) w in
  pendingRequests (this (fst s)) !! id = None /\
  (timeout pending ∉ requestTimers (fst s)) /\
  resolutions id (snd s) = 1%nat /\
  List.head (snd s)
  = Some (Settled id
            (if String.eqb (rtype response) "error"
             then inr (VenueError match payload response with
                                  | PayloadText text => text
                                  | _ => ""
                                  end)
             else inl (payload response))).
Proof.
  intros Hp Hk. destruct response as [rt pl].
  unfold step. simpl fst. simpl snd.
  unfold handle, react, handleMessage, clearRequestTimeout, socket_is.
  evaluate. rewrite Hk. evaluate. rewrite Hp. evaluate.
  assert (Hid : Z.eqb id id = true) by apply Z.eqb_refl.
  destruct (String.eqb_spec rt "error") as [->|Hne]; evaluate;
    destruct pl as [data| |]; evaluate;
    try (destruct (String.eqb rt "info"); evaluate);
    try match goal with
        | |- context [updateOrderbook ?t ?d ?w1] =>
            destruct (updateOrderbook_frame t d w1) as (Hup & Hut & Hok & Hur);
            destruct (updateOrderbook t d w1) as [[res1 w2] out1];
            simpl in Hup, Hut, Hok, Hur; subst res1; evaluate
        end;
    match goal with
    | |- context [resume ?wt ?w1] =>
        destruct (resume_silent wt w1) as [Hsame Hout];
        pose proof (resume_timers wt w1) as Htm;
        destruct (resume wt w1) as [[[[]|err] w3] out3]
    end;
    simpl in *; rewrite Hsame, Hout, Htm; simpl;
    rewrite ?Hup, ?Hut; simpl;
    rewrite lookup_delete_eq; unfold resolutions in *; simpl; rewrite Hid;
    rewrite ?List.app_nil_r; simpl; rewrite ?(Hur id);
    (split; [reflexivity|]); (split; [timers_fin|]);
    split; reflexivity.
Qed.

(** X16. A post frame without a [response] loses the request. When such a
    frame carries the id of a pending request, the handler removes the
    entry and clears its timer, then fails on [response.type] inside its
    [try]: the promise is neither resolved nor rejected, then or at any
    later time. *)
Theorem reply_without_response_abandons options t0 tr id pending k now later :
  let w := fst (run tr (boot options t0)) in
  let h := snd (run tr (boot options t0)) in
  pendingRequests (this w) !! id = Some pending ->
  sockets w !! k = Some OPEN ->
  let s := step (now, Env (WsMessage k (Post id None))) w in
  pendingRequests (this (fst s)) !! id = None /\
  (id ∉ requestTimers (fst s)) /\
  snd s = [] /\
  resolutions id (h ++ snd s ++ snd (run later (fst s))) = O.
Proof.
  intros w h Hp Hk s.
  destruct (boot_correlated (fun _ => False) options t0
              (boot_correlated_plain options t0) tr) as [(I1 & I2 & I3) Hdead].
  fold w in I1, I2, I3. fold h in I1, I2, I3.
  destruct (I1 id pending Hp) as (Htimer & Harmed & Hle & Hzero).
  assert (Hs : s = (set_this
                      (set_pendingRequests (delete id (pendingRequests (this w)))
                         (this w))
                      (set_requestTimeouts
                         (delete (timeout pending) (requestTimeouts w)) w),
                    [])).
  { unfold s, step. simpl fst. simpl snd.
    unfold handle, react, handleMessage, clearRequestTimeout, socket_is.
    evaluate. rewrite Hk. evaluate. rewrite Hp. evaluate. reflexivity. }
  assert (Hgone : pendingRequests (this (fst s)) !! id = None)
    by (rewrite Hs; simpl; apply lookup_delete_eq).
  split; [exact Hgone|]. split; [rewrite Hs, Htimer; timers_fin|].
  split; [rewrite Hs; reflexivity|].
  assert (Hinv : correlated_with (fun id' => id' = id) (fst s) (h ++ snd s)).
  { split.
    - pose proof (keeps_exec (correlated_with (fun _ => False))
                    (handle now (Env (WsMessage k (Post id None)))) w h
                    (handle_correlated _ now _)) as Hk1.
      destruct Hk1 as [Hc _]; [split; [split; [|split] |]; assumption|].
      exact Hc.
    - intros id' ->. split; [exact Hgone|]. split.
      + rewrite Hs. simpl. exact Hle.
      + rewrite Hs. simpl. rewrite List.app_nil_r. exact Hzero. }
  pose proof (keeps_run (correlated_with (fun id' => id' = id)) (fun _ => True)
                (fun t i _ => handle_correlated _ t i) later (fst s) (h ++ snd s))
    as Hlater.
  destruct Hlater as [_ Hab];
    [apply List.Forall_forall; intros; exact I | exact Hinv |].
  destruct (Hab id eq_refl) as (_ & _ & Hres).
  rewrite <- List.app_assoc in Hres. exact Hres.
Qed.

(** The first request of a connected connector. *)
Lemma requestL2Book_admitted_witness :
  let s := requestL2Book 10 Caller "BTC" 5 online in
  fst (fst s) = Ok 1 /\ snd s = [WsSent 0 1 (InfoL2Book "BTC" 5)].
Proof.
  intros s.
  pose proof (requestL2Book_admitted 10 Caller "BTC" 5 0 OPEN online) as H.
  cbv zeta in H.
  destruct H as (_ & _ & Hok & Hsent & _); try (vm_compute; reflexivity).
  unfold s. rewrite Hok, Hsent. vm_compute. split; reflexivity.
Defined.

(** The reply to the pending request 1. *)
Lemma reply_settles_witness :
  let reply := {| rtype := "info"; payload := PayloadL2Book bookAt20 |} in
  let s := step (20, Env (WsMessage 0 (Post 1 (Some reply)))) asking in
  pendingRequests (this (fst s)) !! 1 = None /\
  resolutions 1 (snd s) = 1%nat.
Proof.
  intros reply s.
  destruct (reply_settles 20 0 1 {| waiter := Caller; timeout := 1 |} reply asking)
    as (Hgone & _ & Honce & _); try (vm_compute; reflexivity).
  split; [exact Hgone | exact Honce].
Defined.

(** A post frame for request 1 without [response]; the timer of the
    request fires ten seconds after the send. *)
Lemma reply_without_response_abandons_witness :
  let tr := [(0, App CallConnect); (5, Env (WsOpen 0));
             (10, App (CallRequestL2Book "BTC" 5))] in
  let w := fst (run tr (boot sampleOptions 0)) in
  let s := step (20, Env (WsMessage 0 (Post 1 None))) w in
  pendingRequests (this (fst s)) !! 1 = None /\
  snd s = [] /\
  resolutions 1 (snd (run tr (boot sampleOptions 0)) ++ snd s
                 ++ snd (run [(10010, Env (RequestTimeoutFires 1))] (fst s))) = O.
Proof.
  intros tr w s.
  destruct (reply_without_response_abandons sampleOptions 0 tr
              1 {| waiter := Caller; timeout := 1 |} 0 20
              [(10010, Env (RequestTimeoutFires 1))])
    as (Hgone & _ & Hquiet & Hnever); try (vm_compute; reflexivity).
  split; [exact Hgone|]. split; [exact Hquiet | exact Hnever].
Defined.

End RequestFacts.

(* ===================================================================== *)
(** * The life of a connection *)
(* ===================================================================== *)

Module LifecycleFacts.
Import Num RateLimiter Quantizer Connector ConnectorLogic ConnectorFacts
  TransportLogic TransportFacts.
Local Open Scope string_scope.
Local Open Scope list_scope.

Local Arguments bind {A B} m k w /.
Local Arguments try_catch {A} m handler w /.
Local Arguments ret {A} v w /.
Local Arguments throw {A} e w /.
Local Arguments get w /.
Local Arguments modify f w /.
Local Arguments assign f w /.
Local Arguments tell o w /.
Local Arguments exec {A} m w /.
Local Arguments upd f w /.

(** ** After [disconnect()] *)

Ltac shut_side :=
  let Hshut := fresh "Hshut" in
  let Hh := fresh "Hh" in
  intros ? ? [Hshut Hh]; split;
  [ destruct Hshut as (? & ? & ? & ? & ?);
    repeat split; simpl; try assumption
  | first [ exact Hh
          | apply List.Forall_app; split; [exact Hh | repeat constructor] ] ].

Ltac shut_at m w :=
  let h := fresh "h" in
  intros w h [(Hint & Hconn & Hrt & Hct & Hdown) Hh];
  focus_on (m w).

Ltac shut_done :=
  conclude; rewrite ?List.app_nil_r;
  split; [repeat split; simpl; first [assumption | reflexivity]
         | assumption].

(** No event of the environment wakes a connector that was shut
    down. *)
Lemma react_keeps_shut now e : keeps stays_shut (react now e).
Proof.
  destruct e as [k|k message|k|k|k|k| |id| | | | |clock coin reply].
  - shut_at (react now (WsOpen k)) w. unfold react. evaluate.
    rewrite (proj2 (down_not_open k w Hdown)). shut_done.
  - shut_at (react now (WsMessage k message)) w. unfold react. evaluate.
    rewrite (proj1 (down_not_open k w Hdown)). shut_done.
  - shut_at (react now (WsPong k)) w. unfold react. evaluate.
    rewrite (proj1 (down_not_open k w Hdown)). shut_done.
  - unfold react. keeps_walk shut_side.
  - shut_at (react now (WsClose k)) w.
    unfold react, closed, onClose, stopHealthMonitoring, set_socket. evaluate.
    destruct (isSet (sockets w !! k) && negb (socket_is CLOSED k w));
      evaluate; [|shut_done].
    destruct (connectionTimeout (this w)) as [ct|]; evaluate;
      rewrite Hint, andb_false_r; evaluate; conclude.
    all: split;
      [ repeat split; simpl; try assumption; try reflexivity
      | apply List.Forall_app; split; [exact Hh | repeat constructor] ].
    all: try (rewrite Hct; clear; set_solver).
    all: intros k' st' Hk'; eapply (down_insert k CLOSED);
      [right; reflexivity | exact Hdown | exact Hk'].
  - shut_at (react now (ConnectionTimeoutFires k)) w. unfold react. evaluate.
    rewrite Hct, bool_decide_eq_false_2 by (clear; set_solver).
    shut_done.
  - shut_at (react now ReconnectTimerFires) w. unfold react. evaluate.
    rewrite Hrt. shut_done.
  - unfold react. keeps_walk shut_side.
  - shut_at (react now PingTick) w. unfold react, pingTick. evaluate.
    destruct (pingTimer (this w)); evaluate; [|shut_done].
    destruct (ws (this w)) as [k|]; evaluate; [|shut_done].
    rewrite Hconn. evaluate. shut_done.
  - shut_at (react now PongTimeoutFires) w.
    unfold react, firePongTimeout, pongTimedOut, terminate_ws,
      socket_shutdown. evaluate.
    destruct (pongTimers w) as [|armed]; evaluate; [shut_done|].
    destruct (ws (this w)) as [k|]; evaluate; [|shut_done].
    destruct (sockets w !! k) as [st|] eqn:Hk; evaluate; [|shut_done].
    destruct (Hdown k st Hk) as [-> | ->]; evaluate; shut_done.
  - shut_at (react now StalenessTick) w. unfold react, stalenessCheck. evaluate.
    destruct (stalenessTimer (this w)); evaluate; [|shut_done].
    rewrite Hconn. evaluate. shut_done.
  - shut_at (react now RestPollTick) w.
    unfold react, restPollTick, stopRestPolling. evaluate.
    destruct (restPollTimer (this w)) as [temporary|]; evaluate; [|shut_done].
    destruct (negb temporary && negb (useRestFallback (this w)));
      evaluate; shut_done.
  - unfold react. keeps_walk shut_side.
Qed.

(** X17. [disconnect()] is final for the environment. On a connector in
    steady connected state it closes the socket; after that, whatever
    the environment does (the ['close'] of the socket, timers, polling
    turns), the connector stays disconnected: no socket is created, no
    reconnect is scheduled and no fallback is announced. *)
Theorem disconnect_is_final k0 w t evs :
  steady k0 w ->
  ws (this w) = Some k0 ->
  let s := step (t, App CallDisconnect) w in
  let s' := run (env_trace evs) (fst s) in
  snd s = [SocketClosing k0] /\
  subscriptions (this (fst s)) = [] /\
  silent (snd s') /\
  connected (this (fst s')) = false /\
  connection_attempts (snd s') = O /\
  fallback_notifications (snd s') = O.
Proof.
  intros (Hc & Hr & Hi & Ha & Hu & Hk0 & Hothers & Hct & Hrt) Hws s s'.
  assert (Hs : snd s = [SocketClosing k0] /\ subscriptions (this (fst s)) = [] /\
               shut (fst s)).
  { unfold s. focus_on (step (t, App CallDisconnect) w).
    unfold step. simpl fst. simpl snd.
    unfold handle, serve, disconnect, stopHealthMonitoring, stopRestPolling,
      stopPeriodicRestRefresh, stopStalenessMonitoring, socket_shutdown.
    evaluate.
    destruct (connectionTimeout (this w)) as [ct|]; evaluate;
      rewrite Hws; evaluate; rewrite Hk0; evaluate; conclude.
    all: split; [reflexivity|]; split; [reflexivity|].
    all: repeat split; simpl; try assumption; try reflexivity.
    all: try (rewrite Hct; clear; set_solver).
    all: intros k st Hk; simpl in Hk; destruct (decide (k = k0)) as [->|Hne];
      [ rewrite list_lookup_insert_eq in Hk by (eapply lookup_lt_Some; eauto);
        inversion Hk; left; reflexivity
      | rewrite list_lookup_insert_ne in Hk by auto;
        destruct (Hothers k st Hk) as [->|Hd]; [contradiction | exact Hd] ]. }
  destruct Hs as (Hout & Hsubs & Hshut).
  split; [exact Hout|]. split; [exact Hsubs|].
  assert (Hstay : stays_shut (fst s') ([] ++ snd s')).
  { unfold s'.
    apply (keeps_run stays_shut (fun i => exists e, i = Env e)).
    - intros now i (e & ->). apply react_keeps_shut.
    - unfold env_trace. apply List.Forall_forall. intros ti Hin.
      apply List.in_map_iff in Hin as ([t' e] & <- & _). exists e. reflexivity.
    - split; [exact Hshut | constructor]. }
  simpl in Hstay. destruct Hstay as [(_ & Hconn & _) Hsilent].
  destruct (silent_history _ Hsilent) as [Hf Ha'].
  repeat split; assumption.
Qed.

(** ** Reconnect attempts *)

(** X18. A reconnect attempt whose socket closes before its connection
    timeout stalls the connector. The ['close'] handler clears the
    connection timeout and, [reconnecting] being set, leaves the rest to
    the timer callback, whose [connect()] promise is now never settled.
    Whatever the environment does afterwards, no further attempt is
    made and the REST fallback is never entered: the connector stays
    disconnected. *)
Theorem closed_attempt_stalls j w t t' evs :
  retrying j w ->
  let k := List.length (sockets w) in
  let s := run [(t, Env ReconnectTimerFires); (t', Env (WsClose k))] w in
  let s' := run (env_trace evs) (fst s) in
  snd s = [SocketCreated k; Emitted "disconnected"] /\
  connectPromises (fst s) !! k = Some ByReconnect /\
  silent (snd s') /\
  connection_attempts (snd s') = O /\
  fallback_notifications (snd s') = O /\
  connected (this (fst s')) = false /\
  useRestFallback (this (fst s')) = false.
Proof.
  intros (Hr & Ha & Hc & Hu & Hrt & Hct & Hdown) k s s'.
  assert (Hlook : (sockets w ++ [CONNECTING]) !! List.length (sockets w)
                  = Some CONNECTING)
    by (apply list_lookup_middle; reflexivity).
  assert (Hs : snd s = [SocketCreated k; Emitted "disconnected"] /\
               connectPromises (fst s) !! k = Some ByReconnect /\
               resting (fst s) (fst s) /\ reconnectTimers (fst s) = O /\
               useRestFallback (this (fst s)) = false).
  { unfold s, k.
    focus_on (run [(t, Env ReconnectTimerFires);
                   (t', Env (WsClose (List.length (sockets w))))] w).
    unfold run, step. simpl fst. simpl snd.
    unfold handle, react, fireReconnectTimer, reconnectTimer, connect,
      closed, onClose, stopHealthMonitoring, set_socket, socket_is.
    evaluate. rewrite Hrt. evaluate. rewrite Hlook. evaluate.
    rewrite Hr. evaluate. conclude.
    split; [reflexivity|]. split; [apply lookup_insert_eq|].
    split; [|split; [reflexivity | exact Hu]].
    repeat split; simpl; try assumption; try reflexivity.
    - rewrite Hct. clear. set_solver.
    - intros k' st Hk'. simpl in Hk'.
      rewrite insert_app_r_alt in Hk' by lia.
      rewrite Nat.sub_diag in Hk'. simpl in Hk'.
      apply lookup_app_Some in Hk' as [Hk'|[_ Hk']].
      + eapply Hdown; eassumption.
      + destruct (k' - List.length (sockets w))%nat; simpl in Hk';
          [|discriminate]. inversion Hk'. right. reflexivity.
    - intros Hfb. rewrite Hu in Hfb. discriminate. }
  destruct Hs as (Hout & Hpromise & Hrest & Htimer & Huse).
  split; [exact Hout|]. split; [exact Hpromise|].
  assert (Hstay : at_rest (fst s) (fst s') ([] ++ snd s')).
  { unfold s'.
    apply (keeps_run (at_rest (fst s)) (fun i => exists e, i = Env e)).
    - intros now i (e & ->). apply react_keeps_rest. right. exact Htimer.
    - unfold env_trace. apply List.Forall_forall. intros ti Hin.
      apply List.in_map_iff in Hin as ([t0 e] & <- & _). exists e. reflexivity.
    - split; [exact Hrest | constructor]. }
  simpl in Hstay. destruct Hstay as [Hrest' Hsilent].
  destruct Hrest' as (_ & Hconn' & _ & _ & _ & _ & Huse' & _).
  destruct (silent_history _ Hsilent) as [Hf Ha'].
  repeat split; try assumption. congruence.
Qed.

(** X19. A failed attempt and the backoff. When the connection timeout of
    attempt [j + 1] fires, the socket is terminated, the promise of
    [connect()] is rejected, and the next attempt is scheduled after
    [min(reconnectDelay * 2 ^ j, maxReconnectDelay)] milliseconds, or,
    when [maxReconnectAttempts] attempts have failed, the fallback is
    announced instead. *)
Theorem failed_attempt_backoff j w t t' :
  retrying j w ->
  let k := List.length (sockets w) in
  let cfg := config (this w) in
  let s := run [(t, Env ReconnectTimerFires);
                (t', Env (ConnectionTimeoutFires k))] w in
  snd s = [SocketCreated k; SocketClosing k;
           ConnectSettled k (Some ConnectionTimeout);
           if j + 1 >? maxReconnectAttempts cfg then Emitted "fallback"
           else ReconnectScheduled
                  (Z.min (reconnectDelay cfg * 2 ^ (j + 1 - 1))
                         (maxReconnectDelay cfg))].
Proof.
  intros (Hr & Ha & Hc & Hu & Hrt & Hct & Hdown) k cfg.
  assert (Hin : bool_decide
                  (List.length (sockets w) ∈
                     connectionTimers w ∪ {[List.length (sockets w)]}) = true)
    by (apply bool_decide_eq_true_2; clear; set_solver).
  assert (Hlook : (sockets w ++ [CONNECTING]) !! List.length (sockets w)
                  = Some CONNECTING)
    by (apply list_lookup_middle; reflexivity).
  unfold k, cfg.
  destruct (j + 1 >? maxReconnectAttempts (config (this w))) eqn:Egt.
  all: focus_on (run [(t, Env ReconnectTimerFires);
                      (t', Env (ConnectionTimeoutFires
                                  (List.length (sockets w))))] w).
  all: unfold run, step; simpl fst; simpl snd.
  all: unfold handle, react, fireReconnectTimer, reconnectTimer, connect,
    fireConnectionTimeout, connectionTimedOut, terminate_ws, socket_shutdown,
    settleConnect, handleReconnect, startRestPolling.
  all: evaluate; rewrite Hrt.
  all: repeat (first [ progress evaluate
                     | progress (rewrite ?Hin, ?Hc, ?Hlook, ?lookup_insert_eq,
                                   ?Ha, ?Egt, ?Hu) ]).
  - destruct (restPollTimer (this w)) as [tmp|]; evaluate; conclude;
      reflexivity.
  - conclude. reflexivity.
Qed.

(** [disconnect()] at 50 ms; the socket reports its close, and a stray
    timer and a stray open follow. *)
Lemma disconnect_is_final_witness :
  let s := step (50, App CallDisconnect) online in
  let s' := run (env_trace [(60, WsClose 0); (1060, ReconnectTimerFires);
                            (1070, WsOpen 1)]) (fst s) in
  snd s = [SocketClosing 0] /\
  connected (this (fst s')) = false /\
  connection_attempts (snd s') = O.
Proof.
  intros s s'.
  destruct (disconnect_is_final 0 online 50
              [(60, WsClose 0); (1060, ReconnectTimerFires); (1070, WsOpen 1)]
              SampleFacts.online_steady)
    as (Hout & _ & _ & Hoff & Hnone & _); [reflexivity|].
  split; [exact Hout|]. split; [exact Hoff | exact Hnone].
Defined.

(** The first attempt at 1100 ms; its socket closes at 1200 ms. *)
Lemma closed_attempt_stalls_witness :
  let s := run [(1100, Env ReconnectTimerFires); (1200, Env (WsClose 1))] dropped in
  let s' := run (env_trace [(2200, ReconnectTimerFires); (30000, PingTick);
                            (40000, StalenessTick)]) (fst s) in
  snd s = [SocketCreated 1; Emitted "disconnected"] /\
  connection_attempts (snd s') = O /\
  connected (this (fst s')) = false /\
  useRestFallback (this (fst s')) = false.
Proof.
  intros s s'.
  destruct (closed_attempt_stalls 1 dropped 1100 1200
              [(2200, ReconnectTimerFires); (30000, PingTick);
               (40000, StalenessTick)] SampleFacts.dropped_retrying)
    as (Hout & _ & _ & Hnone & _ & Hoff & Hmode).
  repeat split; assumption.
Defined.

(** The first attempt times out: the second is scheduled after 2000 ms. *)
Lemma failed_attempt_backoff_witness :
  snd (run [(1100, Env ReconnectTimerFires);
            (11100, Env (ConnectionTimeoutFires 1))] dropped)
  = [SocketCreated 1; SocketClosing 1;
     ConnectSettled 1 (Some ConnectionTimeout); ReconnectScheduled 2000].
Proof.
  exact (failed_attempt_backoff 1 dropped 1100 11100 SampleFacts.dropped_retrying).
Defined.

End LifecycleFacts.

Module OpenFacts.
Import Num RateLimiter Quantizer Connector ConnectorLogic ConnectorFacts
  TransportLogic TransportFacts.
Local Open Scope string_scope.
Local Open Scope list_scope.

Local Arguments bind {A B} m k w /.
Local Arguments try_catch {A} m handler w /.
Local Arguments ret {A} v w /.
Local Arguments throw {A} e w /.
Local Arguments get w /.
Local Arguments modify f w /.
Local Arguments assign f w /.
Local Arguments tell o w /.
Local Arguments exec {A} m w /.
Local Arguments upd f w /.

(** ** Replaying the subscriptions *)

Ltac undisturbed_side :=
  let Hsame := fresh "Hsame" in
  let Hh := fresh "Hh" in
  intros ? ? [Hsame Hh]; split;
  [ destruct Hsame
      as (? & ? & ? & ? & ? & ? & ? & ? & ? & ? & ? & ? & ? & ? & ? & ? & ?);
    repeat split; simpl; assumption
  | first [ exact Hh
          | apply List.Forall_app; split; [exact Hh | repeat constructor] ] ].

Lemma same_transport_refl w : same_transport w w.
Proof. repeat split. Qed.

Section Replay.
Variable w0 : World.
Hypothesis Hpush : useRestFallback (this w0) = false.

Lemma subscribeOrderbook_undisturbed now coin :
  keeps (undisturbed w0) (subscribeOrderbook now coin).
Proof.
  apply keeps_at_intro. intros w h H.
  unfold subscribeOrderbook. apply keeps_at_read. cbv beta.
  assert (Hu : useRestFallback (this w) = false).
  { destruct H as [Hsame _].
    destruct Hsame as (_ & _ & _ & _ & _ & _ & _ & _ & _ & _ & Hu & _).
    congruence. }
  rewrite Hu.
  destruct (negb (connected (this w)) && negb false).
  - unfold keeps_at. simpl. rewrite List.app_nil_r. exact H.
  - apply keeps_at_of; [|exact H]. keeps_walk undisturbed_side.
Qed.

Lemma resubscribe_undisturbed now : keeps (undisturbed w0) (resubscribe now).
Proof.
  unfold resubscribe. apply keeps_bind; [apply keeps_get | intros w].
  apply keeps_for_each. intros coin.
  apply keeps_try_catch; [apply subscribeOrderbook_undisturbed|].
  intros e. apply keeps_ret.
Qed.
End Replay.

Lemma for_each_ok {A} (body : A -> M unit) (xs : list A) :
  (forall x w, fst (fst (body x w)) = Ok tt) ->
  forall w, fst (fst (for_each xs body w)) = Ok tt.
Proof.
  intros Hb. induction xs as [|x xs IH]; intros w; simpl; [reflexivity|].
  specialize (Hb x w). destruct (body x w) as [[res w1] out1]. simpl in Hb.
  subst res. specialize (IH w1).
  destruct (for_each xs body w1) as [[res2 w2] out2]. exact IH.
Qed.

Lemma resubscribe_ok now w : fst (fst (resubscribe now w)) = Ok tt.
Proof.
  unfold resubscribe, bind, get.
  assert (H : forall x w1,
             fst (fst (try_catch (subscribeOrderbook now x)
                         (fun _ => ret tt) w1)) = Ok tt).
  { intros x w1. unfold try_catch.
    destruct (subscribeOrderbook now x w1) as [[[[]|e] w2] out2]; reflexivity. }
  pose proof (for_each_ok _ (subscriptions (this w)) H w) as Hok.
  destruct (for_each (subscriptions (this w))
              (fun coin => try_catch (subscribeOrderbook now coin)
                             (fun _ => ret tt)) w) as [[res w2] out2].
  exact Hok.
Qed.

(** ** The ['open'] of a socket *)

(** What the ['open'] handler makes of the world, whatever is
    subscribed. *)
Lemma open_connects now k w :
  sockets w !! k = Some CONNECTING ->
  let s := step (now, Env (WsOpen k)) w in
  let w' := fst s in
  (connected (this w') = true /\
   reconnecting (this w') = false /\
   reconnectAttempts (this w') = 0 /\
   useRestFallback (this w') = false /\
   pingTimer (this w') = true) /\
  (intentionalDisconnect (this w') = intentionalDisconnect (this w) /\
   config (this w') = config (this w) /\
   ws (this w') = ws (this w) /\
   restPollTimer (this w') = restPollTimer (this w) /\
   reconnectTimers w' = reconnectTimers w) /\
  sockets w' = <[k := OPEN]> (sockets w) /\
  connectionTimers w'
  = match connectionTimeout (this w) with
    | Some ct => connectionTimers w ∖ {[ct]}
    | None => connectionTimers w
    end /\
  silent (snd s) /\
  In (Emitted "connected") (snd s) /\
  (forall origin, connectPromises w !! k = Some origin ->
                  In (ConnectSettled k None) (snd s)).
Proof.
  intros Hk. focus_on (step (now, Env (WsOpen k)) w).
  unfold step. simpl fst. simpl snd.
  unfold handle, react, opened, onOpen, startHealthMonitoring,
    stopHealthMonitoring, settleConnect, set_socket, socket_is.
  evaluate. rewrite Hk. evaluate.
  destruct (connectionTimeout (this w)) as [ct|] eqn:Ect; evaluate;
    rewrite ?Ect; evaluate.
  all: lazymatch goal with
       | |- context [resubscribe ?t ?w1] =>
           pose proof (resubscribe_ok t w1) as Hok;
           assert (Hu : useRestFallback (this w1) = false) by reflexivity;
           assert (Hinv : undisturbed w1 w1 [])
             by (split; [apply same_transport_refl | apply List.Forall_nil]);
           pose proof (resubscribe_undisturbed w1 Hu t w1 [] Hinv) as Hfr;
           clear Hu Hinv;
           destruct (resubscribe t w1) as [[res w2] out2]
       end.
  all: cbn [fst snd] in Hok, Hfr; subst res.
  all: destruct Hfr as [(F1 & F2 & F3 & F4 & F5 & F6 & F7 & F8 & F9 & F10
                         & F11 & F12 & F13 & F14 & F15 & F16 & F17) Hsil].
  all: evaluate; rewrite F14; evaluate.
  all: destruct (connectPromises w !! k) as [origin|] eqn:Ecp; evaluate;
    try (destruct origin; evaluate); conclude.
  all: repeat split;
    try (etransitivity; [eassumption|]; reflexivity).
  all: try (apply List.Forall_app; split; [exact Hsil | repeat constructor]).
  all: try (apply List.in_or_app; right; simpl; tauto).
  all: try discriminate.
  all: intros _ _; apply List.in_or_app; right; simpl; tauto.
Qed.

(** What [connect()] makes of the world: a new socket, number
    [length (sockets w)], with its connection timeout. *)
Lemma connect_effect origin w :
  let k := List.length (sockets w) in
  let s := connect origin w in
  let w' := snd (fst s) in
  snd s = [SocketCreated k] /\
  sockets w' = sockets w ++ [CONNECTING] /\
  connectionTimers w' = connectionTimers w ∪ {[k]} /\
  connectPromises w' = <[k := origin]> (connectPromises w) /\
  reconnectTimers w' = reconnectTimers w /\
  this w' = set_connectionTimeout (Some k)
              (set_ws (Some k) (set_intentionalDisconnect false (this w))).
Proof. cbv zeta. unfold connect. simpl. repeat split. Qed.

Lemma timer_connects t n w :
  reconnectTimers w = S n ->
  let k := List.length (sockets w) in
  let s := step (t, Env ReconnectTimerFires) w in
  snd s = [SocketCreated k] /\
  sockets (fst s) = sockets w ++ [CONNECTING] /\
  connectionTimers (fst s) = connectionTimers w ∪ {[k]} /\
  connectPromises (fst s) = <[k := ByReconnect]> (connectPromises w) /\
  reconnectTimers (fst s) = n /\
  this (fst s) = set_connectionTimeout (Some k)
                   (set_ws (Some k) (set_intentionalDisconnect false (this w))).
Proof.
  intros Hrt. cbv zeta. unfold step. simpl fst. simpl snd.
  unfold handle, react, fireReconnectTimer, reconnectTimer, connect.
  evaluate. rewrite Hrt. evaluate. repeat split.
Qed.

Lemma call_connects t w :
  let k := List.length (sockets w) in
  let s := step (t, App CallConnect) w in
  snd s = [SocketCreated k] /\
  sockets (fst s) = sockets w ++ [CONNECTING] /\
  connectionTimers (fst s) = connectionTimers w ∪ {[k]} /\
  connectPromises (fst s) = <[k := ByCaller]> (connectPromises w) /\
  reconnectTimers (fst s) = reconnectTimers w /\
  this (fst s) = set_connectionTimeout (Some k)
                   (set_ws (Some k) (set_intentionalDisconnect false (this w))).
Proof.
  cbv zeta. unfold step. simpl fst. simpl snd.
  unfold handle, serve, connect. evaluate. repeat split.
Qed.

(** What [disconnect()] leaves of the reconnect machinery: the timer of
    [handleReconnect] stays armed, and no socket is added. *)
Lemma disconnect_effect t w :
  let s := step (t, App CallDisconnect) w in
  reconnectTimers (fst s) = reconnectTimers w /\
  List.length (sockets (fst s)) = List.length (sockets w) /\
  intentionalDisconnect (this (fst s)) = true /\
  connected (this (fst s)) = false /\
  subscriptions (this (fst s)) = [] /\
  connection_attempts (snd s) = O.
Proof.
  focus_on (step (t, App CallDisconnect) w).
  unfold step. simpl fst. simpl snd.
  unfold handle, serve, disconnect, stopHealthMonitoring, stopRestPolling,
    stopPeriodicRestRefresh, stopStalenessMonitoring, socket_shutdown.
  evaluate.
  destruct (connectionTimeout (this w)) as [ct|]; evaluate;
    (destruct (ws (this w)) as [k0|]; evaluate;
     [destruct (sockets w !! k0) as [[| | |]|]; evaluate|]);
    conclude; rewrite ?length_insert; repeat split.
Qed.

Lemma open_socket_lookup (sk : list ReadyState) :
  <[List.length sk := OPEN]> (sk ++ [CONNECTING]) !! List.length sk = Some OPEN.
Proof.
  apply list_lookup_insert_eq. rewrite length_app. simpl. lia.
Qed.

(** ** Reconnection that succeeds *)

(** X20. A reconnect attempt whose socket opens brings the connector back to
    steady connected state: the attempt counter is back at [0], no timer
    of the reconnect machinery is left, the new socket is the only one
    that is not down, and ['connected'] is emitted. *)
Theorem reconnect_succeeds j w t t' :
  retrying j w ->
  let k := List.length (sockets w) in
  let s := run [(t, Env ReconnectTimerFires); (t', Env (WsOpen k))] w in
  steady k (fst s) /\
  ws (this (fst s)) = Some k /\
  pingTimer (this (fst s)) = true /\
  connection_attempts (snd s) = 1%nat /\
  fallback_notifications (snd s) = O /\
  In (Emitted "connected") (snd s) /\
  In (ConnectSettled k None) (snd s).
Proof.
  intros (Hr & Ha & Hc & Hu & Hrt & Hct & Hdown) k s.
  unfold s. cbn [run].
  pose proof (timer_connects t O w Hrt) as H1. cbv zeta in H1.
  destruct (step (t, Env ReconnectTimerFires) w) as [w1 out1].
  cbn [fst snd] in H1.
  destruct H1 as (Hout1 & Hsk1 & Hct1 & Hcp1 & Hrt1 & Hthis1).
  assert (Hk1 : sockets w1 !! k = Some CONNECTING)
    by (rewrite Hsk1; apply list_lookup_middle; reflexivity).
  pose proof (open_connects t' k w1 Hk1) as H2. cbv zeta in H2.
  destruct (step (t', Env (WsOpen k)) w1) as [w2 out2].
  cbn [fst snd] in H2 |- *.
  destruct H2 as ((G1 & G2 & G3 & G4 & G5) & (G6 & G7 & G8 & G9 & G10)
                  & Hsk2 & Hct2 & Hsil & Hconn & Hsettled).
  rewrite Hthis1 in G6, G8, Hct2. simpl in G6, G8, Hct2.
  destruct (silent_history _ Hsil) as [Hf2 Ha2].
  rewrite List.app_nil_r, Hout1.
  split; [|repeat split].
  - repeat split; try assumption.
    + rewrite Hsk2, Hsk1. apply open_socket_lookup.
    + intros k' st Hk'. rewrite Hsk2, Hsk1 in Hk'.
      destruct (decide (k' = k)) as [->|Hne]; [left; reflexivity | right].
      rewrite list_lookup_insert_ne in Hk' by auto.
      apply lookup_app_Some in Hk' as [Hk'|[Hge Hk']].
      * eapply Hdown; eassumption.
      * unfold k in *.
        destruct (k' - List.length (sockets w))%nat eqn:E; [lia|].
        simpl in Hk'. discriminate.
    + rewrite Hct2, Hct1, Hct. clear. set_solver.
    + rewrite G10. exact Hrt1.
  - exact G8.
  - exact G5.
  - simpl. unfold connection_attempts in *. simpl. rewrite Ha2. reflexivity.
  - unfold fallback_notifications in *. simpl. exact Hf2.
  - right. exact Hconn.
  - right. apply (Hsettled ByReconnect). rewrite Hcp1. apply lookup_insert_eq.
Qed.

(** X21. [disconnect()] during the backoff does not cancel the scheduled
    attempt. The timer of [handleReconnect] is not cleared: when it
    fires, [connect()] resets [intentionalDisconnect] and opens a new
    socket, and once that socket is open the connector is connected
    again, although the caller has disconnected. *)
Theorem disconnect_during_backoff n w t1 t2 t3 :
  reconnectTimers w = S n ->
  let k := List.length (sockets w) in
  let s := run [(t1, App CallDisconnect); (t2, Env ReconnectTimerFires);
                (t3, Env (WsOpen k))] w in
  connected (this (fst s)) = true /\
  intentionalDisconnect (this (fst s)) = false /\
  sockets (fst s) !! k = Some OPEN /\
  connection_attempts (snd s) = 1%nat /\
  In (Emitted "connected") (snd s).
Proof.
  intros Hrt k s. unfold s. cbn [run].
  pose proof (disconnect_effect t1 w) as H0. cbv zeta in H0.
  destruct (step (t1, App CallDisconnect) w) as [w0 out0].
  cbn [fst snd] in H0. destruct H0 as (Hrt0 & Hlen0 & _ & _ & _ & Hatt0).
  rewrite Hrt in Hrt0.
  pose proof (timer_connects t2 n w0 Hrt0) as H1. cbv zeta in H1.
  rewrite Hlen0 in H1. fold k in H1.
  destruct (step (t2, Env ReconnectTimerFires) w0) as [w1 out1].
  cbn [fst snd] in H1.
  destruct H1 as (Hout1 & Hsk1 & Hct1 & Hcp1 & Hrt1 & Hthis1).
  assert (Hk1 : sockets w1 !! k = Some CONNECTING).
  { rewrite Hsk1. unfold k. rewrite <- Hlen0.
    apply list_lookup_middle. reflexivity. }
  pose proof (open_connects t3 k w1 Hk1) as H2. cbv zeta in H2.
  destruct (step (t3, Env (WsOpen k)) w1) as [w2 out2].
  cbn [fst snd] in H2 |- *.
  destruct H2 as ((G1 & G2 & G3 & G4 & G5) & (G6 & G7 & G8 & G9 & G10)
                  & Hsk2 & Hct2 & Hsil & Hconn & Hsettled).
  rewrite Hthis1 in G6. simpl in G6.
  destruct (silent_history _ Hsil) as [Hf2 Ha2].
  rewrite List.app_nil_r, Hout1.
  repeat split; try assumption.
  - rewrite Hsk2, Hsk1. unfold k. rewrite <- Hlen0. apply open_socket_lookup.
  - rewrite connection_attempts_app, Hatt0.
    unfold connection_attempts in *. simpl. rewrite Ha2. reflexivity.
  - apply List.in_or_app. right. right. exact Hconn.
Qed.

(** X22. Out of the fallback. In REST-fallback mode a [connect()] of the
    caller whose socket opens clears [useRestFallback]; the polling
    started by the fallback then stops itself at its next tick. Polling
    that had been started as temporary before the fallback goes on (the
    staleness check is what stops that one). *)
Theorem fallback_ends_on_connect w t1 t2 t3 :
  in_fallback w ->
  let k := List.length (sockets w) in
  let s := run [(t1, App CallConnect); (t2, Env (WsOpen k));
                (t3, Env RestPollTick)] w in
  connected (this (fst s)) = true /\
  useRestFallback (this (fst s)) = false /\
  reconnecting (this (fst s)) = false /\
  restPollTimer (this (fst s))
  = match restPollTimer (this w) with
    | Some true => Some true
    | _ => None
    end /\
  connection_attempts (snd s) = 1%nat.
Proof.
  intros (Hu & Hp & Hr & Hc & Hrt & Hct & Hdown) k s. unfold s. cbn [run].
  pose proof (call_connects t1 w) as H1. cbv zeta in H1. fold k in H1.
  destruct (step (t1, App CallConnect) w) as [w1 out1].
  cbn [fst snd] in H1.
  destruct H1 as (Hout1 & Hsk1 & Hct1 & Hcp1 & Hrt1 & Hthis1).
  assert (Hk1 : sockets w1 !! k = Some CONNECTING)
    by (rewrite Hsk1; apply list_lookup_middle; reflexivity).
  pose proof (open_connects t2 k w1 Hk1) as H2. cbv zeta in H2.
  destruct (step (t2, Env (WsOpen k)) w1) as [w2 out2].
  cbn [fst snd] in H2.
  destruct H2 as ((G1 & G2 & G3 & G4 & G5) & (G6 & G7 & G8 & G9 & G10)
                  & Hsk2 & Hct2 & Hsil & Hconn & Hsettled).
  rewrite Hthis1 in G9. simpl in G9.
  destruct (silent_history _ Hsil) as [Hf2 Ha2].
  assert (H3 : step (t3, Env RestPollTick) w2
               = (match restPollTimer (this w) with
                  | Some false => upd (set_restPollTimer None) w2
                  | _ => w2
                  end, [])).
  { unfold step. simpl fst. simpl snd.
    unfold handle, react, restPollTick, stopRestPolling. evaluate.
    rewrite G9.
    destruct (restPollTimer (this w)) as [[|]|]; evaluate; rewrite ?G4;
      reflexivity. }
  rewrite H3. cbn [fst snd]. rewrite !List.app_nil_r, Hout1.
  assert (Hatt : connection_attempts (SocketCreated k :: out2) = 1%nat)
    by (unfold connection_attempts in *; simpl; rewrite Ha2; reflexivity).
  destruct (restPollTimer (this w)) as [[|]|] eqn:Et; simpl;
    repeat split; try assumption.
Qed.

(** The first attempt opens after 100 ms. *)
Lemma reconnect_succeeds_witness :
  let s := run [(1100, Env ReconnectTimerFires); (1200, Env (WsOpen 1))] dropped in
  steady 1 (fst s) /\ ws (this (fst s)) = Some 1%nat.
Proof.
  intros s.
  destruct (reconnect_succeeds 1 dropped 1100 1200 SampleFacts.dropped_retrying)
    as (Hsteady & Hws & _).
  split; [exact Hsteady | exact Hws].
Defined.

(** [disconnect()] at 500 ms, while the reconnect timer of 1100 ms is
    armed. *)
Lemma disconnect_during_backoff_witness :
  let s := run [(500, App CallDisconnect); (1100, Env ReconnectTimerFires);
                (1200, Env (WsOpen 1))] dropped in
  connected (this (fst s)) = true /\
  intentionalDisconnect (this (fst s)) = false.
Proof.
  intros s.
  destruct (disconnect_during_backoff 0 dropped 500 1100 1200)
    as (Hon & Hflag & _); [vm_compute; reflexivity|].
  split; [exact Hon | exact Hflag].
Defined.

(** A caller connects again a minute later. *)
Lemma fallback_ends_on_connect_witness :
  let s := run [(60000, App CallConnect); (60100, Env (WsOpen 2));
                (61000, Env RestPollTick)] fallen in
  connected (this (fst s)) = true /\
  useRestFallback (this (fst s)) = false /\
  restPollTimer (this (fst s)) = None.
Proof.
  intros s.
  destruct (fallback_ends_on_connect fallen 60000 60100 61000 SampleFacts.fallen_in_fallback)
    as (Hon & Hmode & _ & Hpoll & _).
  split; [exact Hon|]. split; [exact Hmode | exact Hpoll].
Defined.

End OpenFacts.

Module HealthFacts.
Import Num RateLimiter Quantizer Connector ConnectorLogic ConnectorFacts
  TransportLogic TransportFacts.
Local Open Scope string_scope.
Local Open Scope list_scope.

Local Arguments bind {A B} m k w /.
Local Arguments try_catch {A} m handler w /.
Local Arguments ret {A} v w /.
Local Arguments throw {A} e w /.
Local Arguments get w /.
Local Arguments modify f w /.
Local Arguments assign f w /.
Local Arguments tell o w /.
Local Arguments exec {A} m w /.
Local Arguments upd f w /.

(** X23. A dead connection is found and replaced. On a connector in steady
    connected state the ping tick terminates the socket at once when the
    last pong is older than [pongTimeout + pingInterval]; otherwise it
    sends a ping, and the pong timeout terminates the socket when no
    pong comes. Either way the ['close'] of the socket schedules the
    first reconnect attempt. *)
Theorem dead_connection_reconnects k0 w now t2 t3 :
  steady k0 w ->
  ws (this w) = Some k0 ->
  pingTimer (this w) = true ->
  1 <= maxReconnectAttempts (config (this w)) ->
  let cfg := config (this w) in
  let late := now - lastPongReceived (this w)
              >? pongTimeout cfg + pingInterval cfg in
  let tr := if late
            then [(now, Env PingTick); (t3, Env (WsClose k0))]
            else [(now, Env PingTick); (t2, Env PongTimeoutFires);
                  (t3, Env (WsClose k0))] in
  retrying 1 (fst (run tr w)) /\
  snd (run tr w)
  = (if late then [] else [PingSent k0])
    ++ [SocketClosing k0; Emitted "disconnected";
        ReconnectScheduled (Z.min (reconnectDelay cfg * 2 ^ (0 + 1 - 1))
                                  (maxReconnectDelay cfg))].
Proof.
  intros (Hc & Hr & Hi & Ha & Hu & Hk0 & Hothers & Hct & Hrt) Hws Hping Hmax.
  cbv zeta.
  assert (Hgt : (0 + 1 >? maxReconnectAttempts (config (this w))) = false)
    by lia.
  assert (Hclosing : <[k0 := CLOSING]> (sockets w) !! k0 = Some CLOSING)
    by (apply list_lookup_insert_eq; eapply lookup_lt_Some; eauto).
  destruct (now - lastPongReceived (this w)
            >? pongTimeout (config (this w)) + pingInterval (config (this w)))
    eqn:Elate.
  - focus_on (run [(now, Env PingTick); (t3, Env (WsClose k0))] w).
    unfold run, step. simpl fst. simpl snd.
    unfold handle, react, pingTick, terminate_ws, socket_shutdown, closed,
      onClose, stopHealthMonitoring, handleReconnect, set_socket, socket_is.
    evaluate.
    repeat (first [ progress evaluate
                  | progress (rewrite ?Hping, ?Hws, ?Hc, ?Elate, ?Hk0,
                                ?Hclosing, ?Hr, ?Hi, ?Ha, ?Hgt) ]).
    destruct (connectionTimeout (this w)) as [ct|];
      repeat (first [ progress evaluate
                    | progress (rewrite ?Hr, ?Hi, ?Ha, ?Hgt) ]);
      conclude.
    all: split; [|reflexivity].
    all: repeat split; simpl; try assumption; try reflexivity.
    all: try (rewrite Hrt; reflexivity).
    all: try (rewrite Hct; clear; set_solver).
    all: intros k st Hk; simpl in Hk;
      rewrite list_insert_insert_eq in Hk;
      eapply closed_socket_down; eassumption.
  - focus_on (run [(now, Env PingTick); (t2, Env PongTimeoutFires);
                   (t3, Env (WsClose k0))] w).
    unfold run, step. simpl fst. simpl snd.
    unfold handle, react, pingTick, setPongTimeout, firePongTimeout,
      pongTimedOut, terminate_ws,
      socket_shutdown, closed, onClose, stopHealthMonitoring,
      handleReconnect, set_socket, socket_is.
    evaluate.
    repeat (first [ progress evaluate
                  | progress (rewrite ?Hping, ?Hws, ?Hc, ?Elate, ?Hk0,
                                ?Hclosing, ?Hr, ?Hi, ?Ha, ?Hgt) ]).
    destruct (connectionTimeout (this w)) as [ct|];
      repeat (first [ progress evaluate
                    | progress (rewrite ?Hr, ?Hi, ?Ha, ?Hgt) ]);
      conclude.
    all: split; [|reflexivity].
    all: repeat split; simpl; try assumption; try reflexivity.
    all: try (rewrite Hrt; reflexivity).
    all: try (rewrite Hct; clear; set_solver).
    all: intros k st Hk; simpl in Hk;
      rewrite list_insert_insert_eq in Hk;
      eapply closed_socket_down; eassumption.
Qed.

(** X24. A pong in time keeps the connection. With no pong timeout armed
    before, a ping tick arms one; the pong clears it and records its
    time: the timeout does not fire, the socket stays open, and the
    next ping tick finds the connection alive as long as it comes
    within [pongTimeout + pingInterval] of that pong. *)
Theorem pong_keeps_connection k0 w now t1 t2 :
  steady k0 w ->
  ws (this w) = Some k0 ->
  pingTimer (this w) = true ->
  pongTimers w = O ->
  now - lastPongReceived (this w)
  <= pongTimeout (config (this w)) + pingInterval (config (this w)) ->
  let s := run [(now, Env PingTick); (t1, Env (WsPong k0));
                (t2, Env PongTimeoutFires)] w in
  snd s = [PingSent k0] /\
  steady k0 (fst s) /\
  lastPongReceived (this (fst s)) = t1 /\
  pongTimer (this (fst s)) = false /\
  pongTimers (fst s) = O /\
  forall next,
    next - t1 <= pongTimeout (config (this w)) + pingInterval (config (this w)) ->
    snd (step (next, Env PingTick) (fst s)) = [PingSent k0].
Proof.
  intros (Hc & Hr & Hi & Ha & Hu & Hk0 & Hothers & Hct & Hrt) Hws Hping Hpt
    Hlive.
  assert (Elate : (now - lastPongReceived (this w)
                   >? pongTimeout (config (this w))
                      + pingInterval (config (this w))) = false) by lia.
  focus_on (run [(now, Env PingTick); (t1, Env (WsPong k0));
                 (t2, Env PongTimeoutFires)] w).
  unfold run, step. simpl fst. simpl snd.
  unfold handle, react, pingTick, setPongTimeout, onPong, firePongTimeout,
    pongTimedOut, socket_is.
  evaluate.
  repeat (first [ progress evaluate
                | progress (rewrite ?Hping, ?Hws, ?Hc, ?Elate, ?Hk0, ?Hpt) ]).
  conclude.
  split; [reflexivity|]. split; [repeat split; assumption|].
  split; [reflexivity|]. split; [reflexivity|]. split; [reflexivity|].
  intros next Hnext.
  assert (Enext : (next - t1 >? pongTimeout (config (this w))
                                 + pingInterval (config (this w))) = false)
    by lia.
  unfold step. simpl fst. simpl snd.
  unfold handle, react, pingTick, setPongTimeout. evaluate.
  repeat (first [ progress evaluate
                | progress (rewrite ?Hping, ?Hws, ?Hc, ?Enext, ?Hk0) ]).
  reflexivity.
Qed.

(** X28. A ping tick that comes while the pong timeout of the tick
    before is still armed (a [pingInterval] shorter than [pongTimeout]) orphans
    that timeout: the field [pongTimer] is overwritten, the pong clears
    only the timeout set last, and the earlier one terminates the socket
    although the pong has arrived. *)
Theorem overlapping_pings_terminate k0 w now1 now2 t1 t2 :
  steady k0 w ->
  ws (this w) = Some k0 ->
  pingTimer (this w) = true ->
  now1 - lastPongReceived (this w)
  <= pongTimeout (config (this w)) + pingInterval (config (this w)) ->
  now2 - lastPongReceived (this w)
  <= pongTimeout (config (this w)) + pingInterval (config (this w)) ->
  let s := run [(now1, Env PingTick); (now2, Env PingTick);
                (t1, Env (WsPong k0)); (t2, Env PongTimeoutFires)] w in
  snd s = [PingSent k0; PingSent k0; SocketClosing k0] /\
  lastPongReceived (this (fst s)) = t1 /\
  pongTimer (this (fst s)) = false /\
  sockets (fst s) !! k0 = Some CLOSING.
Proof.
  intros (Hc & Hr & Hi & Ha & Hu & Hk0 & Hothers & Hct & Hrt) Hws Hping
    Hlive1 Hlive2.
  assert (Elate1 : (now1 - lastPongReceived (this w)
                    >? pongTimeout (config (this w))
                       + pingInterval (config (this w))) = false) by lia.
  assert (Elate2 : (now2 - lastPongReceived (this w)
                    >? pongTimeout (config (this w))
                       + pingInterval (config (this w))) = false) by lia.
  focus_on (run [(now1, Env PingTick); (now2, Env PingTick);
                 (t1, Env (WsPong k0)); (t2, Env PongTimeoutFires)] w).
  unfold run, step. simpl fst. simpl snd.
  unfold handle, react, pingTick, setPongTimeout, onPong, firePongTimeout,
    pongTimedOut, terminate_ws, socket_shutdown, socket_is.
  evaluate.
  repeat (first [ progress evaluate
                | progress (rewrite ?Hping, ?Hws, ?Hc, ?Elate1, ?Elate2, ?Hk0) ]).
  conclude.
  split; [reflexivity|]. split; [reflexivity|]. split; [reflexivity|].
  apply list_lookup_insert_eq. eapply lookup_lt_Some. eassumption.
Qed.

(** X25. REST polling follows the staleness of the cache. On a connected
    connector that is not in fallback, the staleness check leaves the
    REST polling running exactly when some subscribed coin has a
    snapshot older than [stalenessThreshold]; polling that it starts is
    temporary, and a poll tick does not stop temporary polling. *)
Theorem polling_follows_staleness now w t :
  connected (this w) = true ->
  useRestFallback (this w) = false ->
  stalenessTimer (this w) = true ->
  let s := step (now, Env StalenessTick) w in
  isSet (restPollTimer (this (fst s))) = anyStale now (this w) /\
  (restPollTimer (this w) = None -> anyStale now (this w) = true ->
   restPollTimer (this (fst s)) = Some true /\
   restPollTimer (this (fst (step (t, Env RestPollTick) (fst s)))) = Some true) /\
  snd s = [].
Proof.
  intros Hc Hu Hst. cbv zeta.
  focus_on (step (now, Env StalenessTick) w).
  unfold step. simpl fst. simpl snd.
  unfold handle, react, stalenessCheck, startRestPolling, stopRestPolling.
  evaluate. rewrite Hst. evaluate. rewrite Hc, Hu. evaluate.
  destruct (anyStale now (this w)) eqn:Es; evaluate;
    destruct (restPollTimer (this w)) as [tmp|] eqn:Et; evaluate;
    rewrite ?Et, ?Hu; evaluate; rewrite ?Et; evaluate; conclude;
    rewrite ?Et; repeat split; try discriminate; try reflexivity.
Qed.

(** The first ping at 30 s without an answer; and a ping that comes a
    minute late. *)
Lemma dead_connection_reconnects_witness :
  retrying 1 (fst (run [(30005, Env PingTick); (40005, Env PongTimeoutFires);
                        (40010, Env (WsClose 0))] online)) /\
  retrying 1 (fst (run [(60005, Env PingTick); (60010, Env (WsClose 0))] online)).
Proof.
  split.
  - exact (proj1 (dead_connection_reconnects 0 online 30005 40005 40010
                    SampleFacts.online_steady eq_refl eq_refl ltac:(vm_compute; discriminate))).
  - exact (proj1 (dead_connection_reconnects 0 online 60005 0 60010
                    SampleFacts.online_steady eq_refl eq_refl ltac:(vm_compute; discriminate))).
Defined.

(** The first ping is answered after 45 ms. *)
Lemma pong_keeps_connection_witness :
  let s := run [(30005, Env PingTick); (30050, Env (WsPong 0));
                (40005, Env PongTimeoutFires)] online in
  snd s = [PingSent 0] /\ steady 0 (fst s) /\
  snd (step (60005, Env PingTick) (fst s)) = [PingSent 0].
Proof.
  intros s.
  destruct (pong_keeps_connection 0 online 30005 30050 40005
              SampleFacts.online_steady eq_refl eq_refl eq_refl
              ltac:(vm_compute; discriminate))
    as (Hout & Hsteady & _ & _ & _ & Hnext).
  split; [exact Hout|]. split; [exact Hsteady|].
  apply Hnext. vm_compute. discriminate.
Defined.

(** Ping ticks at 30 s and 35 s, the pong 50 ms later, and the first
    pong timeout at 40 s. *)
Lemma overlapping_pings_terminate_witness :
  snd (run [(30005, Env PingTick); (35005, Env PingTick);
            (35055, Env (WsPong 0)); (40005, Env PongTimeoutFires)] online)
  = [PingSent 0; PingSent 0; SocketClosing 0].
Proof.
  exact (proj1 (overlapping_pings_terminate 0 online 30005 35005 35055 40005
                  SampleFacts.online_steady eq_refl eq_refl
                  ltac:(vm_compute; discriminate)
                  ltac:(vm_compute; discriminate))).
Defined.

(** The BTC snapshot of 20 ms is stale at 100 s. *)
Lemma polling_follows_staleness_witness :
  let s := step (100000, Env StalenessTick) watching in
  restPollTimer (this (fst s)) = Some true /\
  restPollTimer (this (fst (step (102000, Env RestPollTick) (fst s)))) = Some true.
Proof.
  intros s.
  destruct (polling_follows_staleness 100000 watching 102000)
    as (_ & Hstart & _); try reflexivity.
  apply Hstart; vm_compute; reflexivity.
Defined.

End HealthFacts.
(* ===================================================================== *)
(** * Orders that cannot be priced *)
(* ===================================================================== *)

Module OrderFacts.
Import Num RateLimiter Quantizer Connector ConnectorLogic ConnectorFacts
  TransportLogic.
Local Open Scope string_scope.
Local Open Scope list_scope.

Local Arguments bind {A B} m k w /.
Local Arguments try_catch {A} m handler w /.
Local Arguments ret {A} v w /.
Local Arguments throw {A} e w /.
Local Arguments get w /.
Local Arguments modify f w /.
Local Arguments assign f w /.
Local Arguments tell o w /.
Local Arguments exec {A} m w /.
Local Arguments upd f w /.

(** The three lookups of [createMarketOrder] for a listed perp, with the
    caches loaded. *)
Lemma perp_lookup env coin w meta spotMeta :
  metaCache (this w) = Some meta ->
  spotMetaCache (this w) = Some spotMeta ->
  In coin (List.map name (universe meta)) ->
  Z.of_nat (List.length (universe meta)) <= 10000 ->
  exists id szd,
    getAssetId env coin false w = (Ok id, w, []) /\
    getAssetInfo coin (Some id) w
    = (Ok {| ai_name := coin; ai_szDecimals := szd; spotCoin := None |}, w, []) /\
    getCoinForOrderbook coin (Some id) w = (Ok coin, w, []).
Proof.
  intros Hm Hs Hin Hlen.
  pose proof (LookupFacts.findIndex_find coin (universe meta) 0) as Hf.
  destruct (findIndex_from 0 coin (universe meta)) as [i|] eqn:Ei.
  - destruct Hf as (Hle & Hnth & (asset & Hfind & Hname) & _).
    rewrite Z.sub_0_r in Hnth.
    assert (Hlt : i < 10000).
    { rewrite Hfind in Hnth.
      assert (Z.to_nat i < List.length (universe meta))%nat
        by (apply List.nth_error_Some; congruence). lia. }
    assert (Hge : (i >=? 10000) = false) by lia.
    exists i, (szDecimals asset). repeat split.
    + unfold getAssetId. simpl. rewrite Hm. simpl. rewrite Hs. simpl.
      rewrite Hm, Hs, Ei. reflexivity.
    + unfold getAssetInfo. simpl. rewrite Hm, Hge, Hfind. simpl.
      rewrite Hname. reflexivity.
    + unfold getCoinForOrderbook. rewrite Hge. reflexivity.
  - exfalso. apply List.in_map_iff in Hin as (asset & Hname & Hin).
    apply (List.find_none _ _ Hf) in Hin. rewrite Hname in Hin.
    rewrite String.eqb_refl in Hin. discriminate.
Qed.

(** X26. No price, no order. For a listed perp, with credentials and without
    a usable [overrideMidPrice] (missing, [0], [NaN] or infinite), a
    cache that has no bid or no ask for the coin, now and after the
    retry delay, makes [createMarketOrder] throw [NoMarketData]: nothing
    is signed or sent and the connector is as before. A bid or ask of
    [0] counts as missing. *)
Theorem no_price_no_order env coin side size options w meta spotMeta :
  isSet (wallet (config (this w))) = true ->
  signer (config (this w)) = true ->
  metaCache (this w) = Some meta ->
  spotMetaCache (this w) = Some spotMeta ->
  In coin (List.map name (universe meta)) ->
  Z.of_nat (List.length (universe meta)) <= 10000 ->
  isSpot options = false ->
  match overrideMidPrice options with
  | Some v => truthy v && isFinite v = false
  | None => True
  end ->
  quote_of (getBidAsk coin (this w)) = None ->
  whileRetrying env = [] ->
  createMarketOrder env coin side size options w
  = (Throw (NoMarketData coin), w, []).
Proof.
  intros Hw Hsg Hm Hs Hin Hlen Hspot Hover Hquote Hretry.
  destruct (perp_lookup env coin w meta spotMeta Hm Hs Hin Hlen)
    as (id & szd & Hid & Hinfo & Hcoin).
  unfold createMarketOrder, quantizeOrder.
  unfold bind at 1. unfold bind at 1. unfold get at 1. cbv beta iota.
  rewrite Hw, Hsg, Hspot. cbn [negb orb].
  unfold bind at 1. rewrite Hid. cbv beta iota.
  unfold bind at 1. rewrite Hinfo. cbv beta iota.
  unfold bind at 1. rewrite Hcoin. cbv beta iota.
  rewrite Hretry.
  destruct (overrideMidPrice options) as [v|]; [rewrite Hover|];
    simpl; rewrite Hquote; simpl; rewrite Hquote; reflexivity.
Qed.

(** ETH is listed, nothing is cached for it, and the override price is 0. *)
Lemma no_price_no_order_witness :
  createMarketOrder quiet "ETH" "buy" (parseFloat "0.5")
    {| isSpot := false; reduceOnly := false; slippage := None;
       overrideMidPrice := Some (parseFloat "0"); cloid := None;
       vaultAddress := None; useRest := false |} listed
  = (Throw (NoMarketData "ETH"), listed, []).
Proof.
  apply (no_price_no_order quiet "ETH" "buy" (parseFloat "0.5") _ listed
           twoPerps twoPairs); try reflexivity.
  - simpl. auto.
  - simpl. lia.
Defined.

End OrderFacts.
(* ===================================================================== *)
(** * Subscribing *)
(* ===================================================================== *)

Module SubscribeFacts.
Import Num RateLimiter Quantizer Connector ConnectorLogic ConnectorFacts
  TransportLogic.
Local Open Scope string_scope.
Local Open Scope list_scope.

Local Arguments bind {A B} m k w /.
Local Arguments try_catch {A} m handler w /.
Local Arguments ret {A} v w /.
Local Arguments throw {A} e w /.
Local Arguments get w /.
Local Arguments modify f w /.
Local Arguments assign f w /.
Local Arguments tell o w /.
Local Arguments exec {A} m w /.
Local Arguments upd f w /.

Lemma set_add_in coin subs : In coin (set_add coin subs).
Proof.
  unfold set_add. destruct (existsb (String.eqb coin) subs) eqn:E.
  - apply List.existsb_exists in E as (x & Hin & Heq).
    apply String.eqb_eq in Heq. subst x. exact Hin.
  - apply List.in_or_app. right. left. reflexivity.
Qed.

Lemma set_add_keeps coin subs other : In other subs -> In other (set_add coin subs).
Proof.
  unfold set_add. destruct (existsb (String.eqb coin) subs); [auto|].
  intros H. apply List.in_or_app. left. exact H.
Qed.

(** The code after the snapshot request of [subscribeOrderbook] leaves
    the subscriptions alone and starts the staleness check. *)
Lemma subscribeOrderbook_rest_effect w :
  let s := subscribeOrderbook_rest w in
  fst (fst s) = Ok tt /\ snd s = [] /\
  subscriptions (this (snd (fst s))) = subscriptions (this w) /\
  stalenessTimer (this (snd (fst s))) = true.
Proof.
  unfold subscribeOrderbook_rest. simpl.
  destruct (stalenessTimer (this w)) eqn:Est; simpl;
    rewrite ?Est;
    match goal with
    | |- context [when ?c _] => destruct c
    end; simpl; rewrite ?Est; auto.
Qed.

(** [requestL2Book] leaves the subscriptions alone; the request it hands
    back is registered for its waiter. *)
Lemma requestL2Book_registers now wt coin n w :
  let s := requestL2Book now wt coin n w in
  subscriptions (this (snd (fst s))) = subscriptions (this w) /\
  forall id, fst (fst s) = Ok id ->
    pendingRequests (this (snd (fst s))) !! id
    = Some {| waiter := wt; timeout := id |}.
Proof.
  cbv zeta. unfold requestL2Book, canRequest, tryRequest, post, ws_send. simpl.
  repeat match goal with
         | |- context [if ?c then _ else _] => destruct c; simpl
         end;
    try (split; [reflexivity | discriminate]).
  destruct (ws (this w)) as [k|]; simpl.
  - destruct (sockets w !! k) as [[]|]; simpl;
      rewrite ?lookup_insert_eq; simpl;
      (split; [reflexivity|]); intros id Hid; try discriminate;
      injection Hid as <-; apply lookup_insert_eq.
  - rewrite lookup_insert_eq. simpl. split; [reflexivity | discriminate].
Qed.

(** X27. [subscribeOrderbook] by mode. Neither connected nor in fallback it
    throws and records nothing. Otherwise it never throws and the coin
    is recorded beside the earlier subscriptions, whatever becomes of
    the snapshot request. In fallback the REST poller is started if it
    is not running and nothing goes out on the socket or through the
    limiter. Connected, either the staleness check is running when the
    call hands back control, or the snapshot request is pending and the
    rest of the call waits for it. *)
Theorem subscribe_by_mode now coin w :
  let s := subscribeOrderbook now coin w in
  let o' := this (snd (fst s)) in
  (connected (this w) = false -> useRestFallback (this w) = false ->
   s = (Throw NotConnected, w, [])) /\
  (connected (this w) = true \/ useRestFallback (this w) = true ->
   fst (fst s) = Ok tt /\
   In coin (subscriptions o') /\
   forall other, In other (subscriptions (this w)) -> In other (subscriptions o')) /\
  (useRestFallback (this w) = true ->
   snd s = [] /\
   restPollTimer o' = match restPollTimer (this w) with
                      | Some temporary => Some temporary
                      | None => Some false
                      end /\
   pendingRequests o' = pendingRequests (this w) /\
   requestId o' = requestId (this w) /\
   wsRateLimiter o' = wsRateLimiter (this w)) /\
  (connected (this w) = true -> useRestFallback (this w) = false ->
   stalenessTimer o' = true \/
   exists id, pendingRequests o' !! id
              = Some {| waiter := SubscribeOrderbook coin; timeout := id |}).
Proof.
  cbv zeta.
  assert (Hfall : useRestFallback (this w) = true ->
            let s := subscribeOrderbook now coin w in
            let o' := this (snd (fst s)) in
            fst (fst s) = Ok tt /\ snd s = [] /\
            subscriptions o' = set_add coin (subscriptions (this w)) /\
            restPollTimer o' = match restPollTimer (this w) with
                               | Some temporary => Some temporary
                               | None => Some false
                               end /\
            pendingRequests o' = pendingRequests (this w) /\
            requestId o' = requestId (this w) /\
            wsRateLimiter o' = wsRateLimiter (this w)).
  { intros Hf. unfold subscribeOrderbook. simpl. rewrite Hf, andb_false_r. simpl.
    unfold startRestPolling.
    destruct (restPollTimer (this w)) as [temporary|] eqn:Et; simpl;
      rewrite ?Et; simpl; repeat split; auto. }
  assert (Hconn : connected (this w) = true -> useRestFallback (this w) = false ->
            let s := subscribeOrderbook now coin w in
            let o' := this (snd (fst s)) in
            fst (fst s) = Ok tt /\
            subscriptions o' = set_add coin (subscriptions (this w)) /\
            (stalenessTimer o' = true \/
             exists id, pendingRequests o' !! id
                        = Some {| waiter := SubscribeOrderbook coin;
                                  timeout := id |})).
  { intros Hc Hf. unfold subscribeOrderbook. simpl. rewrite Hc, Hf. simpl.
    match goal with
    | |- context [requestL2Book _ _ _ _ ?w1] =>
        pose proof (requestL2Book_registers now (SubscribeOrderbook coin) coin 5 w1)
          as (Hsub & Hreg);
        destruct (requestL2Book now (SubscribeOrderbook coin) coin 5 w1)
          as [[[id|e] w2] out]
    end; simpl in *.
    - split; [reflexivity|]. split; [exact Hsub|].
      right. exists id. apply Hreg. reflexivity.
    - pose proof (subscribeOrderbook_rest_effect w2) as (Hok & Hout & Hs & Hst).
      destruct (subscribeOrderbook_rest w2) as [[r w3] out3]; simpl in *.
      split; [exact Hok|]. split; [congruence|]. left. exact Hst. }
  split; [|split; [|split]].
  - intros Hc Hf. unfold subscribeOrderbook. simpl. rewrite Hc, Hf. reflexivity.
  - intros Hmode.
    assert (Hboth : fst (fst (subscribeOrderbook now coin w)) = Ok tt /\
                    subscriptions (this (snd (fst (subscribeOrderbook now coin w))))
                    = set_add coin (subscriptions (this w))).
    { destruct (useRestFallback (this w)) eqn:Ef.
      - destruct (Hfall eq_refl) as (Hok & _ & Hs & _). split; assumption.
      - destruct Hmode as [Hc|]; [|discriminate].
        destruct (Hconn Hc eq_refl) as (Hok & Hs & _). split; assumption. }
    destruct Hboth as (Hok & Hs). rewrite Hs.
    split; [exact Hok|]. split; [apply set_add_in|].
    intros other. apply set_add_keeps.
  - intros Hf. destruct (Hfall Hf) as (_ & Hout & _ & Hrest). split; assumption.
  - intros Hc Hf. destruct (Hconn Hc Hf) as (_ & _ & Hmon). exact Hmon.
Qed.

(** A subscription on a connected connector whose limiter is full, and
    one in fallback. *)
Lemma subscribe_by_mode_witness :
  let s := subscribeOrderbook 200 "ETH" saturated in
  fst (fst s) = Ok tt /\
  In "ETH" (subscriptions (this (snd (fst s)))) /\
  restPollTimer (this (snd (fst (subscribeOrderbook 20000 "ETH" fallen))))
  = Some false.
Proof.
  intros s.
  destruct (subscribe_by_mode 200 "ETH" saturated) as (_ & Hrec & _).
  destruct (subscribe_by_mode 20000 "ETH" fallen) as (_ & _ & Hfall & _).
  destruct Hrec as (Hok & Hin & _); [left; reflexivity|].
  destruct Hfall as (_ & Hpoll & _); [reflexivity|].
  split; [exact Hok|]. split; [exact Hin | exact Hpoll].
Defined.

End SubscribeFacts.
